(** * Authentication core of authen_system: tokens, password policy,
      account lockout and the session registry.

    A shallow embedding of [app/core/security.py],
    [app/services/auth_service.py], [app/services/user_service.py], the
    tables of [app/models/user.py] and the settings of [app/core/config.py].

    Conventions of the embedding.
    - A Python [str] is a [string] over ASCII; a naive UTC [datetime] is the
      number of whole seconds since the epoch, a [Z]; a [timedelta] is a
      number of seconds.  Every call is evaluated at one instant [now]: the
      successive [datetime.utcnow()] reads inside one call are identified.
    - A call returns an [outcome]: a value, or the Python exception that
      leaves the function.
    - What the code draws at random (keys from [uuid.uuid4], the [jti] from
      [secrets.token_urlsafe], the salt of a password hash) is an argument
      of the call, chosen by the environment.
    - The third-party libraries are modelled by what they document: PyJWT by
      a symbolic signed token and its default claim validation, passlib by
      two opaque functions, SQLAlchemy by lists of rows with the primary-key
      and unique constraints the models declare.
    - Of the methods that only read the store, [search_users] is left
      out; [get_user_stats], [get_audit_logs] and [get_user_sessions]
      follow with the request dependencies and routes, after the
      services. *)

From Stdlib Require Import ZArith Lia Ascii DecimalString.
From stdpp Require Import base decidable option list strings gmap pretty.

Local Open Scope string_scope.
Local Open Scope list_scope.
Local Open Scope Z_scope.

(** ** Outcomes of Python calls *)

Inductive pyexn : Type :=
  | PyJWTError          (* jwt.PyJWTError and its subclasses *)
  | TypeError
  | ValueError
  | AttributeError
  | OverflowError       (* also the ValueError/OSError of an out-of-range timestamp *)
  | IntegrityError.     (* sqlalchemy.exc.IntegrityError *)

Inductive outcome (A : Type) : Type :=
  | Return (a : A)
  | Raise (e : pyexn).
Arguments Return {A} a.
Arguments Raise {A} e.

Definition obind {A B} (m : outcome A) (k : A -> outcome B) : outcome B :=
  match m with
  | Return a => k a
  | Raise e => Raise e
  end.

Notation "'do' x <- m ; k" := (obind m (fun x => k))
  (at level 10, x name, m at level 100, k at level 200).

#[global] Instance pyexn_eq_dec : EqDecision pyexn.
Proof. solve_decision. Defined.

(** ** JSON values: what a token payload can hold *)

#[local] Set Warnings "-register-all".

Inductive jvalue : Type :=
  | JNull
  | JBool (b : bool)
  | JInt (n : Z)
  | JStr (s : string)
  | JArr (items : list jvalue)
  | JObj (fields : list (string * jvalue)).

Definition jvalue_eq_dec : forall x y : jvalue, {x = y} + {x <> y}.
Proof.
  fix IH 1. intros x y.
  destruct x as [|b|n|s|l|l], y as [|b'|n'|s'|l'|l'];
    try (right; discriminate); try (left; reflexivity).
  - destruct (decide (b = b')); [left; congruence | right; congruence].
  - destruct (decide (n = n')); [left; congruence | right; congruence].
  - destruct (decide (s = s')); [left; congruence | right; congruence].
  - destruct (@list_eq_dec _ IH l l'); [left; congruence | right; congruence].
  - assert (D : forall p q : string * jvalue, {p = q} + {p <> q}).
    { intros [k v] [k' v'].
      destruct (decide (k = k')); [| right; congruence].
      destruct (IH v v'); [left; congruence | right; congruence]. }
    destruct (@list_eq_dec _ D l l'); [left; congruence | right; congruence].
Defined.

#[global] Instance jvalue_eq_decision : EqDecision jvalue := jvalue_eq_dec.

(** A decoded payload, a Python [dict] with string keys. *)
Abbreviation claims := (gmap string jvalue).

(** Python truthiness, as [if x:] and [not x] use it. *)
Definition truthy (v : jvalue) : bool :=
  match v with
  | JNull => false
  | JBool b => b
  | JInt n => negb (n =? 0)
  | JStr s => negb (String.eqb s "")
  | JArr l => match l with [] => false | _ => true end
  | JObj l => match l with [] => false | _ => true end
  end.

(** [x.get(k)] followed by a truth test: an absent key gives [None]. *)
Definition truthy_opt (o : option jvalue) : bool :=
  match o with Some v => truthy v | None => false end.

(** ** Settings ([app/core/config.py]) *)

Record Settings : Type := {
  SECRET_KEY : string;
  ACCESS_TOKEN_EXPIRE_MINUTES : Z;
  REFRESH_TOKEN_EXPIRE_DAYS : Z;
  PASSWORD_MIN_LENGTH : Z;
  PASSWORD_REQUIRE_UPPERCASE : bool;
  PASSWORD_REQUIRE_LOWERCASE : bool;
  PASSWORD_REQUIRE_NUMBERS : bool;
  PASSWORD_REQUIRE_SPECIAL : bool;
  MAX_LOGIN_ATTEMPTS : Z;
  LOCKOUT_DURATION_MINUTES : Z
}.

(** [TestingSettings]: the class defaults, with the two overrides of the
    testing environment (secret key, five-minute access tokens). *)
Definition testing_settings : Settings := {|
  SECRET_KEY := "test-secret-key-not-for-production";
  ACCESS_TOKEN_EXPIRE_MINUTES := 5;
  REFRESH_TOKEN_EXPIRE_DAYS := 7;
  PASSWORD_MIN_LENGTH := 8;
  PASSWORD_REQUIRE_UPPERCASE := true;
  PASSWORD_REQUIRE_LOWERCASE := true;
  PASSWORD_REQUIRE_NUMBERS := true;
  PASSWORD_REQUIRE_SPECIAL := true;
  MAX_LOGIN_ATTEMPTS := 5;
  LOCKOUT_DURATION_MINUTES := 30
|}.

(** ** Time *)

(** [timedelta(minutes=m)], [timedelta(hours=h)], [timedelta(days=d)]. *)
Definition minutes (m : Z) : Z := 60 * m.
Definition hours (h : Z) : Z := 3600 * h.
Definition days (d : Z) : Z := 86400 * d.

(** [datetime.min] and [datetime.max] as seconds from the epoch
    (0001-01-01T00:00:00 and 9999-12-31T23:59:59). *)
Definition datetime_min : Z := -62135596800.
Definition datetime_max : Z := 253402300799.

Definition in_datetime_range (d : Z) : bool :=
  (datetime_min <=? d) && (d <=? datetime_max).

(** ** Signed tokens: the model of PyJWT

    A token string is either a well-formed compact JWS, which determines its
    JSON payload and the key its signature verifies under, or any other
    text.  A forged or tampered signature is a signature under another
    key. *)

Inductive token : Type :=
  | JWS (payload : claims) (key : string)
  | NotJWS (text : string).

#[global] Instance token_eq_dec : EqDecision token.
Proof. solve_decision. Defined.

(** Truth value of a token used as a Python [str]: only [""] is false. *)
Definition token_truthy (t : token) : bool :=
  match t with
  | JWS _ _ => true
  | NotJWS s => negb (String.eqb s "")
  end.

(** [jwt.encode(payload, key, algorithm)].  The [datetime] values of [exp]
    and [iat] are already epoch seconds here. *)
Definition jwt_encode (payload : claims) (key : string) : token :=
  JWS payload key.

(** Python's [int(s)] on a string, for plain decimal numerals. *)
Definition int_of_str (s : string) : option Z :=
  Z.of_int <$> DecimalString.NilEmpty.int_of_string s.

(** [int(v)] on a decoded JSON value. *)
Definition py_int (v : jvalue) : outcome Z :=
  match v with
  | JInt n => Return n
  | JBool b => Return (if b then 1 else 0)
  | JStr s => match int_of_str s with
              | Some n => Return n
              | None => Raise ValueError
              end
  | JNull | JArr _ | JObj _ => Raise TypeError
  end.

(** [try: int(payload[c]) except ValueError: raise DecodeError]: PyJWT turns
    a [ValueError] into one of its own errors and lets any other through. *)
Definition claim_int (v : jvalue) : outcome Z :=
  match py_int v with
  | Raise ValueError => Raise PyJWTError
  | r => r
  end.

(** The registered claims PyJWT validates by default when [jwt.decode] is
    given no audience and no issuer: [iat] and [nbf] must not lie in the
    future, [exp] must lie in the future, and an [aud] claim is refused. *)
Definition validate_iat (now : Z) (p : claims) : outcome unit :=
  match p !! "iat" with
  | None => Return tt
  | Some v => do iat <- claim_int v;
              if now <? iat then Raise PyJWTError else Return tt
  end.

Definition validate_nbf (now : Z) (p : claims) : outcome unit :=
  match p !! "nbf" with
  | None => Return tt
  | Some v => do nbf <- claim_int v;
              if now <? nbf then Raise PyJWTError else Return tt
  end.

Definition validate_exp (now : Z) (p : claims) : outcome unit :=
  match p !! "exp" with
  | None => Return tt
  | Some v => do exp <- claim_int v;
              if exp <=? now then Raise PyJWTError else Return tt
  end.

Definition validate_aud (p : claims) : outcome unit :=
  if truthy_opt (p !! "aud") then Raise PyJWTError else Return tt.

Definition validate_claims (now : Z) (p : claims) : outcome unit :=
  do _ <- validate_iat now p;
  do _ <- validate_nbf now p;
  do _ <- validate_exp now p;
  validate_aud p.

(** [jwt.decode(token, key, algorithms=[...])] at time [now]. *)
Definition jwt_decode (t : token) (key : string) (now : Z) : outcome claims :=
  match t with
  | NotJWS _ => Raise PyJWTError
  | JWS p k =>
      if decide (k = key)
      then do _ <- validate_claims now p; Return p
      else Raise PyJWTError
  end.

(** [try: ... except jwt.PyJWTError: return h]. *)
Definition except_PyJWTError {A} (m : outcome A) (h : A) : outcome A :=
  match m with
  | Raise PyJWTError => Return h
  | r => r
  end.

(** [if expires_delta:] - a zero [timedelta] is false, like [None]. *)
Definition delta_truthy (d : option Z) : option Z :=
  match d with
  | Some s => if s =? 0 then None else Some s
  | None => None
  end.

(** [d.update(extra)] guarded by [if extra:]. *)
Definition update_claims (d : claims) (extra : option claims) : claims :=
  match extra with
  | Some e => if decide (e = ∅) then d else e ∪ d
  | None => d
  end.

(** ** [SecurityUtils]: token creation and verification *)

Section Security.
Context (settings : Settings).
(** Offset of the host's local time from UTC, in seconds:
    [datetime.fromtimestamp] answers in local time. *)
Context (tz_offset : Z).

Definition create_access_token (subject : string) (expires_delta : option Z)
    (additional_claims : option claims) (now : Z) : token :=
  let expire :=
    match delta_truthy expires_delta with
    | Some d => now + d
    | None => now + minutes (ACCESS_TOKEN_EXPIRE_MINUTES settings)
    end in
  let to_encode : claims :=
    <["exp" := JInt expire]> (<["sub" := JStr subject]>
      (<["type" := JStr "access"]> (<["iat" := JInt now]> ∅))) in
  let to_encode := update_claims to_encode additional_claims in
  jwt_encode to_encode (SECRET_KEY settings).

(** [jti] is the value drawn by [secrets.token_urlsafe(32)]. *)
Definition create_refresh_token (subject : string) (expires_delta : option Z)
    (jti : string) (now : Z) : token :=
  let expire :=
    match delta_truthy expires_delta with
    | Some d => now + d
    | None => now + days (REFRESH_TOKEN_EXPIRE_DAYS settings)
    end in
  let to_encode : claims :=
    <["exp" := JInt expire]> (<["sub" := JStr subject]>
      (<["type" := JStr "refresh"]> (<["iat" := JInt now]>
        (<["jti" := JStr jti]> ∅)))) in
  jwt_encode to_encode (SECRET_KEY settings).

(** [datetime.fromtimestamp(x)]: the local wall-clock time of the instant
    [x], or an exception when it is no number or falls outside the
    [datetime] range. *)
Definition fromtimestamp (x : jvalue) : outcome Z :=
  let at_ (n : Z) :=
    if in_datetime_range (n + tz_offset) then Return (n + tz_offset)
    else Raise OverflowError in
  match x with
  | JInt n => at_ n
  | JBool b => at_ (if b then 1 else 0)
  | _ => Raise TypeError
  end.

Definition verify_token (t : token) (token_type : string) (now : Z)
    : outcome (option claims) :=
  except_PyJWTError
    (do payload <- jwt_decode t (SECRET_KEY settings) now;
     (* Check token type *)
     if decide (payload !! "type" ≠ Some (JStr token_type)) then Return None
     else
       (* Check expiration *)
       do expires <- fromtimestamp (default (JInt 0) (payload !! "exp"));
       if expires <? now then Return None else Return (Some payload))
    None.

Definition generate_password_reset_token (email : string) (now : Z) : token :=
  let expires := now + hours 1 in
  let to_encode : claims :=
    <["exp" := JInt expires]> (<["sub" := JStr email]>
      (<["type" := JStr "password_reset"]> (<["iat" := JInt now]> ∅))) in
  jwt_encode to_encode (SECRET_KEY settings).

(** The result is [payload.get("sub")]; [JNull] stands for Python's
    [None]. *)
Definition verify_password_reset_token (t : token) (now : Z) : outcome jvalue :=
  except_PyJWTError
    (do payload <- jwt_decode t (SECRET_KEY settings) now;
     if decide (payload !! "type" ≠ Some (JStr "password_reset"))
     then Return JNull
     else Return (default JNull (payload !! "sub")))
    JNull.

Definition generate_email_verification_token (email : string) (now : Z) : token :=
  let expires := now + days 7 in
  let to_encode : claims :=
    <["exp" := JInt expires]> (<["sub" := JStr email]>
      (<["type" := JStr "email_verification"]> (<["iat" := JInt now]> ∅))) in
  jwt_encode to_encode (SECRET_KEY settings).

Definition verify_email_verification_token (t : token) (now : Z) : outcome jvalue :=
  except_PyJWTError
    (do payload <- jwt_decode t (SECRET_KEY settings) now;
     if decide (payload !! "type" ≠ Some (JStr "email_verification"))
     then Return JNull
     else Return (default JNull (payload !! "sub")))
    JNull.

End Security.

(** ** Token kinds *)

Inductive token_kind : Type :=
  | Access | Refresh | PasswordResetKind | EmailVerification.

#[global] Instance token_kind_eq_dec : EqDecision token_kind.
Proof. solve_decision. Defined.

(** The value of the [type] claim. *)
Definition kind_name (k : token_kind) : string :=
  match k with
  | Access => "access"
  | Refresh => "refresh"
  | PasswordResetKind => "password_reset"
  | EmailVerification => "email_verification"
  end.

(** The creation function of each kind.  Only the access creator takes
    extra claims, only the refresh creator draws a [jti], and the two email
    tokens have a fixed lifetime. *)
Definition create_token (settings : Settings) (k : token_kind)
    (subject : string) (expires_delta : option Z)
    (additional_claims : option claims) (jti : string) (now : Z) : token :=
  match k with
  | Access => create_access_token settings subject expires_delta additional_claims now
  | Refresh => create_refresh_token settings subject expires_delta jti now
  | PasswordResetKind => generate_password_reset_token settings subject now
  | EmailVerification => generate_email_verification_token settings subject now
  end.

(** The [exp] claim a token carries. *)
Definition token_exp (t : token) : option Z :=
  match t with
  | JWS p _ => match p !! "exp" with Some (JInt e) => Some e | _ => None end
  | NotJWS _ => None
  end.

(** The extra claims of a call, [{}] when none are passed. *)
Definition extras_of (additional_claims : option claims) : claims :=
  default ∅ additional_claims.

(** The names RFC 7519 registers, and the [type] claim of this code. *)
Definition reserved_claims : list string :=
  ["iss"; "sub"; "aud"; "exp"; "nbf"; "iat"; "jti"; "type"].

Definition avoids_reserved (extra : claims) : Prop :=
  Forall (fun c => extra !! c = None) reserved_claims.


(** ** Characters of a [str]

    Text is taken over ASCII, where Python's [isupper], [islower],
    [isdigit] and [lower] are the following. *)

Definition in_range (lo hi : N) (c : ascii) : bool :=
  ((lo <=? N_of_ascii c) && (N_of_ascii c <=? hi))%N.

Definition isupper (c : ascii) : bool := in_range 65 90 c.
Definition islower (c : ascii) : bool := in_range 97 122 c.
Definition isdigit (c : ascii) : bool := in_range 48 57 c.

Definition lower_char (c : ascii) : ascii :=
  if isupper c then ascii_of_N (N_of_ascii c + 32) else c.

Fixpoint lower (s : string) : string :=
  match s with
  | String.EmptyString => String.EmptyString
  | String.String c s' => String.String (lower_char c) (lower s')
  end.

(** [any(f(c) for c in s)] and [c in s] for a character [c]. *)
Fixpoint any_char (f : ascii -> bool) (s : string) : bool :=
  match s with
  | String.EmptyString => false
  | String.String c s' => f c || any_char f s'
  end.

Definition char_in (s : string) (c : ascii) : bool :=
  any_char (fun d => bool_decide (c = d)) s.

(** [len(s)]. *)
Definition len (s : string) : Z := Z.of_nat (String.length s).

(** [', '.join(l)]. *)
Fixpoint join (sep : string) (l : list string) : string :=
  match l with
  | [] => ""
  | [x] => x
  | x :: rest => x +:+ sep +:+ join sep rest
  end.

(** ** Password policy ([SecurityUtils.validate_password_strength]) *)

Record PasswordValidation : Type := {
  is_valid : bool;
  errors : list string;
  strength_score : Z
}.

Definition special_characters : string := "!@#$%^&*()_+-=[]{}|;:,.<>?".

Section PasswordPolicy.
Context (settings : Settings).

Definition validate_password_strength (password : string) : PasswordValidation :=
  let errors : list string := [] in
  let errors :=
    if len password <? PASSWORD_MIN_LENGTH settings
    then errors ++ ["Password must be at least "
                    +:+ pretty (PASSWORD_MIN_LENGTH settings)
                    +:+ " characters long"]
    else errors in
  let errors :=
    if PASSWORD_REQUIRE_UPPERCASE settings && negb (any_char isupper password)
    then errors ++ ["Password must contain at least one uppercase letter"]
    else errors in
  let errors :=
    if PASSWORD_REQUIRE_LOWERCASE settings && negb (any_char islower password)
    then errors ++ ["Password must contain at least one lowercase letter"]
    else errors in
  let errors :=
    if PASSWORD_REQUIRE_NUMBERS settings && negb (any_char isdigit password)
    then errors ++ ["Password must contain at least one number"]
    else errors in
  let errors :=
    if PASSWORD_REQUIRE_SPECIAL settings
       && negb (any_char (char_in special_characters) password)
    then errors ++ ["Password must contain at least one special character"]
    else errors in
  {| is_valid := bool_decide (length errors = 0%nat);
     errors := errors;
     strength_score := Z.max 0 (100 - Z.of_nat (length errors) * 20) |}.

(** The policy as the specification words it: five rules, each
    configured or not, each with the message of its violation. *)
Inductive rule : Type :=
  | MinimumLength | RequiresUppercase | RequiresLowercase
  | RequiresDigit | RequiresSpecial.

Definition all_rules : list rule :=
  [MinimumLength; RequiresUppercase; RequiresLowercase;
   RequiresDigit; RequiresSpecial].

Definition configured (r : rule) : bool :=
  match r with
  | MinimumLength => true
  | RequiresUppercase => PASSWORD_REQUIRE_UPPERCASE settings
  | RequiresLowercase => PASSWORD_REQUIRE_LOWERCASE settings
  | RequiresDigit => PASSWORD_REQUIRE_NUMBERS settings
  | RequiresSpecial => PASSWORD_REQUIRE_SPECIAL settings
  end.

Definition satisfies (password : string) (r : rule) : bool :=
  match r with
  | MinimumLength => PASSWORD_MIN_LENGTH settings <=? len password
  | RequiresUppercase => any_char isupper password
  | RequiresLowercase => any_char islower password
  | RequiresDigit => any_char isdigit password
  | RequiresSpecial => any_char (char_in special_characters) password
  end.

Definition violated (password : string) (r : rule) : bool :=
  configured r && negb (satisfies password r).

Definition violation (r : rule) : string :=
  match r with
  | MinimumLength => "Password must be at least "
                     +:+ pretty (PASSWORD_MIN_LENGTH settings)
                     +:+ " characters long"
  | RequiresUppercase => "Password must contain at least one uppercase letter"
  | RequiresLowercase => "Password must contain at least one lowercase letter"
  | RequiresDigit => "Password must contain at least one number"
  | RequiresSpecial => "Password must contain at least one special character"
  end.

End PasswordPolicy.

#[global] Instance rule_eq_dec : EqDecision rule.
Proof. solve_decision. Defined.

(** ** Password hashing: passlib's [CryptContext]

    [hash] draws a salt; [verify] recomputes the hash under the stored
    salt.  Both are opaque. *)
Record CryptContext : Type := {
  hash : string (* salt *) -> string (* password *) -> string;
  verify : string (* password *) -> string (* hash *) -> bool
}.

(** ** Identifiers

    A [uuid.UUID] is identified with its canonical text, so that [str(u)]
    is [u] itself; [uuid.UUID(s)] accepts the canonical 8-4-4-4-12 form. *)
Definition uuid : Type := string.

Definition is_hex (c : ascii) : bool := isdigit c || in_range 97 102 c.

Fixpoint uuid_shape (groups : list nat) (s : string) : bool :=
  match groups with
  | [] => bool_decide (s = "")
  | O :: rest =>
      match rest, s with
      | [], String.EmptyString => true
      | _ :: _, String.String "-" s' => uuid_shape rest s'
      | _, _ => false
      end
  | S n :: rest =>
      match s with
      | String.String c s' => is_hex c && uuid_shape (n :: rest) s'
      | String.EmptyString => false
      end
  end.

Definition UUID (v : jvalue) : outcome uuid :=
  match v with
  | JStr s => if uuid_shape [8; 4; 4; 4; 12]%nat s then Return s
              else Raise ValueError
  | _ => Raise AttributeError
  end.

(** ** Tables ([app/models/user.py]) *)

Inductive UserRole : Type :=
  | SUPERADMIN | ADMIN1 | ADMIN2 | ADMIN3 | USER.

#[global] Instance UserRole_eq_dec : EqDecision UserRole.
Proof. solve_decision. Defined.

Definition role_value (r : UserRole) : string :=
  match r with
  | SUPERADMIN => "superadmin"
  | ADMIN1 => "admin1"
  | ADMIN2 => "admin2"
  | ADMIN3 => "admin3"
  | USER => "user"
  end.

(** Row of table [users].  The columns no service reads or writes (the
    token and expiry columns for email verification and password reset kept
    on the user row) are left out. *)
Module User.

Record t : Type := mk {
  id : uuid;
  email : string;
  password_hash : string;
  first_name : string;
  last_name : string;
  avatar_url : option string;
  role : UserRole;
  is_active : bool;
  is_verified : bool;
  is_locked : bool;
  created_at : Z;
  updated_at : Z;
  last_login : option Z;
  password_changed_at : Z;
  failed_login_attempts : Z;
  locked_until : option Z
}.

Definition set_password_hash (v : string) (r : t) : t :=
  {| id := id r; email := email r; password_hash := v;
     first_name := first_name r; last_name := last_name r;
     avatar_url := avatar_url r; role := role r; is_active := is_active r;
     is_verified := is_verified r; is_locked := is_locked r;
     created_at := created_at r; updated_at := updated_at r;
     last_login := last_login r;
     password_changed_at := password_changed_at r;
     failed_login_attempts := failed_login_attempts r;
     locked_until := locked_until r |}.

Definition set_first_name (v : string) (r : t) : t :=
  {| id := id r; email := email r; password_hash := password_hash r;
     first_name := v; last_name := last_name r; avatar_url := avatar_url r;
     role := role r; is_active := is_active r;
     is_verified := is_verified r; is_locked := is_locked r;
     created_at := created_at r; updated_at := updated_at r;
     last_login := last_login r;
     password_changed_at := password_changed_at r;
     failed_login_attempts := failed_login_attempts r;
     locked_until := locked_until r |}.

Definition set_last_name (v : string) (r : t) : t :=
  {| id := id r; email := email r; password_hash := password_hash r;
     first_name := first_name r; last_name := v;
     avatar_url := avatar_url r; role := role r; is_active := is_active r;
     is_verified := is_verified r; is_locked := is_locked r;
     created_at := created_at r; updated_at := updated_at r;
     last_login := last_login r;
     password_changed_at := password_changed_at r;
     failed_login_attempts := failed_login_attempts r;
     locked_until := locked_until r |}.

Definition set_avatar_url (v : option string) (r : t) : t :=
  {| id := id r; email := email r; password_hash := password_hash r;
     first_name := first_name r; last_name := last_name r; avatar_url := v;
     role := role r; is_active := is_active r;
     is_verified := is_verified r; is_locked := is_locked r;
     created_at := created_at r; updated_at := updated_at r;
     last_login := last_login r;
     password_changed_at := password_changed_at r;
     failed_login_attempts := failed_login_attempts r;
     locked_until := locked_until r |}.

Definition set_role (v : UserRole) (r : t) : t :=
  {| id := id r; email := email r; password_hash := password_hash r;
     first_name := first_name r; last_name := last_name r;
     avatar_url := avatar_url r; role := v; is_active := is_active r;
     is_verified := is_verified r; is_locked := is_locked r;
     created_at := created_at r; updated_at := updated_at r;
     last_login := last_login r;
     password_changed_at := password_changed_at r;
     failed_login_attempts := failed_login_attempts r;
     locked_until := locked_until r |}.

Definition set_is_active (v : bool) (r : t) : t :=
  {| id := id r; email := email r; password_hash := password_hash r;
     first_name := first_name r; last_name := last_name r;
     avatar_url := avatar_url r; role := role r; is_active := v;
     is_verified := is_verified r; is_locked := is_locked r;
     created_at := created_at r; updated_at := updated_at r;
     last_login := last_login r;
     password_changed_at := password_changed_at r;
     failed_login_attempts := failed_login_attempts r;
     locked_until := locked_until r |}.

Definition set_is_verified (v : bool) (r : t) : t :=
  {| id := id r; email := email r; password_hash := password_hash r;
     first_name := first_name r; last_name := last_name r;
     avatar_url := avatar_url r; role := role r; is_active := is_active r;
     is_verified := v; is_locked := is_locked r;
     created_at := created_at r; updated_at := updated_at r;
     last_login := last_login r;
     password_changed_at := password_changed_at r;
     failed_login_attempts := failed_login_attempts r;
     locked_until := locked_until r |}.

Definition set_is_locked (v : bool) (r : t) : t :=
  {| id := id r; email := email r; password_hash := password_hash r;
     first_name := first_name r; last_name := last_name r;
     avatar_url := avatar_url r; role := role r; is_active := is_active r;
     is_verified := is_verified r; is_locked := v;
     created_at := created_at r; updated_at := updated_at r;
     last_login := last_login r;
     password_changed_at := password_changed_at r;
     failed_login_attempts := failed_login_attempts r;
     locked_until := locked_until r |}.

Definition set_updated_at (v : Z) (r : t) : t :=
  {| id := id r; email := email r; password_hash := password_hash r;
     first_name := first_name r; last_name := last_name r;
     avatar_url := avatar_url r; role := role r; is_active := is_active r;
     is_verified := is_verified r; is_locked := is_locked r;
     created_at := created_at r; updated_at := v;
     last_login := last_login r;
     password_changed_at := password_changed_at r;
     failed_login_attempts := failed_login_attempts r;
     locked_until := locked_until r |}.

Definition set_last_login (v : option Z) (r : t) : t :=
  {| id := id r; email := email r; password_hash := password_hash r;
     first_name := first_name r; last_name := last_name r;
     avatar_url := avatar_url r; role := role r; is_active := is_active r;
     is_verified := is_verified r; is_locked := is_locked r;
     created_at := created_at r; updated_at := updated_at r;
     last_login := v; password_changed_at := password_changed_at r;
     failed_login_attempts := failed_login_attempts r;
     locked_until := locked_until r |}.

Definition set_password_changed_at (v : Z) (r : t) : t :=
  {| id := id r; email := email r; password_hash := password_hash r;
     first_name := first_name r; last_name := last_name r;
     avatar_url := avatar_url r; role := role r; is_active := is_active r;
     is_verified := is_verified r; is_locked := is_locked r;
     created_at := created_at r; updated_at := updated_at r;
     last_login := last_login r; password_changed_at := v;
     failed_login_attempts := failed_login_attempts r;
     locked_until := locked_until r |}.

Definition set_failed_login_attempts (v : Z) (r : t) : t :=
  {| id := id r; email := email r; password_hash := password_hash r;
     first_name := first_name r; last_name := last_name r;
     avatar_url := avatar_url r; role := role r; is_active := is_active r;
     is_verified := is_verified r; is_locked := is_locked r;
     created_at := created_at r; updated_at := updated_at r;
     last_login := last_login r;
     password_changed_at := password_changed_at r;
     failed_login_attempts := v; locked_until := locked_until r |}.

Definition set_locked_until (v : option Z) (r : t) : t :=
  {| id := id r; email := email r; password_hash := password_hash r;
     first_name := first_name r; last_name := last_name r;
     avatar_url := avatar_url r; role := role r; is_active := is_active r;
     is_verified := is_verified r; is_locked := is_locked r;
     created_at := created_at r; updated_at := updated_at r;
     last_login := last_login r;
     password_changed_at := password_changed_at r;
     failed_login_attempts := failed_login_attempts r; locked_until := v |}.

End User.

(** Row of table [user_sessions]. *)
Module UserSession.

Record t : Type := mk {
  id : uuid;
  user_id : uuid;
  refresh_token : token;
  device_info : option string;
  ip_address : option string;
  user_agent : option string;
  created_at : Z;
  expires_at : Z;
  last_used_at : Z;
  is_active : bool
}.

Definition set_last_used_at (v : Z) (r : t) : t :=
  {| id := id r; user_id := user_id r; refresh_token := refresh_token r;
     device_info := device_info r; ip_address := ip_address r;
     user_agent := user_agent r; created_at := created_at r;
     expires_at := expires_at r; last_used_at := v;
     is_active := is_active r |}.

Definition set_is_active (v : bool) (r : t) : t :=
  {| id := id r; user_id := user_id r; refresh_token := refresh_token r;
     device_info := device_info r; ip_address := ip_address r;
     user_agent := user_agent r; created_at := created_at r;
     expires_at := expires_at r; last_used_at := last_used_at r;
     is_active := v |}.

(** Property [is_expired]. *)
Definition is_expired (now : Z) (r : t) : bool := expires_at r <? now.

(** Method [refresh]: update the last-used timestamp. *)
Definition refresh (now : Z) (r : t) : t := set_last_used_at now r.

End UserSession.

(** Row of table [password_resets] (without its surrogate key, which nothing
    reads). *)
Module PasswordReset.

Record t : Type := mk {
  user_id : uuid;
  token : token;
  is_used : bool;
  created_at : Z;
  expires_at : Z;
  used_at : option Z;
  ip_address : option string;
  user_agent : option string
}.

Definition set_is_used (v : bool) (r : t) : t :=
  {| user_id := user_id r; token := token r; is_used := v;
     created_at := created_at r; expires_at := expires_at r;
     used_at := used_at r; ip_address := ip_address r;
     user_agent := user_agent r |}.

Definition set_used_at (v : option Z) (r : t) : t :=
  {| user_id := user_id r; token := token r; is_used := is_used r;
     created_at := created_at r; expires_at := expires_at r; used_at := v;
     ip_address := ip_address r; user_agent := user_agent r |}.

Definition is_expired (now : Z) (r : t) : bool := expires_at r <? now.

(** Property [is_valid]: not used and not expired. *)
Definition is_valid (now : Z) (r : t) : bool :=
  negb (is_used r) && negb (is_expired now r).

End PasswordReset.

(** Row of table [audit_logs] (without its surrogate key).  The JSON text of
    [old_values] and [new_values] is represented by the value it
    serialises. *)
Module AuditLog.

Record t : Type := mk {
  user_id : option uuid;
  action : string;
  resource : option string;
  resource_id : option string;
  old_values : option jvalue;
  new_values : option jvalue;
  ip_address : option string;
  user_agent : option string;
  created_at : Z
}.

End AuditLog.

(** ** Request schemas ([app/schemas/user.py]) *)

Module LoginRequest.
Record t : Type := mk { email : string; password : string; remember_me : bool }.
End LoginRequest.

Module UserCreate.
Record t : Type := mk {
  email : string;
  first_name : string;
  last_name : string;
  role : UserRole;
  is_active : bool;
  password : string
}.
End UserCreate.

(** [UserUpdate] and [UserUpdateProfile]: a field is [None] when it was not
    set in the request, which is what [dict(exclude_unset=True)] drops. *)
Module UserUpdate.
Record t : Type := mk {
  first_name : option string;
  last_name : option string;
  avatar_url : option string;
  is_active : option bool;
  role : option UserRole
}.
End UserUpdate.

Module UserUpdateProfile.
Record t : Type := mk {
  first_name : option string;
  last_name : option string;
  avatar_url : option string
}.
End UserUpdateProfile.

Module PasswordChange.
Record t : Type := mk { current_password : string; new_password : string }.
End PasswordChange.

Module PasswordResetSchema.
Record t : Type := mk { email : string }.
End PasswordResetSchema.

(** ** The store

    The four tables, rows in insertion order.  No service deletes a row, so
    a row is identified by its position, which is what an ORM object
    obtained from a query stands for. *)

Record Db : Type := {
  users : list User.t;
  user_sessions : list UserSession.t;
  password_resets : list PasswordReset.t;
  audit_logs : list AuditLog.t
}.

Definition empty_db : Db :=
  {| users := []; user_sessions := []; password_resets := []; audit_logs := [] |}.

Definition with_users (f : list User.t -> list User.t) (db : Db) : Db :=
  {| users := f (users db); user_sessions := user_sessions db;
     password_resets := password_resets db; audit_logs := audit_logs db |}.

Definition with_user_sessions (f : list UserSession.t -> list UserSession.t)
    (db : Db) : Db :=
  {| users := users db; user_sessions := f (user_sessions db);
     password_resets := password_resets db; audit_logs := audit_logs db |}.

Definition with_password_resets (f : list PasswordReset.t -> list PasswordReset.t)
    (db : Db) : Db :=
  {| users := users db; user_sessions := user_sessions db;
     password_resets := f (password_resets db); audit_logs := audit_logs db |}.

Definition with_audit_logs (f : list AuditLog.t -> list AuditLog.t) (db : Db) : Db :=
  {| users := users db; user_sessions := user_sessions db;
     password_resets := password_resets db; audit_logs := f (audit_logs db) |}.

(** A service call: it reads and writes the store and returns or raises.
    After an exception the store is as of the last commit. *)
Definition M (A : Type) : Type := Db -> outcome A * Db.

Definition ret {A} (a : A) : M A := fun db => (Return a, db).

Definition raise {A} (e : pyexn) : M A := fun db => (Raise e, db).

Definition bind {A B} (m : M A) (k : A -> M B) : M B :=
  fun db =>
    match m db with
    | (Return a, db') => k a db'
    | (Raise e, db') => (Raise e, db')
    end.

Definition lift {A} (o : outcome A) : M A := fun db => (o, db).

Definition get : M Db := fun db => (Return db, db).

Definition modify (f : Db -> Db) : M unit := fun db => (Return tt, f db).

Declare Scope M_scope.
Delimit Scope M_scope with M.
Notation "x <- y ;; z" := (bind y (fun x => z))
  (at level 20, y at level 99, z at level 200) : M_scope.
Notation "x ;; z" := (bind x (fun _ => z))
  (at level 100, z at level 200, right associativity) : M_scope.
Local Open Scope M_scope.

(** [query.filter(...).first()]: the first row that satisfies the filter,
    with its position. *)
Definition first {A} (P : A -> Prop) `{forall x, Decision (P x)} (rows : list A)
    : option (nat * A) :=
  list_find P rows.

(** [query.filter(...).update({...})]: every matching row is rewritten. *)
Definition update_where {A} (P : A -> bool) (f : A -> A) (rows : list A) : list A :=
  (fun r => if P r then f r else r) <$> rows.

(** [db.commit()]: writes are applied as they are made, so committing
    changes nothing more. *)
Definition commit : M unit := ret tt.

(** [db.add(row); db.commit()] on each table, with the primary-key and
    unique constraints the model declares. *)
Definition add_user (u : User.t) : M unit :=
  db <- get ;;
  if bool_decide (Exists (fun r => User.id r = User.id u \/ User.email r = User.email u)
                    (users db))
  then raise IntegrityError
  else modify (with_users (fun rows => rows ++ [u])).

Definition add_user_session (s : UserSession.t) : M unit :=
  db <- get ;;
  if bool_decide (Exists (fun r => UserSession.id r = UserSession.id s \/
                                   UserSession.refresh_token r = UserSession.refresh_token s)
                    (user_sessions db))
  then raise IntegrityError
  else modify (with_user_sessions (fun rows => rows ++ [s])).

Definition add_password_reset (p : PasswordReset.t) : M unit :=
  db <- get ;;
  if bool_decide (Exists (fun r => PasswordReset.token r = PasswordReset.token p)
                    (password_resets db))
  then raise IntegrityError
  else modify (with_password_resets (fun rows => rows ++ [p])).

Definition add_audit_log (a : AuditLog.t) : M unit :=
  modify (with_audit_logs (fun rows => rows ++ [a])).

(** Writing back the attributes set on the ORM object at position [i]. *)
Definition set_user (i : nat) (u : User.t) : M unit :=
  modify (with_users (fun rows => <[i := u]> rows)).

Definition set_user_session (i : nat) (s : UserSession.t) : M unit :=
  modify (with_user_sessions (fun rows => <[i := s]> rows)).

Definition set_password_reset (i : nat) (p : PasswordReset.t) : M unit :=
  modify (with_password_resets (fun rows => <[i := p]> rows)).

(** [filter(UserSession.user_id == user_id).update({"is_active": False})]. *)
Definition invalidate_user_sessions (user_id : uuid) : M unit :=
  modify (with_user_sessions
            (update_where (fun s => bool_decide (UserSession.user_id s = user_id))
                          (UserSession.set_is_active false))).

(** [setattr(obj, field, value)] for a field that the request set. *)
Definition set_if {A R} (set : A -> R -> R) (o : option A) (r : R) : R :=
  match o with
  | Some v => set v r
  | None => r
  end.

(** ** Services *)

Section Services.
Context (settings : Settings) (tz_offset : Z) (pwd_context : CryptContext).

(** [SecurityUtils.get_password_hash] and [SecurityUtils.verify_password]. *)
Definition get_password_hash (salt password : string) : string :=
  hash pwd_context salt password.

Definition verify_password (plain_password hashed_password : string) : bool :=
  verify pwd_context plain_password hashed_password.

(** *** [UserService] ([app/services/user_service.py]) *)

Definition log_audit_action (action : string)
    (resource resource_id : option string) (user : option User.t)
    (old_values new_values : option jvalue)
    (ip_address user_agent : option string) (now : Z) : M unit :=
  let audit_log :=
    AuditLog.mk (User.id <$> user) action resource resource_id
      old_values new_values ip_address user_agent now in
  add_audit_log audit_log ;;
  commit.

Definition get_user_by_id (user_id : uuid) : M (option (nat * User.t)) :=
  db <- get ;;
  ret (first (fun u => User.id u = user_id) (users db)).

Definition get_user_by_email (email : string) : M (option (nat * User.t)) :=
  db <- get ;;
  ret (first (fun u => User.email u = lower email) (users db)).

(** [new_id] is the key drawn by [uuid.uuid4], [salt] the salt drawn by
    the hashing scheme. *)
Definition create_user (user_create : UserCreate.t) (created_by : option User.t)
    (new_id : uuid) (salt : string) (now : Z) : M User.t :=
  (* Check if user already exists *)
  existing_user <- get_user_by_email (UserCreate.email user_create) ;;
  if bool_decide (is_Some existing_user) then raise ValueError else
  (* Validate password strength *)
  let password_validation :=
    validate_password_strength settings (UserCreate.password user_create) in
  if negb (is_valid password_validation) then raise ValueError else
  (* Create user *)
  let user :=
    {| User.id := new_id;
       User.email := lower (UserCreate.email user_create);
       User.password_hash :=
         get_password_hash salt (UserCreate.password user_create);
       User.first_name := UserCreate.first_name user_create;
       User.last_name := UserCreate.last_name user_create;
       User.avatar_url := None;
       User.role := UserCreate.role user_create;
       User.is_active := UserCreate.is_active user_create;
       User.is_verified := false;
       User.is_locked := false;
       User.created_at := now;
       User.updated_at := now;
       User.last_login := None;
       User.password_changed_at := now;
       User.failed_login_attempts := 0;
       User.locked_until := None |} in
  add_user user ;;
  (* Log user creation *)
  log_audit_action "user_created" (Some "user") (Some (User.id user))
    created_by None
    (Some (JObj [("email", JStr (User.email user));
                 ("first_name", JStr (User.first_name user));
                 ("last_name", JStr (User.last_name user));
                 ("role", JStr (role_value (User.role user)))]))
    None None now ;;
  ret user.

Definition managed_values (user : User.t) : jvalue :=
  JObj [("first_name", JStr (User.first_name user));
        ("last_name", JStr (User.last_name user));
        ("role", JStr (role_value (User.role user)));
        ("is_active", JBool (User.is_active user))].

Definition update_user (user_id : uuid) (user_update : UserUpdate.t)
    (updated_by : option User.t) (now : Z) : M (option User.t) :=
  found <- get_user_by_id user_id ;;
  match found with
  | None => ret None
  | Some (i, user) =>
      (* Store old values for audit log *)
      let old_values := managed_values user in
      (* Update fields *)
      let user := set_if User.set_first_name (UserUpdate.first_name user_update) user in
      let user := set_if User.set_last_name (UserUpdate.last_name user_update) user in
      let user := set_if (fun v => User.set_avatar_url (Some v))
                    (UserUpdate.avatar_url user_update) user in
      let user := set_if User.set_is_active (UserUpdate.is_active user_update) user in
      let user := set_if User.set_role (UserUpdate.role user_update) user in
      let user := User.set_updated_at now user in
      set_user i user ;;
      commit ;;
      (* Log user update *)
      log_audit_action "user_updated" (Some "user") (Some (User.id user))
        updated_by (Some old_values) (Some (managed_values user)) None None now ;;
      ret (Some user)
  end.

Definition profile_values (user : User.t) : jvalue :=
  JObj [("first_name", JStr (User.first_name user));
        ("last_name", JStr (User.last_name user));
        ("avatar_url", from_option JStr JNull (User.avatar_url user))].

Definition update_user_profile (user_id : uuid)
    (profile_update : UserUpdateProfile.t) (now : Z) : M (option User.t) :=
  found <- get_user_by_id user_id ;;
  match found with
  | None => ret None
  | Some (i, user) =>
      let old_values := profile_values user in
      let user := set_if User.set_first_name
                    (UserUpdateProfile.first_name profile_update) user in
      let user := set_if User.set_last_name
                    (UserUpdateProfile.last_name profile_update) user in
      let user := set_if (fun v => User.set_avatar_url (Some v))
                    (UserUpdateProfile.avatar_url profile_update) user in
      let user := User.set_updated_at now user in
      set_user i user ;;
      commit ;;
      log_audit_action "profile_updated" (Some "user") (Some (User.id user))
        (Some user) (Some old_values) (Some (profile_values user)) None None now ;;
      ret (Some user)
  end.

Definition change_password (user_id : uuid) (password_change : PasswordChange.t)
    (salt : string) (now : Z) : M bool :=
  found <- get_user_by_id user_id ;;
  match found with
  | None => ret false
  | Some (i, user) =>
      (* Verify current password *)
      if negb (verify_password (PasswordChange.current_password password_change)
                 (User.password_hash user))
      then raise ValueError else
      (* Validate new password strength *)
      let password_validation :=
        validate_password_strength settings
          (PasswordChange.new_password password_change) in
      if negb (is_valid password_validation) then raise ValueError else
      (* Update password *)
      let user := User.set_password_hash
                    (get_password_hash salt
                       (PasswordChange.new_password password_change)) user in
      let user := User.set_password_changed_at now user in
      let user := User.set_updated_at now user in
      set_user i user ;;
      (* Invalidate all user sessions *)
      invalidate_user_sessions user_id ;;
      commit ;;
      (* Log password change *)
      log_audit_action "password_changed" (Some "user") (Some (User.id user))
        (Some user) None None None None now ;;
      ret true
  end.

Definition delete_user (user_id : uuid) (deleted_by : option User.t) (now : Z)
    : M bool :=
  found <- get_user_by_id user_id ;;
  match found with
  | None => ret false
  | Some (i, user) =>
      (* Soft delete by deactivating *)
      let user := User.set_is_active false user in
      let user := User.set_updated_at now user in
      set_user i user ;;
      (* Invalidate all user sessions *)
      invalidate_user_sessions user_id ;;
      commit ;;
      log_audit_action "user_deleted" (Some "user") (Some (User.id user))
        deleted_by None None None None now ;;
      ret true
  end.

Definition lock_user (user_id : uuid) (locked_by : option User.t) (now : Z)
    : M bool :=
  found <- get_user_by_id user_id ;;
  match found with
  | None => ret false
  | Some (i, user) =>
      let user := User.set_is_locked true user in
      let user := User.set_locked_until None user in (* Permanent lock *)
      let user := User.set_updated_at now user in
      set_user i user ;;
      (* Invalidate all user sessions *)
      invalidate_user_sessions user_id ;;
      commit ;;
      log_audit_action "user_locked" (Some "user") (Some (User.id user))
        locked_by None None None None now ;;
      ret true
  end.

Definition unlock_user (user_id : uuid) (unlocked_by : option User.t) (now : Z)
    : M bool :=
  found <- get_user_by_id user_id ;;
  match found with
  | None => ret false
  | Some (i, user) =>
      let user := User.set_is_locked false user in
      let user := User.set_locked_until None user in
      let user := User.set_failed_login_attempts 0 user in
      let user := User.set_updated_at now user in
      set_user i user ;;
      commit ;;
      log_audit_action "user_unlocked" (Some "user") (Some (User.id user))
        unlocked_by None None None None now ;;
      ret true
  end.

(** *** [AuthService] ([app/services/auth_service.py]) *)

(** The refusal of a locked account, if any: a temporary lock still
    running, or a permanent lock.  [remaining_time.seconds] is the seconds
    part of the [timedelta], below one day. *)
Definition locked_refusal (user : User.t) (now : Z) : option string :=
  if User.is_locked user then
    match User.locked_until user with
    | Some locked_until =>
        if now <? locked_until then
          let remaining_time := locked_until - now in
          Some ("Account is locked. Try again in "
                +:+ pretty ((remaining_time `mod` 86400) `div` 60)
                +:+ " minutes")
        else None
    | None => Some "Account is permanently locked. Contact administrator"
    end
  else None.

Definition authenticate_user (login_request : LoginRequest.t)
    (ip_address user_agent : option string) (now : Z)
    : M (option User.t * option string) :=
  found <- get_user_by_email (LoginRequest.email login_request) ;;
  match found with
  | None => ret (None, Some "Invalid email or password")
  | Some (i, user) =>
      (* Check if account is locked *)
      match locked_refusal user now with
      | Some message => ret (None, Some message)
      | None =>
          (* Check if account is active *)
          if negb (User.is_active user)
          then ret (None, Some "Account is deactivated") else
          (* Verify password *)
          if negb (verify_password (LoginRequest.password login_request)
                     (User.password_hash user))
          then
            (* Increment failed login attempts *)
            let user := User.set_failed_login_attempts
                          (User.failed_login_attempts user + 1) user in
            (* Lock account if max attempts reached *)
            (if MAX_LOGIN_ATTEMPTS settings <=? User.failed_login_attempts user
             then
               let user := User.set_is_locked true user in
               let user := User.set_locked_until
                             (Some (now + minutes (LOCKOUT_DURATION_MINUTES settings)))
                             user in
               set_user i user ;;
               (* Log account lockout *)
               log_audit_action "account_locked_failed_attempts" (Some "user")
                 (Some (User.id user)) (Some user) None None
                 ip_address user_agent now
             else set_user i user) ;;
            commit ;;
            (* Log failed login attempt *)
            log_audit_action "login_failed" (Some "user") (Some (User.id user))
              (Some user) None
              (Some (JObj [("reason", JStr "invalid_password")]))
              ip_address user_agent now ;;
            ret (None, Some "Invalid email or password")
          else
            (* Reset failed login attempts on successful authentication *)
            let user :=
              if 0 <? User.failed_login_attempts user
              then User.set_failed_login_attempts 0 user else user in
            (* Unlock account if it was temporarily locked *)
            let user :=
              if User.is_locked user
                 && from_option (fun locked_until => locked_until <=? now) false
                      (User.locked_until user)
              then User.set_locked_until None (User.set_is_locked false user)
              else user in
            (* Update last login *)
            let user := User.set_last_login (Some now) user in
            set_user i user ;;
            commit ;;
            (* Log successful login *)
            log_audit_action "login_successful" (Some "user")
              (Some (User.id user)) (Some user) None None
              ip_address user_agent now ;;
            ret (Some user, None)
      end
  end.

Definition session_claims (user : User.t) (session_id : uuid) : claims :=
  <["email" := JStr (User.email user)]>
    (<["role" := JStr (role_value (User.role user))]>
      (<["session_id" := JStr session_id]> ∅)).

(** [jti] is the token id drawn by [secrets.token_urlsafe], [new_id] the
    session key drawn by [uuid.uuid4]. *)
Definition create_user_session (user : User.t) (remember_me : bool)
    (device_info ip_address user_agent : option string)
    (jti : string) (new_id : uuid) (now : Z) : M (token * token) :=
  (* Create refresh token *)
  let refresh_token_expires :=
    days (REFRESH_TOKEN_EXPIRE_DAYS settings * (if remember_me then 2 else 1)) in
  let refresh_token :=
    create_refresh_token settings (User.id user) (Some refresh_token_expires)
      jti now in
  (* Create user session *)
  let session :=
    {| UserSession.id := new_id;
       UserSession.user_id := User.id user;
       UserSession.refresh_token := refresh_token;
       UserSession.device_info := device_info;
       UserSession.ip_address := ip_address;
       UserSession.user_agent := user_agent;
       UserSession.created_at := now;
       UserSession.expires_at := now + refresh_token_expires;
       UserSession.last_used_at := now;
       UserSession.is_active := true |} in
  add_user_session session ;;
  (* Create access token with user info *)
  let access_token :=
    create_access_token settings (User.id user) None
      (Some (session_claims user (UserSession.id session))) now in
  ret (access_token, refresh_token).

Definition refresh_access_token (refresh_token : token)
    (ip_address user_agent : option string) (now : Z)
    : M (option token * option string) :=
  (* Verify refresh token *)
  payload <- lift (verify_token settings tz_offset refresh_token "refresh" now) ;;
  match payload with
  | None => ret (None, Some "Invalid or expired refresh token")
  | Some payload =>
      if bool_decide (payload = ∅)
      then ret (None, Some "Invalid or expired refresh token") else
      let user_id := payload !! "sub" in
      if negb (truthy_opt user_id)
      then ret (None, Some "Invalid refresh token") else
      (* Get user session *)
      db <- get ;;
      let session :=
        first (fun s => UserSession.refresh_token s = refresh_token /\
                        UserSession.is_active s = true)
              (user_sessions db) in
      match session with
      | None => ret (None, Some "Invalid or expired refresh token")
      | Some (j, session) =>
          if UserSession.is_expired now session
          then ret (None, Some "Invalid or expired refresh token") else
          (* Get user *)
          user_uuid <- lift (UUID (default JNull user_id)) ;;
          found <- get_user_by_id user_uuid ;;
          match found with
          | None => ret (None, Some "User not found or inactive")
          | Some (_, user) =>
              if negb (User.is_active user)
              then ret (None, Some "User not found or inactive") else
              (* Update session last used *)
              let session := UserSession.refresh now session in
              set_user_session j session ;;
              commit ;;
              (* Create new access token *)
              let access_token :=
                create_access_token settings (User.id user) None
                  (Some (session_claims user (UserSession.id session))) now in
              (* Log token refresh *)
              log_audit_action "token_refreshed" (Some "user")
                (Some (User.id user)) (Some user) None None
                ip_address user_agent now ;;
              ret (Some access_token, None)
          end
      end
  end.

Definition logout_user (user : User.t) (refresh_token : option token)
    (logout_all_devices : bool) (ip_address user_agent : option string)
    (now : Z) : M bool :=
  action <-
    (if logout_all_devices then
       (* Invalidate all user sessions *)
       invalidate_user_sessions (User.id user) ;;
       ret "logout_all_devices"
     else
       (* Invalidate specific session *)
       match refresh_token with
       | Some tok =>
           if token_truthy tok then
             modify (with_user_sessions
               (update_where
                  (fun s => bool_decide (UserSession.user_id s = User.id user)
                            && bool_decide (UserSession.refresh_token s = tok))
                  (UserSession.set_is_active false)))
           else invalidate_user_sessions (User.id user)
       | None =>
           (* Invalidate all sessions if no specific token provided *)
           invalidate_user_sessions (User.id user)
       end ;;
       ret "logout") ;;
  commit ;;
  (* Log logout *)
  log_audit_action action (Some "user") (Some (User.id user)) (Some user)
    None None ip_address user_agent now ;;
  ret true.

Definition request_password_reset (password_reset_request : PasswordResetSchema.t)
    (ip_address user_agent : option string) (now : Z) : M bool :=
  found <- get_user_by_email (PasswordResetSchema.email password_reset_request) ;;
  match found with
  | None => ret true (* Don't reveal if email exists *)
  | Some (_, user) =>
      (* Check if user is active *)
      if negb (User.is_active user) then ret true else
      (* Generate reset token *)
      let reset_token :=
        generate_password_reset_token settings (User.email user) now in
      (* Create password reset record *)
      let password_reset :=
        {| PasswordReset.user_id := User.id user;
           PasswordReset.token := reset_token;
           PasswordReset.is_used := false;
           PasswordReset.created_at := now;
           PasswordReset.expires_at := now + hours 1;
           PasswordReset.used_at := None;
           PasswordReset.ip_address := ip_address;
           PasswordReset.user_agent := user_agent |} in
      add_password_reset password_reset ;;
      (* Log password reset request *)
      log_audit_action "password_reset_requested" (Some "user")
        (Some (User.id user)) (Some user) None None
        ip_address user_agent now ;;
      ret true
  end.

(** [get_user_by_email] on the [sub] claim of a reset token: [lower] exists
    on a [str] only. *)
Definition get_user_by_claimed_email (email : jvalue)
    : M (option (nat * User.t)) :=
  match email with
  | JStr s => get_user_by_email s
  | _ => raise AttributeError
  end.

Definition reset_password (reset_token : token) (new_password : string)
    (ip_address user_agent : option string) (salt : string) (now : Z)
    : M (bool * option string) :=
  (* Verify reset token *)
  email <- lift (verify_password_reset_token settings reset_token now) ;;
  if negb (truthy email)
  then ret (false, Some "Invalid or expired reset token") else
  (* Get password reset record *)
  db <- get ;;
  let password_reset :=
    first (fun r => PasswordReset.token r = reset_token /\
                    PasswordReset.is_used r = false)
          (password_resets db) in
  match password_reset with
  | None => ret (false, Some "Invalid or expired reset token")
  | Some (j, password_reset) =>
      if negb (PasswordReset.is_valid now password_reset)
      then ret (false, Some "Invalid or expired reset token") else
      (* Get user *)
      found <- get_user_by_claimed_email email ;;
      match found with
      | None => ret (false, Some "User not found")
      | Some (i, user) =>
          (* Validate new password strength *)
          let password_validation :=
            validate_password_strength settings new_password in
          if negb (is_valid password_validation)
          then ret (false, Some ("Password validation failed: "
                                 +:+ join ", " (errors password_validation)))
          else
          (* Update password *)
          let user := User.set_password_hash
                        (get_password_hash salt new_password) user in
          let user := User.set_password_changed_at now user in
          let user := User.set_updated_at now user in
          set_user i user ;;
          (* Mark reset token as used *)
          let password_reset := PasswordReset.set_is_used true password_reset in
          let password_reset := PasswordReset.set_used_at (Some now) password_reset in
          set_password_reset j password_reset ;;
          (* Invalidate all user sessions *)
          invalidate_user_sessions (User.id user) ;;
          commit ;;
          (* Log password reset *)
          log_audit_action "password_reset_completed" (Some "user")
            (Some (User.id user)) (Some user) None None
            ip_address user_agent now ;;
          ret (true, None)
      end
  end.

Definition revoke_session (user : User.t) (session_id : uuid)
    (ip_address user_agent : option string) (now : Z) : M bool :=
  db <- get ;;
  let session :=
    first (fun s => UserSession.id s = session_id /\
                    UserSession.user_id s = User.id user /\
                    UserSession.is_active s = true)
          (user_sessions db) in
  match session with
  | None => ret false
  | Some (j, session) =>
      let session := UserSession.set_is_active false session in
      set_user_session j session ;;
      commit ;;
      (* Log session revocation *)
      log_audit_action "session_revoked" (Some "session")
        (Some (UserSession.id session)) (Some user) None None
        ip_address user_agent now ;;
      ret true
  end.

Definition cleanup_expired_sessions (now : Z) : M Z :=
  db <- get ;;
  let expired (s : UserSession.t) := UserSession.expires_at s <? now in
  let expired_count := Z.of_nat (length (filter (fun s => expired s = true)
                                           (user_sessions db))) in
  modify (with_user_sessions
            (update_where expired (UserSession.set_is_active false))) ;;
  commit ;;
  ret expired_count.

(** [scripts/create_superuser.py], after [create_user]: mark the new user
    as verified. *)
Definition mark_verified (user_id : uuid) : M unit :=
  found <- get_user_by_id user_id ;;
  match found with
  | None => ret tt
  | Some (i, user) => set_user i (User.set_is_verified true user) ;; commit
  end.

End Services.

(** ** The system as a transition system *)

(** One call of a service method that may write the store, with the values
    the environment draws for it. *)
Inductive request : Type :=
  | CreateUser (user_create : UserCreate.t) (created_by : option User.t)
      (new_id : uuid) (salt : string)
  | UpdateUser (user_id : uuid) (user_update : UserUpdate.t)
      (updated_by : option User.t)
  | UpdateUserProfile (user_id : uuid) (profile_update : UserUpdateProfile.t)
  | ChangePassword (user_id : uuid) (password_change : PasswordChange.t)
      (salt : string)
  | DeleteUser (user_id : uuid) (deleted_by : option User.t)
  | LockUser (user_id : uuid) (locked_by : option User.t)
  | UnlockUser (user_id : uuid) (unlocked_by : option User.t)
  | LogAuditAction (action : string) (resource resource_id : option string)
      (user : option User.t) (old_values new_values : option jvalue)
      (ip_address user_agent : option string)
  | MarkVerified (user_id : uuid)
  | AuthenticateUser (login_request : LoginRequest.t)
      (ip_address user_agent : option string)
  | CreateUserSession (user : User.t) (remember_me : bool)
      (device_info ip_address user_agent : option string)
      (jti : string) (new_id : uuid)
  | RefreshAccessToken (refresh_token : token)
      (ip_address user_agent : option string)
  | LogoutUser (user : User.t) (refresh_token : option token)
      (logout_all_devices : bool) (ip_address user_agent : option string)
  | RequestPasswordReset (password_reset_request : PasswordResetSchema.t)
      (ip_address user_agent : option string)
  | ResetPassword (reset_token : token) (new_password : string)
      (ip_address user_agent : option string) (salt : string)
  | RevokeSession (user : User.t) (session_id : uuid)
      (ip_address user_agent : option string)
  | CleanupExpiredSessions.

(** The store a call leaves behind. *)
Definition exec {A} (m : M A) (db : Db) : Db := snd (m db).

Section System.
Context (settings : Settings) (tz_offset : Z) (pwd_context : CryptContext).

Definition handle (r : request) (now : Z) (db : Db) : Db :=
  match r with
  | CreateUser uc by_ new_id salt =>
      exec (create_user settings pwd_context uc by_ new_id salt now) db
  | UpdateUser uid upd by_ => exec (update_user uid upd by_ now) db
  | UpdateUserProfile uid upd => exec (update_user_profile uid upd now) db
  | ChangePassword uid pc salt =>
      exec (change_password settings pwd_context uid pc salt now) db
  | DeleteUser uid by_ => exec (delete_user uid by_ now) db
  | LockUser uid by_ => exec (lock_user uid by_ now) db
  | UnlockUser uid by_ => exec (unlock_user uid by_ now) db
  | LogAuditAction a res rid u old new ip ua =>
      exec (log_audit_action a res rid u old new ip ua now) db
  | MarkVerified uid => exec (mark_verified uid) db
  | AuthenticateUser lr ip ua =>
      exec (authenticate_user settings pwd_context lr ip ua now) db
  | CreateUserSession u remember dev ip ua jti new_id =>
      exec (create_user_session settings u remember dev ip ua jti new_id now) db
  | RefreshAccessToken tok ip ua =>
      exec (refresh_access_token settings tz_offset tok ip ua now) db
  | LogoutUser u tok all ip ua => exec (logout_user u tok all ip ua now) db
  | RequestPasswordReset req ip ua =>
      exec (request_password_reset settings req ip ua now) db
  | ResetPassword tok pw ip ua salt =>
      exec (reset_password settings pwd_context tok pw ip ua salt now) db
  | RevokeSession u sid ip ua => exec (revoke_session u sid ip ua now) db
  | CleanupExpiredSessions => exec (cleanup_expired_sessions now) db
  end.

(** The stores the services can produce from the empty one. *)
Inductive reachable : Db -> Prop :=
  | reachable_empty : reachable empty_db
  | reachable_handle db r now :
      reachable db -> reachable (handle r now db).

(** The calls that revoke the refresh token of the session [s] when they
    are made at time [now] on the store [db]: logout by the owner with that
    token, logout from all devices by the owner, a password change of the
    owner that succeeds, a password reset of the owner that succeeds. *)
Inductive revokes (db : Db) (now : Z) (s : UserSession.t) : request -> Prop :=
  | revokes_logout user ip_address user_agent :
      User.id user = UserSession.user_id s ->
      revokes db now s
        (LogoutUser user (Some (UserSession.refresh_token s)) false
           ip_address user_agent)
  | revokes_logout_all user refresh_token ip_address user_agent :
      User.id user = UserSession.user_id s ->
      revokes db now s
        (LogoutUser user refresh_token true ip_address user_agent)
  | revokes_password_change password_change salt :
      fst (change_password settings pwd_context (UserSession.user_id s)
             password_change salt now db) = Return true ->
      revokes db now s
        (ChangePassword (UserSession.user_id s) password_change salt)
  | revokes_password_reset reset_token new_password ip_address user_agent salt
      email i user :
      verify_password_reset_token settings reset_token now = Return (JStr email) ->
      first (fun u => User.email u = lower email) (users db) = Some (i, user) ->
      User.id user = UserSession.user_id s ->
      fst (reset_password settings pwd_context reset_token new_password
             ip_address user_agent salt now db) = Return (true, None) ->
      revokes db now s
        (ResetPassword reset_token new_password ip_address user_agent salt).

(** A later history: calls with the time of each. *)
Definition handle_all (calls : list (request * Z)) (db : Db) : Db :=
  foldl (fun db call => handle call.1 call.2 db) db calls.

End System.

(** Consecutive logins to one account: the passwords tried, each with the
    time of its call, and the results in order. *)
Fixpoint login_attempts (settings : Settings) (pwd_context : CryptContext)
    (email : string) (ip_address user_agent : option string)
    (tries : list (string * Z)) (db : Db)
    : list (outcome (option User.t * option string)) * Db :=
  match tries with
  | [] => ([], db)
  | (password, now) :: rest =>
      let (r, db') :=
        authenticate_user settings pwd_context
          (LoginRequest.mk email password false) ip_address user_agent now db in
      let (rs, db'') :=
        login_attempts settings pwd_context email ip_address user_agent rest db' in
      (r :: rs, db'')
  end.

(** ** Outcomes as the specification words them *)

(** A call that was refused: it returned [False] with a message, or raised. *)
Definition rejected (r : outcome (bool * option string)) : Prop :=
  (exists message, r = Return (false, Some message)) \/ (exists e, r = Raise e).

(** [InvalidCredentials] and [AccountLocked] (the temporary lock, with its
    hint of the minutes left) as [authenticate_user] reports them. *)
Definition invalid_credentials (r : outcome (option User.t * option string)) : Prop :=
  r = Return (None, Some "Invalid email or password").

Definition account_locked (r : outcome (option User.t * option string)) : Prop :=
  exists n : Z,
    r = Return (None, Some ("Account is locked. Try again in "
                            +:+ pretty n +:+ " minutes")).

(** A refresh that was refused: an error message and no token, or an
    exception. *)
Definition refused (r : outcome (option token * option string)) : Prop :=
  (exists message, r = Return (None, Some message)) \/ (exists e, r = Raise e).

(** The refresh token [t] is revoked in a store: it belongs to a session
    and to no active one. *)
Definition revoked_in (t : token) (db : Db) : Prop :=
  (exists s, s ∈ user_sessions db /\ UserSession.refresh_token s = t) /\
  (forall s, s ∈ user_sessions db ->
     UserSession.refresh_token s = t -> UserSession.is_active s = false).

(** ** Example values *)

(** A [CryptContext] for examples: the stored hash is the salt, a [$] and
    the password. *)
Definition example_context : CryptContext :=
  {| hash := fun salt password => salt +:+ "$" +:+ password;
     verify := fun password hashed =>
       match String.index 0 "$" hashed with
       | Some n => bool_decide
                     (String.substring (S n) (String.length hashed - S n) hashed = password)
       | None => false
       end |}.

Definition alice_id : uuid := "00000000-0000-4000-8000-00000000000a".

Definition alice_create : UserCreate.t :=
  {| UserCreate.email := "a@x.com";
     UserCreate.first_name := "Alice";
     UserCreate.last_name := "A";
     UserCreate.role := USER;
     UserCreate.is_active := true;
     UserCreate.password := "Str0ng!Pw" |}.

(** The store after Alice registered at time 1000. *)
Definition alice_db : Db :=
  snd (create_user testing_settings example_context alice_create None
         alice_id "s" 1000 empty_db).

(** ** Row transitions

    What one service call may do to a row that is already stored. *)

(** The lock fields of a row agree: an unlocked account has no lock time. *)
Definition lock_consistent (u : User.t) : Prop :=
  User.is_locked u = false -> User.locked_until u = None.

Definition user_step (u u' : User.t) : Prop :=
  User.id u' = User.id u /\
  User.email u' = User.email u /\
  (0 <= User.failed_login_attempts u -> 0 <= User.failed_login_attempts u') /\
  (lock_consistent u -> lock_consistent u') /\
  (User.locked_until u' <> User.locked_until u ->
   User.locked_until u' <> None -> User.is_locked u' = true).

(** A row as [create_user] stores it. *)
Definition fresh_user (u : User.t) : Prop :=
  User.failed_login_attempts u = 0 /\
  User.is_locked u = false /\
  User.locked_until u = None.

Definition session_step (s s' : UserSession.t) : Prop :=
  UserSession.id s' = UserSession.id s /\
  UserSession.user_id s' = UserSession.user_id s /\
  UserSession.refresh_token s' = UserSession.refresh_token s /\
  UserSession.expires_at s' = UserSession.expires_at s /\
  (UserSession.is_active s' = true -> UserSession.is_active s = true).

(** A table after a call: the rows it had, each one step on, and at most
    one new row at the end. *)
Definition table_step {A} (step : A -> A -> Prop) (new : list A -> A -> Prop)
    (rows rows' : list A) : Prop :=
  exists kept,
    Forall2 step rows kept /\
    (rows' = kept \/ exists r, rows' = kept ++ [r] /\ new rows r).

Definition new_session (rows : list UserSession.t) (s : UserSession.t) : Prop :=
  UserSession.refresh_token s ∉ (UserSession.refresh_token <$> rows).

(** Store invariants. *)
Definition locks_consistent (db : Db) : Prop :=
  Forall lock_consistent (users db).

Definition counters_nonnegative (db : Db) : Prop :=
  Forall (fun u => 0 <= User.failed_login_attempts u) (users db).

Definition refresh_tokens_unique (db : Db) : Prop :=
  NoDup (UserSession.refresh_token <$> user_sessions db).

Definition alice_login : LoginRequest.t :=
  {| LoginRequest.email := "a@x.com";
     LoginRequest.password := "Str0ng!Pw";
     LoginRequest.remember_me := false |}.

Definition alice_typo : LoginRequest.t :=
  {| LoginRequest.email := "a@x.com";
     LoginRequest.password := "Strong!Pw";
     LoginRequest.remember_me := false |}.

(** The store after Alice mistyped her password once, at time 1001. *)
Definition alice_db_after_typo : Db :=
  handle testing_settings 0 example_context
    (AuthenticateUser alice_typo None None) 1001 alice_db.

(** Alice's row as stored at registration. *)
Definition alice : User.t :=
  {| User.id := alice_id;
     User.email := "a@x.com";
     User.password_hash := "s$Str0ng!Pw";
     User.first_name := "Alice";
     User.last_name := "A";
     User.avatar_url := None;
     User.role := USER;
     User.is_active := true;
     User.is_verified := false;
     User.is_locked := false;
     User.created_at := 1000;
     User.updated_at := 1000;
     User.last_login := None;
     User.password_changed_at := 1000;
     User.failed_login_attempts := 0;
     User.locked_until := None |}.

Definition alice_session_id : uuid := "00000000-0000-4000-8000-0000000000a1".

(** The store after Alice opened a session at time 1100, and that session. *)
Definition alice_session_db : Db :=
  handle testing_settings 0 example_context
    (CreateUserSession alice false None None None "jti-1" alice_session_id)
    1100 alice_db.

Definition alice_session : UserSession.t :=
  {| UserSession.id := alice_session_id;
     UserSession.user_id := alice_id;
     UserSession.refresh_token :=
       create_refresh_token testing_settings alice_id (Some (days 7)) "jti-1" 1100;
     UserSession.device_info := None;
     UserSession.ip_address := None;
     UserSession.user_agent := None;
     UserSession.created_at := 1100;
     UserSession.expires_at := 1100 + days 7;
     UserSession.last_used_at := 1100;
     UserSession.is_active := true |}.

(** Alice logs out with her refresh token at time 1200; later the same
    session is requested again and the token is presented twice. *)
Definition alice_logout : request :=
  LogoutUser alice (Some (UserSession.refresh_token alice_session)) false None None.

Definition alice_later_calls : list (request * Z) :=
  [(CreateUserSession alice false None None None "jti-1" alice_session_id, 1100);
   (RefreshAccessToken (UserSession.refresh_token alice_session) None None, 1250);
   (AuthenticateUser alice_login None None, 1260)].

(** * Further code: authorization, request dependencies, routes and read
      queries *)

(** ** Roles and permissions ([app/models/user.py], methods of [User]) *)

(** Property [is_admin]. *)
Definition is_admin (self : User.t) : bool :=
  bool_decide (role_value (User.role self)
               ∈ ["superadmin"; "admin1"; "admin2"; "admin3"]).

(** Property [is_superadmin]. *)
Definition is_superadmin (self : User.t) : bool :=
  bool_decide (role_value (User.role self) = "superadmin").

Definition can_manage_role (self : User.t) (target_role : string) : bool :=
  if bool_decide (role_value (User.role self) = "superadmin") then
    bool_decide (target_role ∈ ["admin1"; "admin2"; "admin3"; "user"])
  else if bool_decide (role_value (User.role self) ∈ ["admin1"; "admin2"; "admin3"])
  then bool_decide (target_role = "user")
  else false.

Definition role_permissions : gmap string (list string) :=
  list_to_map
    [("superadmin", ["manage_admins"; "manage_users"; "view_audit_logs";
                     "manage_system_settings"; "view_analytics"; "manage_roles"]);
     ("admin1", ["manage_users"; "view_audit_logs"; "view_analytics"]);
     ("admin2", ["manage_users"; "view_audit_logs"; "view_analytics"]);
     ("admin3", ["manage_users"; "view_audit_logs"; "view_analytics"]);
     ("user", ["view_profile"; "update_profile"])].

Definition has_permission (self : User.t) (permission : string) : bool :=
  bool_decide
    (permission ∈ default [] (role_permissions !! role_value (User.role self))).

(** ** [PermissionChecker] ([app/api/dependencies.py]); [user] is the user
    the checker was built for. *)

Definition can_manage_user (user target_user : User.t) : bool :=
  (* Superadmin can manage all users except other superadmins *)
  if is_superadmin user then
    negb (bool_decide (role_value (User.role target_user) = "superadmin"))
    || bool_decide (User.id target_user = User.id user)
  (* Admin users can only manage regular users *)
  else if is_admin user then
    bool_decide (role_value (User.role target_user) = "user")
  (* Regular users can only manage themselves *)
  else bool_decide (User.id target_user = User.id user).

Definition can_view_user (user target_user : User.t) : bool :=
  (* Superadmin can view all users *)
  if is_superadmin user then true
  (* Admin users can view regular users and themselves *)
  else if is_admin user then
    bool_decide (role_value (User.role target_user) = "user")
    || bool_decide (User.id target_user = User.id user)
  (* Regular users can only view themselves *)
  else bool_decide (User.id target_user = User.id user).

Definition can_assign_role (user : User.t) (target_role : string) : bool :=
  (* Only superadmin can assign admin roles *)
  if bool_decide (target_role ∈ ["superadmin"; "admin1"; "admin2"; "admin3"])
  then is_superadmin user
  (* Admin users can assign user role *)
  else if bool_decide (target_role = "user") then is_admin user
  else false.

Definition can_access_audit_logs (user : User.t) : bool :=
  has_permission user "view_audit_logs".

Definition can_view_analytics (user : User.t) : bool :=
  has_permission user "view_analytics".

(** ** Example accounts of the other roles *)

Definition root_id : uuid := "00000000-0000-4000-8000-000000000001".
Definition bob_id : uuid := "00000000-0000-4000-8000-00000000000b".

(** A superadmin and an admin of the first tier, as [create_user] stores
    them. *)
Definition root : User.t :=
  {| User.id := root_id;
     User.email := "root@x.com";
     User.password_hash := "s$R00t!Pass";
     User.first_name := "Root";
     User.last_name := "R";
     User.avatar_url := None;
     User.role := SUPERADMIN;
     User.is_active := true;
     User.is_verified := false;
     User.is_locked := false;
     User.created_at := 900;
     User.updated_at := 900;
     User.last_login := None;
     User.password_changed_at := 900;
     User.failed_login_attempts := 0;
     User.locked_until := None |}.

Definition bob : User.t :=
  {| User.id := bob_id;
     User.email := "b@x.com";
     User.password_hash := "s$B0b!Passw";
     User.first_name := "Bob";
     User.last_name := "B";
     User.avatar_url := None;
     User.role := ADMIN1;
     User.is_active := true;
     User.is_verified := false;
     User.is_locked := false;
     User.created_at := 950;
     User.updated_at := 950;
     User.last_login := None;
     User.password_changed_at := 950;
     User.failed_login_attempts := 0;
     User.locked_until := None |}.

(** ** Row transitions, table by table

    What a call may do to the rows of each table, and the rows it may
    add. *)

(** A stored account keeps its key and its email. *)
Definition user_kept (u u' : User.t) : Prop :=
  User.id u' = User.id u /\ User.email u' = User.email u.

(** A new account: its key and its email are not taken, and its email is
    in lower case. *)
Definition new_user (rows : list User.t) (u : User.t) : Prop :=
  (User.id u ∉ (User.id <$> rows)) /\
  (User.email u ∉ (User.email <$> rows)) /\
  lower (User.email u) = User.email u.

(** A stored session changes in [last_used_at] and [is_active] only. *)
Definition session_kept (s s' : UserSession.t) : Prop :=
  s' = UserSession.set_is_active (UserSession.is_active s')
         (UserSession.set_last_used_at (UserSession.last_used_at s') s).

(** A session as [create_user_session] stores it at time [now]: it is
    active, its key is not taken, and its refresh token was made for its
    user at that time, for the lifetime of the session. *)
Definition new_user_session (settings : Settings) (now : Z)
    (rows : list UserSession.t) (s : UserSession.t) : Prop :=
  (UserSession.id s ∉ (UserSession.id <$> rows)) /\
  UserSession.is_active s = true /\
  UserSession.created_at s = now /\
  UserSession.last_used_at s = now /\
  exists (remember_me : bool) (jti : string),
    UserSession.expires_at s
      = now + days (REFRESH_TOKEN_EXPIRE_DAYS settings
                    * (if remember_me then 2 else 1)) /\
    UserSession.refresh_token s
      = create_refresh_token settings (UserSession.user_id s)
          (Some (UserSession.expires_at s - now)) jti now.

(** A stored reset record changes only by being used. *)
Definition reset_kept (now : Z) (p p' : PasswordReset.t) : Prop :=
  p' = p \/
  (PasswordReset.is_used p = false /\
   p' = PasswordReset.set_used_at (Some now) (PasswordReset.set_is_used true p)).

(** A reset record as [request_password_reset] stores it at time [now] for
    an account of the store [db]. *)
Definition new_password_reset (settings : Settings) (now : Z) (db : Db)
    (rows : list PasswordReset.t) (p : PasswordReset.t) : Prop :=
  (PasswordReset.token p ∉ (PasswordReset.token <$> rows)) /\
  PasswordReset.is_used p = false /\
  PasswordReset.used_at p = None /\
  PasswordReset.created_at p = now /\
  PasswordReset.expires_at p = now + hours 1 /\
  exists user,
    user ∈ users db /\
    User.is_active user = true /\
    PasswordReset.user_id p = User.id user /\
    PasswordReset.token p
      = generate_password_reset_token settings (User.email user) now.

(** ** Further store invariants *)

Definition user_ids_unique (db : Db) : Prop := NoDup (User.id <$> users db).

Definition user_emails_unique (db : Db) : Prop := NoDup (User.email <$> users db).

Definition emails_lower_case (db : Db) : Prop :=
  Forall (fun u => lower (User.email u) = User.email u) (users db).

Definition session_ids_unique (db : Db) : Prop :=
  NoDup (UserSession.id <$> user_sessions db).

(** The refresh token of a session carries the session's user, creation
    time and expiry. *)
Definition session_token_agrees (settings : Settings) (s : UserSession.t) : Prop :=
  exists payload,
    UserSession.refresh_token s = JWS payload (SECRET_KEY settings) /\
    payload !! "type" = Some (JStr "refresh") /\
    payload !! "sub" = Some (JStr (UserSession.user_id s)) /\
    payload !! "iat" = Some (JInt (UserSession.created_at s)) /\
    payload !! "exp" = Some (JInt (UserSession.expires_at s)).

Definition reset_tokens_unique (db : Db) : Prop :=
  NoDup (PasswordReset.token <$> password_resets db).

(** A reset record lives one hour, and it is marked used exactly when it
    has a time of use. *)
Definition reset_well_formed (p : PasswordReset.t) : Prop :=
  PasswordReset.expires_at p = PasswordReset.created_at p + hours 1 /\
  (PasswordReset.is_used p = true <-> is_Some (PasswordReset.used_at p)).

(** Every reset record belongs to a stored account, and its token is the
    reset token issued to that account's email when the record was made. *)
Definition reset_belongs_to_account (settings : Settings) (db : Db)
    (p : PasswordReset.t) : Prop :=
  exists user,
    user ∈ users db /\
    PasswordReset.user_id p = User.id user /\
    PasswordReset.token p
      = generate_password_reset_token settings (User.email user)
          (PasswordReset.created_at p).

(** The reset token [t] is used up in a store: it has a record, and every
    record of it is marked used. *)
Definition used_up (t : token) (db : Db) : Prop :=
  (exists p, p ∈ password_resets db /\ PasswordReset.token p = t) /\
  (forall p, p ∈ password_resets db ->
     PasswordReset.token p = t -> PasswordReset.is_used p = true).

(** The store after Alice asked for a password reset at time 1300. *)
Definition alice_reset_request : PasswordResetSchema.t :=
  {| PasswordResetSchema.email := "a@x.com" |}.

Definition alice_reset_db : Db :=
  handle testing_settings 0 example_context
    (RequestPasswordReset alice_reset_request None None) 1300 alice_db.

(** The token of that request, and the store after Alice used it at time
    1400 to set a new password. *)
Definition alice_reset_token : token :=
  generate_password_reset_token testing_settings "a@x.com" 1300.

Definition alice_after_reset_db : Db :=
  handle testing_settings 0 example_context
    (ResetPassword alice_reset_token "N3w!Passw0rd" None None "s2") 1400
    alice_reset_db.

(** ** Requests ([fastapi])

    What a dependency or a route does with a request: it returns a value,
    raises an [HTTPException], which the framework turns into the response
    with that status, or lets another exception escape, which the framework
    answers with status 500. *)

Record HTTPException : Type := http_exception {
  status_code : Z;
  detail : string;
  headers : option (list (string * string))
}.

Definition HTTP_400_BAD_REQUEST : Z := 400.
Definition HTTP_401_UNAUTHORIZED : Z := 401.
Definition HTTP_403_FORBIDDEN : Z := 403.
Definition HTTP_404_NOT_FOUND : Z := 404.

Inductive response (A : Type) : Type :=
  | Respond (a : A)
  | Abort (e : HTTPException)
  | Fault (e : pyexn).
Arguments Respond {A} a.
Arguments Abort {A} e.
Arguments Fault {A} e.

(** A dependency or a route body: it reads and writes the store of the
    request's database session. *)
Definition R (A : Type) : Type := Db -> response A * Db.

Definition respond {A} (a : A) : R A := fun db => (Respond a, db).

Definition abort {A} (e : HTTPException) : R A := fun db => (Abort e, db).

Definition rbind {A B} (m : R A) (k : A -> R B) : R B :=
  fun db =>
    match m db with
    | (Respond a, db') => k a db'
    | (Abort e, db') => (Abort e, db')
    | (Fault e, db') => (Fault e, db')
    end.

(** A call of a service method, or of a library function, from a route. *)
Definition call {A} (m : M A) : R A :=
  fun db =>
    match m db with
    | (Return a, db') => (Respond a, db')
    | (Raise e, db') => (Fault e, db')
    end.

(** [try: ... except Exception: return h]: an [HTTPException] is an
    exception too. *)
Definition except_Exception {A} (m : R A) (h : A) : R A :=
  fun db =>
    match m db with
    | (Respond a, db') => (Respond a, db')
    | (_, db') => (Respond h, db')
    end.

(** [try: ... except ValueError: raise e]. *)
Definition except_ValueError {A} (m : R A) (e : HTTPException) : R A :=
  fun db =>
    match m db with
    | (Fault ValueError, db') => (Abort e, db')
    | r => r
    end.

(** [x = Depends(dep)] where [dep] itself has the parameter
    [y = Depends(sub)]: the framework calls [sub], then [dep] on its
    result.  Within one request a dependency is called once, so every
    parameter that depends on [get_current_user] receives the same user. *)
Definition Depends {A B} (dep : A -> R B) (sub : R A) : R B := rbind sub dep.

Declare Scope R_scope.
Delimit Scope R_scope with R.
Notation "x <- y ;; z" := (rbind y (fun x => z))
  (at level 20, y at level 99, z at level 200) : R_scope.
Notation "x ;; z" := (rbind x (fun _ => z))
  (at level 100, z at level 200, right associativity) : R_scope.

(** ** Request dependencies ([app/api/dependencies.py]) *)

Section Dependencies.
Context (settings : Settings) (tz_offset : Z).
Local Open Scope R_scope.

(** [credentials] is what the [HTTPBearer] scheme found: the bearer token
    of the [Authorization] header, if there is one. *)
Definition get_current_user (credentials : option token) (now : Z) : R User.t :=
  match credentials with
  | None =>
      abort (http_exception HTTP_401_UNAUTHORIZED "Not authenticated"
               (Some [("WWW-Authenticate", "Bearer")]))
  | Some credentials =>
      (* Verify access token *)
      payload <- call (lift (verify_token settings tz_offset credentials
                               "access" now)) ;;
      match payload with
      | None =>
          abort (http_exception HTTP_401_UNAUTHORIZED "Invalid or expired token"
                   (Some [("WWW-Authenticate", "Bearer")]))
      | Some payload =>
          if bool_decide (payload = ∅)
          then abort (http_exception HTTP_401_UNAUTHORIZED
                        "Invalid or expired token"
                        (Some [("WWW-Authenticate", "Bearer")]))
          else
          let user_id := payload !! "sub" in
          if negb (truthy_opt user_id)
          then abort (http_exception HTTP_401_UNAUTHORIZED "Invalid token"
                        (Some [("WWW-Authenticate", "Bearer")]))
          else
          (* Get user from database *)
          user_uuid <- call (lift (UUID (default JNull user_id))) ;;
          user <- call (get_user_by_id user_uuid) ;;
          match user with
          | None =>
              abort (http_exception HTTP_401_UNAUTHORIZED "User not found"
                       (Some [("WWW-Authenticate", "Bearer")]))
          | Some (_, user) =>
              if negb (User.is_active user)
              then abort (http_exception HTTP_401_UNAUTHORIZED
                            "User account is deactivated"
                            (Some [("WWW-Authenticate", "Bearer")]))
              else
              if User.is_locked user
              then abort (http_exception HTTP_401_UNAUTHORIZED
                            "User account is locked"
                            (Some [("WWW-Authenticate", "Bearer")]))
              else respond user
          end
      end
  end.

Definition get_current_active_user (current_user : User.t) : R User.t :=
  respond current_user.

Definition get_current_admin_user (current_user : User.t) : R User.t :=
  if negb (is_admin current_user)
  then abort (http_exception HTTP_403_FORBIDDEN "Not enough permissions" None)
  else respond current_user.

Definition get_current_superadmin_user (current_user : User.t) : R User.t :=
  if negb (is_superadmin current_user)
  then abort (http_exception HTTP_403_FORBIDDEN "Superadmin access required" None)
  else respond current_user.

Definition require_permission (permission : string) (current_user : User.t)
    : R User.t :=
  if negb (has_permission current_user permission)
  then abort (http_exception HTTP_403_FORBIDDEN
                ("Permission '" +:+ permission +:+ "' required") None)
  else respond current_user.

Definition require_role (allowed_roles : list string) (current_user : User.t)
    : R User.t :=
  if bool_decide (role_value (User.role current_user) ∉ allowed_roles)
  then abort (http_exception HTTP_403_FORBIDDEN
                ("Role must be one of: " +:+ join ", " allowed_roles) None)
  else respond current_user.

Definition get_optional_current_user (credentials : option token) (now : Z)
    : R (option User.t) :=
  match credentials with
  | None => respond None
  | Some credentials =>
      except_Exception
        ((* Verify access token *)
         payload <- call (lift (verify_token settings tz_offset credentials
                                  "access" now)) ;;
         match payload with
         | None => respond None
         | Some payload =>
             if bool_decide (payload = ∅) then respond None else
             let user_id := payload !! "sub" in
             if negb (truthy_opt user_id) then respond None else
             (* Get user from database *)
             user_uuid <- call (lift (UUID (default JNull user_id))) ;;
             user <- call (get_user_by_id user_uuid) ;;
             match user with
             | None => respond None
             | Some (_, user) =>
                 if negb (User.is_active user) || User.is_locked user
                 then respond None
                 else respond (Some user)
             end
         end)
        None
  end.

End Dependencies.

(** ** Calls that undo a lock or a deletion

    [unlock_user] for an account is the call that lifts a lock set by an
    administrator, and [update_user] with [is_active] set to true the call
    that brings a deleted account back. *)
Definition unlocks (user_id : uuid) (r : request) : bool :=
  match r with
  | UnlockUser id _ => bool_decide (id = user_id)
  | _ => false
  end.

Definition reactivates (user_id : uuid) (r : request) : bool :=
  match r with
  | UpdateUser id user_update _ =>
      bool_decide (id = user_id)
      && bool_decide (UserUpdate.is_active user_update = Some true)
  | _ => false
  end.

(** The store after an administrator locked Alice at time 1500. *)
Definition alice_locked_db : Db :=
  handle testing_settings 0 example_context (LockUser alice_id (Some root))
    1500 alice_db.

(** The store after an administrator deleted Alice at time 1500. *)
Definition alice_deleted_db : Db :=
  handle testing_settings 0 example_context (DeleteUser alice_id (Some root))
    1500 alice_db.

(** A [PermissionChecker] holds the user it was made for and nothing else,
    so it is identified with that user. *)
Definition get_permission_checker (current_user : User.t) : R User.t :=
  respond current_user.

(** ** Routes of [app/api/routes/users.py] that lock and delete accounts *)

Record MessageResponse : Type := { message : string }.

Module UsersRoutes.
Section UsersRoutes.
Context (settings : Settings) (tz_offset : Z).
Local Open Scope R_scope.

(** [DELETE /users/{user_id}].  [credentials] are the bearer credentials of
    the request; the framework resolves the dependencies before it runs the
    body. *)
Definition delete_user (user_id : string) (credentials : option token)
    (now : Z) : R MessageResponse :=
  authenticated <- get_current_user settings tz_offset credentials now ;;
  current_user <- get_current_admin_user authenticated ;;
  permission_checker <- get_permission_checker authenticated ;;
  user_uuid <- except_ValueError (call (lift (UUID (JStr user_id))))
                 (http_exception HTTP_400_BAD_REQUEST "Invalid user ID" None) ;;
  (* Get target user *)
  target_user <- call (get_user_by_id user_uuid) ;;
  match target_user with
  | None =>
      abort (http_exception HTTP_404_NOT_FOUND "User not found" None)
  | Some (_, target_user) =>
      (* Check if current user can manage this user *)
      if negb (can_manage_user permission_checker target_user)
      then abort (http_exception HTTP_403_FORBIDDEN
                    "Not enough permissions to delete this user" None)
      else
      (* Prevent self-deletion *)
      if bool_decide (User.id target_user = User.id current_user)
      then abort (http_exception HTTP_400_BAD_REQUEST
                    "Cannot delete your own account" None)
      else
      success <- call (delete_user user_uuid (Some current_user) now) ;;
      if negb success
      then abort (http_exception HTTP_404_NOT_FOUND "User not found" None)
      else respond {| message := "User deleted successfully" |}
  end.

(** [POST /users/{user_id}/lock]. *)
Definition lock_user (user_id : string) (credentials : option token)
    (now : Z) : R MessageResponse :=
  authenticated <- get_current_user settings tz_offset credentials now ;;
  current_user <- get_current_admin_user authenticated ;;
  permission_checker <- get_permission_checker authenticated ;;
  user_uuid <- except_ValueError (call (lift (UUID (JStr user_id))))
                 (http_exception HTTP_400_BAD_REQUEST "Invalid user ID" None) ;;
  (* Get target user *)
  target_user <- call (get_user_by_id user_uuid) ;;
  match target_user with
  | None =>
      abort (http_exception HTTP_404_NOT_FOUND "User not found" None)
  | Some (_, target_user) =>
      (* Check if current user can manage this user *)
      if negb (can_manage_user permission_checker target_user)
      then abort (http_exception HTTP_403_FORBIDDEN
                    "Not enough permissions to lock this user" None)
      else
      (* Prevent self-locking *)
      if bool_decide (User.id target_user = User.id current_user)
      then abort (http_exception HTTP_400_BAD_REQUEST
                    "Cannot lock your own account" None)
      else
      success <- call (lock_user user_uuid (Some current_user) now) ;;
      if negb success
      then abort (http_exception HTTP_404_NOT_FOUND "User not found" None)
      else respond {| message := "User locked successfully" |}
  end.

End UsersRoutes.
End UsersRoutes.

(** What the checks of those routes let through, said of the result of a
    route that guards the service method [service] and answers [done]: it
    responds only when the bearer is an admin, the target is a stored
    account other than the bearer and no superadmin (a regular user, when
    the bearer is no superadmin), and the service method returned [True];
    otherwise the store is left as it was. *)
Definition guarded_call (settings : Settings) (tz_offset : Z)
    (service : uuid -> option User.t -> Z -> M bool) (done : string)
    (user_id : string) (credentials : option token) (now : Z) (db : Db)
    (result : response MessageResponse * Db) : Prop :=
  match result with
  | (Respond m, db') =>
      m = {| message := done |} /\
      exists (caller target : User.t) (i : nat),
        get_current_user settings tz_offset credentials now db
          = (Respond caller, db) /\
        is_admin caller = true /\
        UUID (JStr user_id) = Return (User.id target) /\
        first (fun u => User.id u = User.id target) (users db) = Some (i, target) /\
        User.id target <> User.id caller /\
        User.role target <> SUPERADMIN /\
        (is_superadmin caller = false -> User.role target = USER) /\
        service (User.id target) (Some caller) now db = (Return true, db')
  | (_, db') => db' = db
  end.

(** ** Read queries of the services

    [ORDER BY ... DESC] leaves the order of rows with equal keys to the
    database, so the ordering is a parameter [order_by_desc] of the
    queries: some arrangement of the rows in descending order of the
    key.  [OFFSET] and [LIMIT] are taken for a page from 1 on and a size
    from 0 on, which is what the routes pass. *)

(** Rows in descending order of a key. *)
Fixpoint descending {A : Type} (key : A -> Z) (rows : list A) : Prop :=
  match rows with
  | [] => True
  | x :: rest => Forall (fun y => key y <= key x) rest /\ descending key rest
  end.

(** What is asked of the database's ordering. *)
Definition orders_descending
    (order_by_desc : forall A : Type, (A -> Z) -> list A -> list A) : Prop :=
  forall (A : Type) (key : A -> Z) (rows : list A),
    order_by_desc A key rows ≡ₚ rows /\
    descending key (order_by_desc A key rows).

Record UserStats : Type := {
  total_users : Z;
  active_users : Z;
  verified_users : Z;
  locked_users : Z;
  users_by_role : gmap string Z;
  recent_registrations : Z;
  recent_logins : Z
}.

Section Queries.
Context (order_by_desc : forall A : Type, (A -> Z) -> list A -> list A).

(** [AuthService.get_user_sessions]. *)
Definition get_user_sessions (user_id : uuid) : M (list UserSession.t) :=
  db <- get ;;
  ret (order_by_desc _ UserSession.last_used_at
         (filter (fun s => UserSession.user_id s = user_id /\
                           UserSession.is_active s = true)
            (user_sessions db))).

(** [UserService.get_audit_logs].  A filter that is [None] or the empty
    string is not applied; a [uuid.UUID] is always true. *)
Definition get_audit_logs (user_id : option uuid) (action resource : option string)
    (page size : Z) : M (list AuditLog.t * Z) :=
  db <- get ;;
  let query := audit_logs db in
  let query :=
    match user_id with
    | Some user_id => filter (fun a => AuditLog.user_id a = Some user_id) query
    | None => query
    end in
  let query :=
    match action with
    | Some action =>
        if negb (String.eqb action "")
        then filter (fun a => AuditLog.action a = action) query
        else query
    | None => query
    end in
  let query :=
    match resource with
    | Some resource =>
        if negb (String.eqb resource "")
        then filter (fun a => AuditLog.resource a = Some resource) query
        else query
    | None => query
    end in
  let total := Z.of_nat (length query) in
  (* Apply pagination and ordering *)
  let offset := (page - 1) * size in
  let audit_logs :=
    take (Z.to_nat size)
      (drop (Z.to_nat offset) (order_by_desc _ AuditLog.created_at query)) in
  ret (audit_logs, total).

End Queries.

(** [UserService.get_user_stats].  The [GROUP BY] gives one count for each
    role that some user has. *)
Definition get_user_stats (now : Z) : M UserStats :=
  db <- get ;;
  let count (P : User.t -> bool) : Z :=
    Z.of_nat (length (filter (fun u => P u = true) (users db))) in
  let total_users := Z.of_nat (length (users db)) in
  let active_users := count User.is_active in
  let verified_users := count User.is_verified in
  let locked_users := count User.is_locked in
  (* Users by role *)
  let role_counts : list (string * Z) :=
    omap (fun role =>
            let n := count (fun u => bool_decide (User.role u = role)) in
            if 0 <? n then Some (role_value role, n) else None)
         [SUPERADMIN; ADMIN1; ADMIN2; ADMIN3; USER] in
  let users_by_role : gmap string Z := list_to_map role_counts in
  (* Recent registrations (last 30 days) *)
  let thirty_days_ago := now - days 30 in
  let recent_registrations :=
    count (fun u => thirty_days_ago <=? User.created_at u) in
  (* Recent logins (last 30 days) *)
  let recent_logins :=
    count (fun u => match User.last_login u with
                    | Some last_login => thirty_days_ago <=? last_login
                    | None => false
                    end) in
  ret {| total_users := total_users;
         active_users := active_users;
         verified_users := verified_users;
         locked_users := locked_users;
         users_by_role := users_by_role;
         recent_registrations := recent_registrations;
         recent_logins := recent_logins |}.

(** The pagination block of the routes [list_users] and
    [get_user_audit_logs] ([app/api/routes/users.py]). *)
Record PageInfo : Type := { pages : Z; has_next : bool; has_prev : bool }.

Definition page_info (total page size : Z) : PageInfo :=
  let pages := (total + size - 1) `div` size in
  let has_next := page <? pages in
  let has_prev := 1 <? page in
  {| pages := pages; has_next := has_next; has_prev := has_prev |}.

(** An ordering for the examples: insertion sort, which keeps rows with
    equal keys in the order of the table. *)
Fixpoint insert_desc {A : Type} (key : A -> Z) (x : A) (rows : list A) : list A :=
  match rows with
  | [] => [x]
  | y :: rest =>
      if key y <? key x then x :: y :: rest
      else y :: insert_desc key x rest
  end.

Definition example_order (A : Type) (key : A -> Z) (rows : list A) : list A :=
  foldr (insert_desc key) [] rows.

(** Five wrong passwords in a row at times 1001 to 1005 lock Alice out
    until time 2805; the store after them, and her row in it. *)
Definition alice_wrong_logins : list (request * Z) :=
  (fun now => (AuthenticateUser alice_typo None None, now))
    <$> [1001; 1002; 1003; 1004; 1005].

Definition alice_locked_out_db : Db :=
  handle_all testing_settings 0 example_context alice_wrong_logins alice_db.

Definition alice_locked_out : User.t :=
  User.set_locked_until (Some 2805)
    (User.set_is_locked true (User.set_failed_login_attempts 5 alice)).

(** A temporary lock is the result of failed logins: an account with a
    lock time has at least [MAX_LOGIN_ATTEMPTS] failed logins on its
    counter. *)
Definition lockout_counted (settings : Settings) (u : User.t) : Prop :=
  forall locked_until,
    User.locked_until u = Some locked_until ->
    MAX_LOGIN_ATTEMPTS settings <= User.failed_login_attempts u.
(** * Properties *)

(** ** Payload lookups *)

Lemma update_claims_union (d : claims) (o : option claims) :
  update_claims d o = extras_of o ∪ d.
Proof.
  destruct o as [e|]; simpl.
  - case_decide as He; [subst e|]; [by rewrite (left_id_L ∅ (∪))|done].
  - by rewrite (left_id_L ∅ (∪)).
Qed.

Lemma update_claims_lookup (d : claims) (o : option claims) (c : string) :
  update_claims d o !! c =
  match extras_of o !! c with Some v => Some v | None => d !! c end.
Proof.
  rewrite update_claims_union, lookup_union.
  destruct (extras_of o !! c), (d !! c); reflexivity.
Qed.

Ltac map_lookup :=
  repeat first
    [ rewrite lookup_insert_eq
    | rewrite lookup_insert_ne by discriminate
    | rewrite lookup_empty ].

(** The payload a creation function signs, read claim by claim: an extra
    claim of the access creator wins over the claim the creator sets. *)
Lemma create_token_payload settings k subject expires_delta additional_claims jti now :
  exists p,
    create_token settings k subject expires_delta additional_claims jti now
      = JWS p (SECRET_KEY settings) /\
    (extras_of additional_claims !! "type" = None ->
       p !! "type" = Some (JStr (kind_name k))) /\
    (extras_of additional_claims !! "sub" = None ->
       p !! "sub" = Some (JStr subject)) /\
    (extras_of additional_claims !! "iat" = None ->
       p !! "iat" = Some (JInt now)) /\
    (extras_of additional_claims !! "exp" = None ->
       exists e, p !! "exp" = Some (JInt e)) /\
    (extras_of additional_claims !! "nbf" = None -> p !! "nbf" = None) /\
    (extras_of additional_claims !! "aud" = None -> p !! "aud" = None) /\
    (k = Access -> forall c v,
       extras_of additional_claims !! c = Some v -> p !! c = Some v).
Proof.
  destruct k; simpl;
    unfold create_access_token, create_refresh_token,
      generate_password_reset_token, generate_email_verification_token,
      jwt_encode;
    eexists; (split; [reflexivity|]);
    repeat split; try discriminate; intros;
    rewrite ?update_claims_lookup;
    repeat match goal with H : _ !! _ = _ |- _ => rewrite H end;
    map_lookup; eauto.
Qed.

(** ** Claim validation of the token library *)

Lemma claim_int_JInt n : claim_int (JInt n) = Return n.
Proof. reflexivity. Qed.

Lemma validate_claims_fresh now p i e :
  p !! "iat" = Some (JInt i) -> i <= now ->
  p !! "nbf" = None ->
  p !! "exp" = Some (JInt e) -> now < e ->
  p !! "aud" = None ->
  validate_claims now p = Return tt.
Proof.
  intros Hi Hle Hn He Hlt Ha.
  unfold validate_claims, validate_iat, validate_nbf, validate_exp, validate_aud.
  rewrite Hi, Hn, He, Ha. simpl.
  destruct (now <? i) eqn:E1; [apply Z.ltb_lt in E1; lia|]. simpl.
  destruct (e <=? now) eqn:E2; [apply Z.leb_le in E2; lia|]. reflexivity.
Qed.

(** With integer time claims the library either accepts or raises one of
    its own errors. *)
Lemma validate_claims_int_times now p i e :
  p !! "iat" = Some (JInt i) ->
  p !! "nbf" = None ->
  p !! "exp" = Some (JInt e) ->
  validate_claims now p = Return tt \/ validate_claims now p = Raise PyJWTError.
Proof.
  intros Hi Hn He.
  unfold validate_claims, validate_iat, validate_nbf, validate_exp, validate_aud.
  rewrite Hi, Hn, He. simpl.
  destruct (now <? i); simpl; [by right|].
  destruct (e <=? now); simpl; [by right|].
  destruct (truthy_opt _); [by right | by left].
Qed.

Lemma verify_token_wrong_type settings tz_offset p key ty ty' now payload :
  p !! "type" = Some (JStr ty') -> ty' <> ty ->
  verify_token settings tz_offset (JWS p key) ty now <> Return (Some payload).
Proof.
  intros Hty Hne. unfold verify_token, jwt_decode.
  case_decide as Hk; [|discriminate].
  destruct (validate_claims now p) as [[]|e]; simpl.
  - rewrite decide_True by (rewrite Hty; congruence). discriminate.
  - destruct e; discriminate.
Qed.

Lemma kind_name_inj k1 k2 : kind_name k1 = kind_name k2 -> k1 = k2.
Proof. destruct k1, k2; simpl; congruence. Qed.

(** ** Tokens presented under another kind *)

(** C3, in the form that holds of the code.  A token made by the creation function of kind [k1],
    with extra claims that leave [type] alone, never yields claims when it
    is verified under a different kind [k2]; when the extra claims also
    leave the time claims [exp], [iat] and [nbf] alone, [verify_token]
    returns [None], the one failure value the code has. *)
Theorem verify_token_kind_mismatch :
  forall (settings : Settings) (tz_offset : Z) (k1 k2 : token_kind)
         (subject : string) (expires_delta : option Z)
         (additional_claims : option claims) (jti : string) (created now : Z),
    k1 <> k2 ->
    extras_of additional_claims !! "type" = None ->
    let r := verify_token settings tz_offset
               (create_token settings k1 subject expires_delta
                  additional_claims jti created)
               (kind_name k2) now in
    (forall payload, r <> Return (Some payload)) /\
    (extras_of additional_claims !! "exp" = None ->
     extras_of additional_claims !! "iat" = None ->
     extras_of additional_claims !! "nbf" = None ->
     r = Return None).
Proof.
  intros settings tz_offset k1 k2 subject expires_delta additional_claims
    jti created now Hk Hty r. subst r.
  destruct (create_token_payload settings k1 subject expires_delta
              additional_claims jti created)
    as (p & -> & Htype & _ & Hiat & Hexp & Hnbf & _).
  specialize (Htype Hty).
  assert (Hne : kind_name k1 <> kind_name k2)
    by (intros E; apply Hk, kind_name_inj, E).
  split.
  - intros payload. by eapply verify_token_wrong_type.
  - intros He Hi Hn.
    destruct (Hexp He) as [e Hpe].
    unfold verify_token, jwt_decode. rewrite decide_True by reflexivity.
    destruct (validate_claims_int_times now p created e (Hiat Hi) (Hnbf Hn) Hpe)
      as [-> | ->]; simpl; [|reflexivity].
    rewrite decide_True by (rewrite Htype; congruence). reflexivity.
Qed.

Lemma verify_token_kind_mismatch_witness :
  Access <> Refresh /\
  extras_of (Some {[ "role" := JStr "user" ]}) !! "type" = None /\
  verify_token testing_settings 0
    (create_token testing_settings Access "7" None
       (Some {[ "role" := JStr "user" ]}) "" 1000)
    (kind_name Refresh) 1100 = Return None.
Proof.
  split; [discriminate|]. split; [reflexivity|].
  apply (verify_token_kind_mismatch testing_settings 0 Access Refresh "7" None
           (Some {[ "role" := JStr "user" ]}) "" 1000 1100);
    [discriminate | reflexivity | reflexivity | reflexivity | reflexivity].
Defined.

(** An access token whose extra claims carry [type = "refresh"] verifies as
    a refresh token. *)
Lemma verify_token_kind_mismatch_counterexample :
  Access <> Refresh /\
  exists payload,
    verify_token testing_settings 0
      (create_token testing_settings Access "7" None
         (Some {[ "type" := JStr "refresh" ]}) "" 1000)
      (kind_name Refresh) 1100 = Return (Some payload).
Proof.
  split; [discriminate|]. eexists. vm_compute. reflexivity.
Qed.

(** ** Round trip *)

(** C4, in the form that holds of the code.  A token made by the creation function of kind [k],
    with extra claims that use no reserved claim name, verified under [k]
    at a time from its creation on, strictly before its [exp] and not after
    [exp] read as local time, yields a payload with the subject as [sub]
    and, for the access creator, every extra claim unchanged. *)
Theorem create_verify_round_trip :
  forall (settings : Settings) (tz_offset : Z) (k : token_kind)
         (subject : string) (expires_delta : option Z)
         (additional_claims : option claims) (jti : string)
         (created now expiry : Z),
    avoids_reserved (extras_of additional_claims) ->
    token_exp (create_token settings k subject expires_delta
                 additional_claims jti created) = Some expiry ->
    created <= now < expiry ->
    now <= expiry + tz_offset ->
    in_datetime_range (expiry + tz_offset) = true ->
    exists payload,
      verify_token settings tz_offset
        (create_token settings k subject expires_delta
           additional_claims jti created)
        (kind_name k) now = Return (Some payload) /\
      payload !! "sub" = Some (JStr subject) /\
      (k = Access -> forall c v,
         extras_of additional_claims !! c = Some v -> payload !! c = Some v).
Proof.
  intros settings tz_offset k subject expires_delta additional_claims jti
    created now expiry Hav Hexp [Hc He] Htz Hrange.
  unfold avoids_reserved, reserved_claims in Hav.
  repeat match goal with
         | H : Forall _ (_ :: _) |- _ => apply Forall_cons_1 in H as [? H]
         end.
  destruct (create_token_payload settings k subject expires_delta
              additional_claims jti created)
    as (p & Hp & Htype & Hsub & Hiat & Hex & Hnbf & Haud & Hextra).
  rewrite Hp in Hexp |- *. simpl in Hexp.
  destruct (Hex ltac:(assumption)) as [e Hpe]. rewrite Hpe in Hexp.
  injection Hexp as ->.
  exists p. split; [|split]; [| by apply Hsub | exact Hextra].
  unfold verify_token, jwt_decode. rewrite decide_True by reflexivity.
  rewrite (validate_claims_fresh now p created expiry) by auto. simpl.
  rewrite decide_False by (rewrite Htype by assumption; auto).
  rewrite Hpe. simpl. rewrite Hrange. simpl.
  destruct (expiry + tz_offset <? now) eqn:E; [apply Z.ltb_lt in E; lia|].
  reflexivity.
Qed.

Lemma create_verify_round_trip_witness :
  exists payload,
    verify_token testing_settings 0
      (create_token testing_settings Access "7" None
         (Some {[ "role" := JStr "user" ]}) "" 1000)
      (kind_name Access) 1100 = Return (Some payload) /\
    payload !! "sub" = Some (JStr "7") /\
    (Access = Access -> forall c v,
       extras_of (Some {[ "role" := JStr "user" ]}) !! c = Some v ->
       payload !! c = Some v).
Proof.
  apply (create_verify_round_trip testing_settings 0 Access "7" None
           (Some {[ "role" := JStr "user" ]}) "" 1000 1100 1300).
  - unfold avoids_reserved, reserved_claims. repeat constructor.
  - reflexivity.
  - lia.
  - lia.
  - reflexivity.
Defined.

(** Extra claims that carry [sub] replace the subject: the round trip does
    not return the original one. *)
Lemma create_verify_round_trip_counterexample :
  exists payload,
    verify_token testing_settings 0
      (create_access_token testing_settings "7" None
         (Some {[ "sub" := JStr "8" ]}) 1000)
      "access" 1100 = Return (Some payload) /\
    payload !! "sub" <> Some (JStr "7").
Proof.
  eexists. split; [vm_compute; reflexivity|]. vm_compute. discriminate.
Qed.

(** On a host five hours behind UTC a five-minute access token is refused
    one second after it was made: [datetime.fromtimestamp] gives the expiry
    in local time, which [verify_token] compares with UTC. *)
Example verify_token_behind_utc :
  verify_token testing_settings (- hours 5)
    (create_access_token testing_settings "7" None None 1700000000)
    "access" 1700000001 = Return None.
Proof. vm_compute. reflexivity. Qed.

(** ** Exceptions that leave [verify_token] *)

(** C5, the code at the failing input.  An access token signed by this
    service whose [exp] claim lies beyond the [datetime] range passes the
    library check and makes [datetime.fromtimestamp] raise; [verify_token]
    catches only the library's errors, so the exception leaves it. *)
Theorem verify_token_raises_out_of_range_exp :
  forall (settings : Settings) (tz_offset : Z) (subject : string)
         (expires_delta : option Z) (created now : Z),
    -86400 <= tz_offset ->
    created <= now < 10 ^ 18 ->
    verify_token settings tz_offset
      (create_access_token settings subject expires_delta
         (Some {[ "exp" := JInt (10 ^ 18) ]}) created)
      "access" now = Raise OverflowError.
Proof.
  intros settings tz_offset subject expires_delta created now Htz Hnow.
  destruct (create_token_payload settings Access subject expires_delta
              (Some {[ "exp" := JInt (10 ^ 18) ]}) "" created)
    as (p & Hp & Htype & _ & Hiat & _ & Hnbf & Haud & Hextra).
  simpl in Hp. rewrite Hp.
  specialize (Htype eq_refl). specialize (Hiat eq_refl).
  specialize (Hnbf eq_refl). specialize (Haud eq_refl).
  pose proof (Hextra eq_refl "exp" (JInt (10 ^ 18)) eq_refl) as Hexp.
  unfold verify_token, jwt_decode. rewrite decide_True by reflexivity.
  rewrite (validate_claims_fresh now p created (10 ^ 18)) by (auto; lia).
  simpl. rewrite decide_False by (rewrite Htype; auto).
  rewrite Hexp. simpl. unfold in_datetime_range.
  destruct (10 ^ 18 + tz_offset <=? datetime_max) eqn:E2.
  - apply Z.leb_le in E2. unfold datetime_max in E2. lia.
  - rewrite andb_false_r. reflexivity.
Qed.

Lemma verify_token_raises_out_of_range_exp_witness :
  verify_token testing_settings 0
    (create_access_token testing_settings "7" None
       (Some {[ "exp" := JInt (10 ^ 18) ]}) 1000)
    "access" 1100 = Raise OverflowError.
Proof.
  apply (verify_token_raises_out_of_range_exp testing_settings 0 "7" None
           1000 1100); lia.
Defined.

(** ** Password policy *)

Lemma violation_inj settings : Inj (=) (=) (violation settings).
Proof.
  intros r1 r2. destruct r1, r2; simpl; intros E;
    first [reflexivity | discriminate E].
Qed.

Lemma validate_password_strength_errors settings password :
  errors (validate_password_strength settings password)
  = violation settings
      <$> filter (fun r => violated settings password r = true) all_rules.
Proof.
  unfold validate_password_strength, all_rules, violated.
  rewrite !filter_cons, filter_nil. cbn [configured satisfies errors andb].
  rewrite (Z.ltb_antisym (PASSWORD_MIN_LENGTH settings)).
  destruct (negb (PASSWORD_MIN_LENGTH settings <=? len password));
  destruct (PASSWORD_REQUIRE_UPPERCASE settings && negb (any_char isupper password));
  destruct (PASSWORD_REQUIRE_LOWERCASE settings && negb (any_char islower password));
  destruct (PASSWORD_REQUIRE_NUMBERS settings && negb (any_char isdigit password));
  destruct (PASSWORD_REQUIRE_SPECIAL settings
            && negb (any_char (char_in special_characters) password));
  reflexivity.
Qed.

Lemma occurrences_of_violation settings (rules : list rule) (r : rule) :
  NoDup rules ->
  length (filter (fun e => e = violation settings r) (violation settings <$> rules))
  = if bool_decide (r ∈ rules) then 1%nat else 0%nat.
Proof.
  induction 1 as [|r' rules Hnotin Hnd IH]; [reflexivity|].
  rewrite fmap_cons. destruct (decide (r' = r)) as [->|Hne].
  - rewrite filter_cons_True by reflexivity. simpl. rewrite IH.
    rewrite bool_decide_eq_false_2 by assumption.
    rewrite bool_decide_eq_true_2 by apply list_elem_of_here. reflexivity.
  - rewrite filter_cons_False
      by (intros E; apply Hne; eapply violation_inj; exact E).
    rewrite IH. destruct (decide (r ∈ rules)).
    + rewrite !bool_decide_eq_true_2; auto using list_elem_of_further.
    + rewrite !bool_decide_eq_false_2; auto.
      rewrite elem_of_cons. intros [?|?]; congruence.
Qed.

(** ** Running service calls *)

Ltac unfold_M :=
  unfold exec, bind, ret, raise, lift, get, modify, commit in *.

Lemma reset_password_weak_password settings pwd_context reset_token new_password
    ip_address user_agent salt now db :
  is_valid (validate_password_strength settings new_password) = false ->
  exists r,
    reset_password settings pwd_context reset_token new_password
      ip_address user_agent salt now db = (r, db) /\ rejected r.
Proof.
  intros Hweak. unfold reset_password, get_user_by_claimed_email,
    get_user_by_email. unfold_M. rewrite Hweak. simpl. unfold rejected.
  repeat case_match; simplify_eq; eauto.
Qed.



(** ** Logout *)

Lemma update_where_none {A} (P : A -> bool) (f : A -> A) (rows : list A) :
  (forall r, r ∈ rows -> P r = false) -> update_where P f rows = rows.
Proof.
  intros H. unfold update_where. induction rows as [|r rows IH]; [reflexivity|].
  rewrite fmap_cons, (H r) by apply list_elem_of_here.
  f_equal. apply IH. intros r' Hr'. apply H. by apply list_elem_of_further.
Qed.

Lemma update_where_elem {A} (P : A -> bool) (f : A -> A) (rows : list A) r' :
  r' ∈ update_where P f rows ->
  exists r, r ∈ rows /\ r' = if P r then f r else r.
Proof.
  unfold update_where. intros (r & -> & Hr)%list_elem_of_fmap. eauto.
Qed.



(** ** Password reset requests *)

(** C8, the code at the failing input.  A second reset request for the
    same active account at the same second signs the same token, which the
    unique constraint of [password_resets.token] refuses: the call raises
    instead of returning [True]. *)
Theorem request_password_reset_repeat_raises :
  forall (settings : Settings) (request : PasswordResetSchema.t)
         (ip_address user_agent ip_address' user_agent' : option string)
         (now : Z) (db : Db),
    (exists i user,
       first (fun u => User.email u = lower (PasswordResetSchema.email request))
             (users db) = Some (i, user) /\
       User.is_active user = true) ->
    fst (request_password_reset settings request ip_address user_agent now db)
      = Return true ->
    fst (request_password_reset settings request ip_address' user_agent' now
           (exec (request_password_reset settings request
                    ip_address user_agent now) db))
      = Raise IntegrityError.
Proof.
  intros settings request ip_address user_agent ip_address' user_agent' now db
    (i & user & Hfind & Hact) Hok.
  revert Hok.
  unfold request_password_reset, get_user_by_email, add_password_reset,
    log_audit_action, add_audit_log. unfold_M.
  rewrite Hfind, Hact. simpl.
  case_bool_decide as Hdup; simpl; [discriminate|]. intros _.
  rewrite Hfind, Hact. simpl.
  rewrite bool_decide_eq_true_2; [reflexivity|].
  apply Exists_app. right. apply Exists_cons. left. reflexivity.
Qed.

Lemma request_password_reset_repeat_raises_witness :
  fst (request_password_reset testing_settings (PasswordResetSchema.mk "a@x.com")
         None None 2000
         (exec (request_password_reset testing_settings
                  (PasswordResetSchema.mk "a@x.com") None None 2000) alice_db))
    = Raise IntegrityError.
Proof.
  apply (request_password_reset_repeat_raises testing_settings
           (PasswordResetSchema.mk "a@x.com") None None None None 2000 alice_db).
  - eexists _, _. split; vm_compute; reflexivity.
  - vm_compute. reflexivity.
Defined.

(** ** Rows and tables *)

Lemma first_Some_lookup {A} (P : A -> Prop) `{!forall x, Decision (P x)}
    (rows : list A) i r :
  first P rows = Some (i, r) -> rows !! i = Some r /\ P r.
Proof. unfold first. rewrite list_find_Some. tauto. Qed.

Lemma first_insert_same {A} (P : A -> Prop) `{!forall x, Decision (P x)}
    (rows : list A) i r r' :
  first P rows = Some (i, r) -> P r' ->
  first P (<[i := r']> rows) = Some (i, r').
Proof.
  unfold first. intros (Hi & _ & Hleast)%list_find_Some HP.
  apply list_find_insert_Some. right. left.
  split_and!; eauto using lookup_lt_Some.
Qed.

Lemma Forall2_step_insert {A} (R : A -> A -> Prop) (rows : list A) i r r' :
  (forall x, R x x) -> rows !! i = Some r -> R r r' ->
  Forall2 R rows (<[i := r']> rows).
Proof.
  intros Hrefl. revert i. induction rows as [|x rows IH]; intros [|i] Hi HR;
    simplify_eq/=.
  - constructor; [assumption|]. by apply Forall_Forall2_diag, Forall_true.
  - constructor; [apply Hrefl | by apply IH].
Qed.

Lemma Forall2_step_update_where {A} (R : A -> A -> Prop) P f (rows : list A) :
  (forall x, R x x) -> (forall x, R x (f x)) ->
  Forall2 R rows (update_where P f rows).
Proof.
  intros Hrefl Hf. unfold update_where. apply Forall2_fmap_r.
  apply Forall_Forall2_diag, Forall_true. intros x. simpl.
  destruct (P x); [apply Hf | apply Hrefl].
Qed.

Lemma user_step_refl u : user_step u u.
Proof. unfold user_step. tauto. Qed.

Lemma session_step_refl s : session_step s s.
Proof. unfold session_step. tauto. Qed.

Lemma table_step_same {A} (step : A -> A -> Prop) new (rows : list A) :
  (forall x, step x x) -> table_step step new rows rows.
Proof.
  intros Hrefl. exists rows. split; [|by left].
  by apply Forall_Forall2_diag, Forall_true.
Qed.

Lemma table_step_insert {A} (step : A -> A -> Prop) new (rows : list A) i r r' :
  (forall x, step x x) -> rows !! i = Some r -> step r r' ->
  table_step step new rows (<[i := r']> rows).
Proof.
  intros. exists (<[i := r']> rows). split; [|by left].
  by eapply Forall2_step_insert.
Qed.

Lemma table_step_update_where {A} (step : A -> A -> Prop) new P f (rows : list A) :
  (forall x, step x x) -> (forall x, step x (f x)) ->
  table_step step new rows (update_where P f rows).
Proof.
  intros. exists (update_where P f rows). split; [|by left].
  by apply Forall2_step_update_where.
Qed.

Lemma table_step_add {A} (step : A -> A -> Prop) (new : list A -> A -> Prop)
    (rows : list A) r :
  (forall x, step x x) -> new rows r -> table_step step new rows (rows ++ [r]).
Proof.
  intros Hrefl Hnew. exists rows. split; [|right; eauto].
  by apply Forall_Forall2_diag, Forall_true.
Qed.

(** ** What a call does to the tables *)

Ltac unfold_services :=
  unfold create_user, update_user, update_user_profile, change_password,
    delete_user, lock_user, unlock_user, mark_verified, authenticate_user,
    create_user_session, refresh_access_token, logout_user,
    request_password_reset, reset_password, revoke_session,
    cleanup_expired_sessions, get_user_by_claimed_email, get_user_by_email,
    get_user_by_id, log_audit_action, add_user, add_user_session,
    add_password_reset, add_audit_log, set_user, set_user_session,
    set_password_reset, invalidate_user_sessions in *.

Ltac split_cases :=
  repeat first
    [ progress simplify_eq/=
    | progress unfold_M
    | match goal with
      | H : context [if ?b then _ else _] |- _ => destruct b eqn:?
      end
    | case_match ].

Ltac found_row :=
  match goal with
  | H : first _ _ = Some (_, _) |- _ => apply first_Some_lookup in H as [? ?]
  end.

(** Every call takes each stored user one [user_step] on and adds at most
    one fresh user. *)
Lemma handle_users_step settings tz_offset pwd_context r now db :
  table_step user_step (fun _ u => fresh_user u)
    (users db) (users (handle settings tz_offset pwd_context r now db)).
Proof.
  destruct r; simpl; unfold_services; unfold_M; simpl.
  all: split_cases.
  all: try (apply table_step_same; apply user_step_refl).
  all: try (apply table_step_add; [apply user_step_refl | by repeat split]).
  all: repeat found_row.
  all: try (eapply table_step_insert; [apply user_step_refl | eassumption |];
            unfold user_step, lock_consistent, set_if; simpl;
            repeat case_match; simpl; split_and!; intros; try congruence; try lia; auto).
Qed.

Lemma handle_sessions_step settings tz_offset pwd_context r now db :
  table_step session_step new_session
    (user_sessions db)
    (user_sessions (handle settings tz_offset pwd_context r now db)).
Proof.
  destruct r; simpl; unfold_services; unfold_M; simpl.
  all: split_cases.
  all: try (apply table_step_same; apply session_step_refl).
  all: try (apply table_step_update_where;
            [apply session_step_refl | intros x; by repeat split]).
  all: repeat found_row.
  all: try (eapply table_step_insert; [apply session_step_refl | eassumption |];
            by repeat split).
  all: apply table_step_add; [apply session_step_refl|];
    unfold new_session; apply bool_decide_eq_false in Heqb;
    intros (s & E & Hs)%list_elem_of_fmap; apply Heqb, Exists_exists;
    exists s; split; [assumption | right; simpl in E; congruence].
Qed.

(** ** Store invariants *)

Lemma Forall2_step_Forall {A} (step : A -> A -> Prop) (P : A -> Prop) rows kept :
  (forall x y, step x y -> P x -> P y) ->
  Forall2 step rows kept -> Forall P rows -> Forall P kept.
Proof.
  intros Hstep. induction 1 as [|x y l k Hxy _ IH]; [constructor|].
  intros [Hx Hl]%Forall_cons_1. constructor; eauto.
Qed.

Lemma table_step_Forall {A} (step : A -> A -> Prop) new (P : A -> Prop) rows rows' :
  table_step step new rows rows' ->
  (forall x y, step x y -> P x -> P y) ->
  (forall r, new rows r -> P r) ->
  Forall P rows -> Forall P rows'.
Proof.
  intros (kept & Hkept & Hrows') Hstep Hnew HP.
  pose proof (Forall2_step_Forall _ _ _ _ Hstep Hkept HP) as HPk.
  destruct Hrows' as [-> | (r & -> & Hr)]; [assumption|].
  apply Forall_app. split; [assumption|]. constructor; [eauto | constructor].
Qed.

Lemma table_step_lookup {A} (step : A -> A -> Prop) new rows rows' i r :
  table_step step new rows rows' -> rows !! i = Some r ->
  exists r', rows' !! i = Some r' /\ step r r'.
Proof.
  intros (kept & Hkept & Hrows') Hi.
  destruct (Forall2_lookup_l _ _ _ _ _ Hkept Hi) as (r' & Hi' & Hs).
  exists r'. split; [|assumption].
  destruct Hrows' as [-> | (x & -> & _)]; [assumption|].
  by apply lookup_app_l_Some.
Qed.

Lemma session_steps_tokens rows kept :
  Forall2 session_step rows kept ->
  UserSession.refresh_token <$> kept = UserSession.refresh_token <$> rows.
Proof.
  induction 1 as [|s s' l k (_ & _ & Ht & _) _ IH]; [reflexivity|].
  rewrite !fmap_cons, Ht, IH. reflexivity.
Qed.

Lemma handle_locks_consistent settings tz_offset pwd_context r now db :
  locks_consistent db ->
  locks_consistent (handle settings tz_offset pwd_context r now db).
Proof.
  unfold locks_consistent.
  apply (table_step_Forall _ _ _ _ _
           (handle_users_step settings tz_offset pwd_context r now db)).
  - intros x y (_ & _ & _ & H & _). exact H.
  - intros u (_ & Hl & Hu) _. exact Hu.
Qed.

Lemma handle_counters_nonnegative settings tz_offset pwd_context r now db :
  counters_nonnegative db ->
  counters_nonnegative (handle settings tz_offset pwd_context r now db).
Proof.
  unfold counters_nonnegative.
  apply (table_step_Forall _ _ _ _ _
           (handle_users_step settings tz_offset pwd_context r now db)).
  - intros x y (_ & _ & H & _). exact H.
  - intros u (Hc & _). rewrite Hc. reflexivity.
Qed.

Lemma handle_refresh_tokens_unique settings tz_offset pwd_context r now db :
  refresh_tokens_unique db ->
  refresh_tokens_unique (handle settings tz_offset pwd_context r now db).
Proof.
  unfold refresh_tokens_unique. intros Hnd.
  destruct (handle_sessions_step settings tz_offset pwd_context r now db)
    as (kept & Hkept & Hrows').
  pose proof (session_steps_tokens _ _ Hkept) as Ht.
  destruct Hrows' as [-> | (s & -> & Hnew)]; [by rewrite Ht|].
  rewrite fmap_app, Ht. apply NoDup_app. split_and!; [assumption| |].
  - intros t Hin. simpl. rewrite list_elem_of_singleton. intros ->.
    by apply Hnew.
  - simpl. apply NoDup_singleton.
Qed.

Lemma reachable_invariants settings tz_offset pwd_context db :
  reachable settings tz_offset pwd_context db ->
  locks_consistent db /\ counters_nonnegative db /\ refresh_tokens_unique db.
Proof.
  induction 1 as [|db r now _ (Hl & Hc & Hu)].
  - split_and!; [constructor | constructor | constructor].
  - split_and!;
      auto using handle_locks_consistent, handle_counters_nonnegative,
                 handle_refresh_tokens_unique.
Qed.

(** ** Single calls *)

Lemma create_user_returns settings pwd_context user_create created_by new_id salt
    now db u db' :
  create_user settings pwd_context user_create created_by new_id salt now db
    = (Return u, db') ->
  fresh_user u /\ users db' = users db ++ [u].
Proof.
  unfold_services; unfold_M. intros H. split_cases. by repeat split.
Qed.

Lemma unlock_user_returns user_id unlocked_by now db b db' :
  unlock_user user_id unlocked_by now db = (Return b, db') ->
  if b then
    exists i u',
      first (fun u => User.id u = user_id) (users db') = Some (i, u') /\
      User.is_locked u' = false /\ User.locked_until u' = None /\
      User.failed_login_attempts u' = 0
  else first (fun u => User.id u = user_id) (users db) = None /\ db' = db.
Proof.
  unfold_services; unfold_M. intros H. split_cases; [|by split].
  eexists _, _. split.
  - simpl. eapply first_insert_same; [eassumption|].
    match goal with H : first _ _ = Some _ |- _ =>
      apply first_Some_lookup in H as [_ H]; exact H end.
  - by repeat split.
Qed.

Lemma authenticate_user_success settings pwd_context login_request
    ip_address user_agent now db u' e db' :
  authenticate_user settings pwd_context login_request ip_address user_agent
    now db = (Return (Some u', e), db') ->
  exists i u,
    first (fun u => User.email u = lower (LoginRequest.email login_request))
      (users db) = Some (i, u) /\
    first (fun u => User.email u = lower (LoginRequest.email login_request))
      (users db') = Some (i, u') /\
    e = None /\
    User.is_active u = true /\
    verify_password pwd_context (LoginRequest.password login_request)
      (User.password_hash u) = true /\
    locked_refusal u now = None /\
    User.failed_login_attempts u'
      = (if 0 <? User.failed_login_attempts u then 0
         else User.failed_login_attempts u) /\
    (User.is_locked u = true ->
     User.is_locked u' = false /\ User.locked_until u' = None).
Proof.
  unfold_services; unfold_M. intros H. split_cases.
  all: exists n, t; split; [reflexivity|].
  all: split; [simpl; eapply first_insert_same; [eassumption|];
               match goal with H : first _ _ = Some _ |- _ =>
                 apply first_Some_lookup in H as [_ H]; exact H end|].
  all: repeat match goal with
              | H : negb _ = false |- _ => apply negb_false_iff in H
              end.
  all: split_and!; try reflexivity; try assumption.
  all: try (simpl; by rewrite ?Heqb2).
  all: intros Hl; exfalso; revert H1 Heqb1; unfold locked_refusal;
    rewrite Hl; destruct (User.locked_until t) as [l|]; simpl; [|discriminate];
    destruct (now <? l) eqn:E; [discriminate|]; intros _;
    apply Z.ltb_ge in E; apply Z.leb_le in E; rewrite E; discriminate.
Qed.

(** ** The lock fields *)

(** C7.  Every call keeps the invariant that an unlocked account has no
    lock time, so it holds in every store the services can produce; no call
    gives a stored row a new non-null [locked_until] without leaving
    [is_locked] set; and a user just created, a user whose login succeeds
    while the row is locked (a temporary lock that ran out), and a user
    unlocked by [unlock_user] are unlocked with [locked_until = None]. *)
Theorem lock_state_invariant :
  forall (settings : Settings) (tz_offset : Z) (pwd_context : CryptContext),
    (forall r now db,
       locks_consistent db ->
       locks_consistent (handle settings tz_offset pwd_context r now db)) /\
    (forall db,
       reachable settings tz_offset pwd_context db -> locks_consistent db) /\
    (forall r now db i u,
       users db !! i = Some u ->
       exists u',
         users (handle settings tz_offset pwd_context r now db) !! i = Some u' /\
         (User.locked_until u' <> User.locked_until u ->
          User.locked_until u' <> None -> User.is_locked u' = true)) /\
    (forall user_create created_by new_id salt now db u db',
       create_user settings pwd_context user_create created_by new_id salt now db
         = (Return u, db') ->
       User.is_locked u = false /\ User.locked_until u = None /\
       users db' = users db ++ [u]) /\
    (forall login_request ip_address user_agent now db i u u' e db',
       first (fun u => User.email u = lower (LoginRequest.email login_request))
         (users db) = Some (i, u) ->
       User.is_locked u = true ->
       authenticate_user settings pwd_context login_request
         ip_address user_agent now db = (Return (Some u', e), db') ->
       User.is_locked u' = false /\ User.locked_until u' = None /\
       users db' !! i = Some u') /\
    (forall user_id unlocked_by now db db',
       unlock_user user_id unlocked_by now db = (Return true, db') ->
       exists i u',
         first (fun u => User.id u = user_id) (users db') = Some (i, u') /\
         User.is_locked u' = false /\ User.locked_until u' = None).
Proof.
  intros settings tz_offset pwd_context. split_and!.
  - intros r now db. apply handle_locks_consistent.
  - intros db Hr. by apply reachable_invariants in Hr as (? & _).
  - intros r now db i u Hi.
    destruct (table_step_lookup _ _ _ _ _ _
                (handle_users_step settings tz_offset pwd_context r now db) Hi)
      as (u' & Hi' & (_ & _ & _ & _ & Hlock)).
    eauto.
  - intros user_create created_by new_id salt now db u db' H.
    apply create_user_returns in H as ((_ & ? & ?) & ?). auto.
  - intros login_request ip_address user_agent now db i u u' e db' Hfind Hl H.
    apply authenticate_user_success in H
      as (i' & u0 & Hf0 & Hf' & _ & _ & _ & _ & _ & Hun).
    rewrite Hfind in Hf0. injection Hf0 as <- <-.
    destruct (Hun Hl) as [? ?]. split_and!; [assumption..|].
    by apply first_Some_lookup in Hf' as [? _].
  - intros user_id unlocked_by now db db' H.
    apply unlock_user_returns in H as (i & u' & ? & ? & ? & _). eauto.
Qed.

Lemma alice_db_reachable :
  reachable testing_settings 0 example_context alice_db.
Proof.
  exact (reachable_handle testing_settings 0 example_context empty_db
           (CreateUser alice_create None alice_id "s") 1000
           (reachable_empty _ _ _)).
Defined.

Lemma lock_state_invariant_witness : locks_consistent alice_db.
Proof.
  apply (lock_state_invariant testing_settings 0 example_context).
  exact alice_db_reachable.
Defined.

(** ** The failed-login counter *)

(** C6.  In every store the services can produce, a login that succeeds
    returns and stores the user with [failed_login_attempts = 0], whatever
    the counter was; and after [unlock_user] returned [True] the stored
    counter of that user is 0. *)
Theorem successful_login_resets_counter :
  forall (settings : Settings) (tz_offset : Z) (pwd_context : CryptContext)
         (db : Db),
    reachable settings tz_offset pwd_context db ->
    (forall login_request ip_address user_agent now u' e db',
       authenticate_user settings pwd_context login_request
         ip_address user_agent now db = (Return (Some u', e), db') ->
       User.failed_login_attempts u' = 0 /\
       exists i,
         first (fun u => User.email u = lower (LoginRequest.email login_request))
           (users db') = Some (i, u')) /\
    (forall user_id unlocked_by now db',
       unlock_user user_id unlocked_by now db = (Return true, db') ->
       exists i u',
         first (fun u => User.id u = user_id) (users db') = Some (i, u') /\
         User.failed_login_attempts u' = 0).
Proof.
  intros settings tz_offset pwd_context db Hreach.
  apply reachable_invariants in Hreach as (_ & Hnonneg & _). split.
  - intros login_request ip_address user_agent now u' e db' H.
    apply authenticate_user_success in H
      as (i & u & Hf & Hf' & _ & _ & _ & _ & Hc & _).
    split; [|eauto].
    apply first_Some_lookup in Hf as [Hi _].
    pose proof (Forall_lookup_1 _ _ _ _ Hnonneg Hi) as Hu. simpl in Hu.
    rewrite Hc. destruct (0 <? User.failed_login_attempts u) eqn:E; [reflexivity|].
    apply Z.ltb_ge in E. lia.
  - intros user_id unlocked_by now db' H.
    apply unlock_user_returns in H as (i & u' & ? & _ & _ & ?). eauto.
Qed.

Lemma alice_db_after_typo_reachable :
  reachable testing_settings 0 example_context alice_db_after_typo.
Proof.
  exact (reachable_handle testing_settings 0 example_context alice_db
           (AuthenticateUser alice_typo None None) 1001 alice_db_reachable).
Defined.

Lemma successful_login_resets_counter_witness :
  match fst (authenticate_user testing_settings example_context alice_login
               None None 1002 alice_db_after_typo) with
  | Return (Some u', _) => User.failed_login_attempts u' = 0
  | _ => False
  end.
Proof.
  pose proof (successful_login_resets_counter testing_settings 0 example_context
                alice_db_after_typo alice_db_after_typo_reachable) as [H _].
  specialize (H alice_login None None 1002).
  destruct (authenticate_user testing_settings example_context alice_login
              None None 1002 alice_db_after_typo) as [r db'] eqn:E.
  destruct r as [[[u'|] e]|ex]; simpl.
  - exact (proj1 (H u' e db' eq_refl)).
  - vm_compute in E. discriminate E.
  - vm_compute in E. discriminate E.
Defined.

(** ** Lockout *)

Lemma authenticate_user_wrong_password settings pwd_context login_request
    ip_address user_agent now db i u :
  first (fun u => User.email u = lower (LoginRequest.email login_request))
    (users db) = Some (i, u) ->
  locked_refusal u now = None ->
  User.is_active u = true ->
  verify_password pwd_context (LoginRequest.password login_request)
    (User.password_hash u) = false ->
  exists u' db',
    authenticate_user settings pwd_context login_request ip_address user_agent
      now db = (Return (None, Some "Invalid email or password"), db') /\
    first (fun u => User.email u = lower (LoginRequest.email login_request))
      (users db') = Some (i, u') /\
    User.password_hash u' = User.password_hash u /\
    User.is_active u' = true /\
    User.failed_login_attempts u' = User.failed_login_attempts u + 1 /\
    (if MAX_LOGIN_ATTEMPTS settings <=? User.failed_login_attempts u + 1
     then User.is_locked u' = true /\
          User.locked_until u'
            = Some (now + minutes (LOCKOUT_DURATION_MINUTES settings))
     else User.is_locked u' = User.is_locked u /\
          User.locked_until u' = User.locked_until u).
Proof.
  intros Hfind Hfree Hact Hpw.
  pose proof (first_Some_lookup _ _ _ _ Hfind) as [_ Hemail].
  unfold authenticate_user, get_user_by_email, log_audit_action, add_audit_log,
    set_user. unfold_M.
  rewrite Hfind, Hfree, Hact, Hpw. simpl.
  destruct (MAX_LOGIN_ATTEMPTS settings <=? User.failed_login_attempts u + 1);
    simpl; eexists _, _; (split; [reflexivity|]);
    (split; [eapply first_insert_same; [eassumption|exact Hemail]|]);
    by repeat split.
Qed.

Lemma authenticate_user_locked settings pwd_context login_request
    ip_address user_agent now db i u locked_until :
  first (fun u => User.email u = lower (LoginRequest.email login_request))
    (users db) = Some (i, u) ->
  User.is_locked u = true ->
  User.locked_until u = Some locked_until ->
  now < locked_until ->
  authenticate_user settings pwd_context login_request ip_address user_agent
    now db
  = (Return (None, Some ("Account is locked. Try again in "
                         +:+ pretty (((locked_until - now) `mod` 86400) `div` 60)
                         +:+ " minutes")), db).
Proof.
  intros Hfind Hl Hu Hlt.
  unfold authenticate_user, get_user_by_email, locked_refusal. unfold_M.
  rewrite Hfind, Hl, Hu. apply Z.ltb_lt in Hlt. rewrite Hlt. reflexivity.
Qed.

Lemma authenticate_user_right_password settings pwd_context login_request
    ip_address user_agent now db i u :
  first (fun u => User.email u = lower (LoginRequest.email login_request))
    (users db) = Some (i, u) ->
  locked_refusal u now = None ->
  User.is_active u = true ->
  verify_password pwd_context (LoginRequest.password login_request)
    (User.password_hash u) = true ->
  exists u' db',
    authenticate_user settings pwd_context login_request ip_address user_agent
      now db = (Return (Some u', None), db').
Proof.
  intros Hfind Hfree Hact Hpw.
  unfold authenticate_user, get_user_by_email, log_audit_action, add_audit_log,
    set_user. unfold_M.
  rewrite Hfind, Hfree, Hact, Hpw. simpl. eauto.
Qed.

Lemma login_attempts_wrong settings pwd_context email ip_address user_agent
    failures :
  failures <> [] ->
  forall db i u,
    first (fun u => User.email u = lower email) (users db) = Some (i, u) ->
    User.is_locked u = false ->
    User.is_active u = true ->
    Forall (fun try => verify_password pwd_context try.1 (User.password_hash u)
                       = false) failures ->
    User.failed_login_attempts u + Z.of_nat (length failures)
      = MAX_LOGIN_ATTEMPTS settings ->
    exists results db1 u1 locked_at,
      login_attempts settings pwd_context email ip_address user_agent
        failures db = (results, db1) /\
      Forall invalid_credentials results /\
      length results = length failures /\
      last (snd <$> failures) = Some locked_at /\
      first (fun u => User.email u = lower email) (users db1) = Some (i, u1) /\
      User.is_locked u1 = true /\
      User.locked_until u1
        = Some (locked_at + minutes (LOCKOUT_DURATION_MINUTES settings)) /\
      User.failed_login_attempts u1 = MAX_LOGIN_ATTEMPTS settings /\
      User.password_hash u1 = User.password_hash u /\
      User.is_active u1 = true.
Proof.
  induction failures as [|[password now] rest IH]; [congruence|].
  intros _ db i u Hfind Hunl Hact Hwrong Hcount.
  apply Forall_cons_1 in Hwrong as [Hpw Hrest]. simpl in Hpw.
  destruct (authenticate_user_wrong_password settings pwd_context
              (LoginRequest.mk email password false) ip_address user_agent
              now db i u Hfind) as (u' & db' & Hrun & Hfind' & Hhash & Hact' & Hc & Hlock);
    [by unfold locked_refusal; rewrite Hunl | assumption | assumption |].
  simpl in Hfind'. cbn [login_attempts]. rewrite Hrun.
  destruct rest as [|try rest'].
  - simpl in *.
    destruct (MAX_LOGIN_ATTEMPTS settings <=? User.failed_login_attempts u + 1)
      eqn:E in Hlock; [|apply Z.leb_gt in E; lia].
    destruct Hlock as [Hl Hu].
    exists [Return (None, Some "Invalid email or password")], db', u', now.
    split_and!; try done; [by repeat constructor | lia].
  - destruct (MAX_LOGIN_ATTEMPTS settings <=? User.failed_login_attempts u + 1)
      eqn:E in Hlock; [apply Z.leb_le in E; simpl in Hcount; lia|].
    destruct Hlock as [Hl Hu].
    destruct (IH ltac:(discriminate) db' i u' Hfind') as
      (results & db1 & u1 & locked_at & Hrun1 & Hinv & Hlen & Hlast & Hf1 & Hl1
       & Hu1 & Hc1 & Hh1 & Ha1).
    + congruence.
    + assumption.
    + rewrite Hhash. assumption.
    + rewrite Hc. simpl length in *. lia.
    + rewrite Hrun1.
      exists (Return (None, Some "Invalid email or password") :: results),
        db1, u1, locked_at.
      split_and!; try done.
      * constructor; [reflexivity | assumption].
      * simpl. by rewrite Hlen.
      * congruence.
Qed.

Lemma login_attempts_locked settings pwd_context email ip_address user_agent
    db i u locked_until tries :
  first (fun u => User.email u = lower email) (users db) = Some (i, u) ->
  User.is_locked u = true ->
  User.locked_until u = Some locked_until ->
  Forall (fun try => try.2 < locked_until) tries ->
  exists results,
    login_attempts settings pwd_context email ip_address user_agent tries db
      = (results, db) /\
    Forall account_locked results /\
    length results = length tries.
Proof.
  intros Hfind Hl Hu. induction 1 as [|[password now] rest Hlt _ IH].
  - exists []. by repeat split.
  - destruct IH as (results & Hrun & Hall & Hlen).
    cbn [login_attempts].
    rewrite (authenticate_user_locked settings pwd_context
               (LoginRequest.mk email password false) ip_address user_agent
               now db i u locked_until Hfind Hl Hu Hlt).
    rewrite Hrun. eexists. split; [reflexivity|]. split.
    + constructor; [by eexists | assumption].
    + simpl. by rewrite Hlen.
Qed.

(** C1.  Take an unlocked, active account and consecutive logins with wrong
    passwords that bring its failed-login counter to [MAX_LOGIN_ATTEMPTS].
    They are all answered "Invalid email or password", and the last one,
    made at [locked_at], leaves the account locked until [locked_at] plus
    [LOCKOUT_DURATION_MINUTES].  From then on every login made before that
    time, whatever the password, is answered "Account is locked" and leaves
    the store as it is; a login with the correct password made at that time
    or later succeeds and unlocks the account. *)
Theorem lockout_after_threshold :
  forall (settings : Settings) (pwd_context : CryptContext) (email : string)
         (ip_address user_agent : option string) (db : Db) (i : nat)
         (user : User.t) (failures : list (string * Z)),
    first (fun u => User.email u = lower email) (users db) = Some (i, user) ->
    User.is_locked user = false ->
    User.is_active user = true ->
    failures <> [] ->
    Forall (fun try => verify_password pwd_context try.1 (User.password_hash user)
                       = false) failures ->
    User.failed_login_attempts user + Z.of_nat (length failures)
      = MAX_LOGIN_ATTEMPTS settings ->
    exists results db1 user1 locked_at,
      let locked_until :=
        locked_at + minutes (LOCKOUT_DURATION_MINUTES settings) in
      login_attempts settings pwd_context email ip_address user_agent
        failures db = (results, db1) /\
      Forall invalid_credentials results /\
      last (snd <$> failures) = Some locked_at /\
      first (fun u => User.email u = lower email) (users db1) = Some (i, user1) /\
      User.is_locked user1 = true /\
      User.locked_until user1 = Some locked_until /\
      (forall tries,
         Forall (fun try => try.2 < locked_until) tries ->
         exists results',
           login_attempts settings pwd_context email ip_address user_agent
             tries db1 = (results', db1) /\
           Forall account_locked results' /\
           length results' = length tries) /\
      (forall password now,
         locked_until <= now ->
         verify_password pwd_context password (User.password_hash user) = true ->
         exists user2 db2,
           authenticate_user settings pwd_context
             (LoginRequest.mk email password false) ip_address user_agent
             now db1 = (Return (Some user2, None), db2) /\
           first (fun u => User.email u = lower email) (users db2)
             = Some (i, user2) /\
           User.is_locked user2 = false /\
           User.locked_until user2 = None).
Proof.
  intros settings pwd_context email ip_address user_agent db i user failures
    Hfind Hunl Hact Hne Hwrong Hcount.
  destruct (login_attempts_wrong settings pwd_context email ip_address
              user_agent failures Hne db i user Hfind Hunl Hact Hwrong Hcount)
    as (results & db1 & user1 & locked_at & Hrun & Hinv & _ & Hlast & Hf1 & Hl1
        & Hu1 & _ & Hh1 & Ha1).
  exists results, db1, user1, locked_at. cbv zeta.
  split_and!; try assumption.
  - intros tries Htries.
    by eapply login_attempts_locked.
  - intros password now Hexp Hpw.
    assert (Hfree : locked_refusal user1 now = None).
    { unfold locked_refusal. rewrite Hl1, Hu1.
      destruct (now <? _) eqn:E; [apply Z.ltb_lt in E; lia | reflexivity]. }
    destruct (authenticate_user_right_password settings pwd_context
                (LoginRequest.mk email password false) ip_address user_agent
                now db1 i user1 Hf1 Hfree Ha1) as (user2 & db2 & Hrun2);
      [simpl; by rewrite Hh1|].
    exists user2, db2. split; [assumption|].
    apply authenticate_user_success in Hrun2
      as (i' & u0 & Hf0 & Hf2 & _ & _ & _ & _ & _ & Hun).
    simpl in Hf0, Hf2. rewrite Hf1 in Hf0. injection Hf0 as <- <-.
    destruct (Hun Hl1). by split_and!.
Qed.

Lemma lockout_after_threshold_witness :
  exists results db1 user1 locked_at,
    let locked_until :=
      locked_at + minutes (LOCKOUT_DURATION_MINUTES testing_settings) in
    login_attempts testing_settings example_context "a@x.com" None None
      [("Strong!Pw", 1001); ("str0ng!pw", 1002); ("Str0ng!Pw ", 1003);
       ("password", 1004); ("letmein", 1005)] alice_db = (results, db1) /\
    Forall invalid_credentials results /\
    last (snd <$> [("Strong!Pw", 1001); ("str0ng!pw", 1002); ("Str0ng!Pw ", 1003);
                   ("password", 1004); ("letmein", 1005)]) = Some locked_at /\
    first (fun u => User.email u = lower "a@x.com") (users db1) = Some (0%nat, user1) /\
    User.is_locked user1 = true /\
    User.locked_until user1 = Some locked_until /\
    (forall tries,
       Forall (fun try => try.2 < locked_until) tries ->
       exists results',
         login_attempts testing_settings example_context "a@x.com" None None
           tries db1 = (results', db1) /\
         Forall account_locked results' /\
         length results' = length tries) /\
    (forall password now,
       locked_until <= now ->
       verify_password example_context password "s$Str0ng!Pw" = true ->
       exists user2 db2,
         authenticate_user testing_settings example_context
           (LoginRequest.mk "a@x.com" password false) None None
           now db1 = (Return (Some user2, None), db2) /\
         first (fun u => User.email u = lower "a@x.com") (users db2)
           = Some (0%nat, user2) /\
         User.is_locked user2 = false /\
         User.locked_until user2 = None).
Proof.
  apply (lockout_after_threshold testing_settings example_context "a@x.com"
           None None alice_db 0
           (User.mk alice_id "a@x.com" "s$Str0ng!Pw" "Alice" "A" None USER
              true false false 1000 1000 None 1000 0 None)).
  - reflexivity.
  - reflexivity.
  - reflexivity.
  - discriminate.
  - repeat constructor.
  - reflexivity.
Defined.

(** ** Revoked refresh tokens *)

Lemma unique_token_session (rows : list UserSession.t) s1 s2 :
  NoDup (UserSession.refresh_token <$> rows) ->
  s1 ∈ rows -> s2 ∈ rows ->
  UserSession.refresh_token s1 = UserSession.refresh_token s2 -> s1 = s2.
Proof.
  intros Hnd [i Hi]%list_elem_of_lookup [j Hj]%list_elem_of_lookup Ht.
  assert (i = j) as ->; [|congruence].
  eapply NoDup_lookup; [exact Hnd| |].
  - rewrite list_lookup_fmap, Hi. reflexivity.
  - rewrite list_lookup_fmap, Hj. simpl. by rewrite Ht.
Qed.

Lemma update_where_revokes (P : UserSession.t -> bool) (rows : list UserSession.t) s :
  NoDup (UserSession.refresh_token <$> rows) ->
  s ∈ rows -> P s = true ->
  (exists s', s' ∈ update_where P (UserSession.set_is_active false) rows /\
              UserSession.refresh_token s' = UserSession.refresh_token s) /\
  (forall s', s' ∈ update_where P (UserSession.set_is_active false) rows ->
     UserSession.refresh_token s' = UserSession.refresh_token s ->
     UserSession.is_active s' = false).
Proof.
  intros Hnd Hs HP. split.
  - exists (UserSession.set_is_active false s). split; [|reflexivity].
    unfold update_where. apply list_elem_of_fmap. exists s. by rewrite HP.
  - intros s' (s0 & Hs0 & ->)%update_where_elem Ht.
    assert (s0 = s) as ->.
    { apply (unique_token_session rows); try assumption.
      rewrite <- Ht. by destruct (P s0). }
    by rewrite HP.
Qed.

Lemma handle_revoked_in settings tz_offset pwd_context r now db t :
  revoked_in t db ->
  revoked_in t (handle settings tz_offset pwd_context r now db).
Proof.
  intros [(s & Hs & Ht) Hinactive].
  destruct (handle_sessions_step settings tz_offset pwd_context r now db)
    as (kept & Hkept & Hrows').
  assert (Hkept_in : forall s', s' ∈ kept ->
            exists s0, s0 ∈ user_sessions db /\ session_step s0 s').
  { intros s' [i Hi]%list_elem_of_lookup.
    destruct (Forall2_lookup_r _ _ _ _ _ Hkept Hi) as (s0 & Hi0 & Hstep).
    exists s0. split; [|assumption]. apply list_elem_of_lookup. eauto. }
  assert (Hkept_t : exists s', s' ∈ kept /\ UserSession.refresh_token s' = t).
  { apply list_elem_of_lookup in Hs as [i Hi].
    destruct (Forall2_lookup_l _ _ _ _ _ Hkept Hi) as (s' & Hi' & (_ & _ & Ht' & _)).
    exists s'. split; [apply list_elem_of_lookup; eauto | congruence]. }
  assert (Hkept_inactive : forall s', s' ∈ kept ->
            UserSession.refresh_token s' = t -> UserSession.is_active s' = false).
  { intros s' (s0 & Hs0 & (_ & _ & Ht0 & _ & Hact))%Hkept_in Ht'.
    destruct (UserSession.is_active s') eqn:E; [|reflexivity].
    rewrite <- (Hinactive s0 Hs0); [symmetry; by apply Hact | congruence]. }
  unfold revoked_in.
  destruct Hrows' as [-> | (new & -> & Hnew)]; [by split|].
  destruct Hkept_t as (s' & Hs' & Ht'). split.
  - exists s'. split; [|assumption]. apply elem_of_app. by left.
  - intros s1 [Hin | ->%list_elem_of_singleton]%elem_of_app Ht1; [eauto|].
    exfalso. apply Hnew. rewrite Ht1, <- Ht.
    by apply list_elem_of_fmap_2.
Qed.

Lemma handle_all_revoked_in settings tz_offset pwd_context calls db t :
  revoked_in t db ->
  revoked_in t (handle_all settings tz_offset pwd_context calls db).
Proof.
  revert db. induction calls as [|[r now] calls IH]; intros db H; [exact H|].
  simpl. apply IH. by apply handle_revoked_in.
Qed.

Lemma refresh_access_token_revoked settings tz_offset refresh_token
    ip_address user_agent now db :
  revoked_in refresh_token db ->
  exists r,
    refresh_access_token settings tz_offset refresh_token
      ip_address user_agent now db = (r, db) /\ refused r.
Proof.
  intros [_ Hinactive].
  unfold refresh_access_token. unfold_M. unfold refused.
  destruct (verify_token settings tz_offset refresh_token "refresh" now)
    as [[payload|]|e]; [|by eauto..].
  case_bool_decide; [by eauto|].
  destruct (negb (truthy_opt (payload !! "sub"))); [by eauto|].
  destruct (first _ (user_sessions db)) as [[j s]|] eqn:Hfind; [|by eauto].
  exfalso. apply first_Some_lookup in Hfind as [Hj [Ht Hact]].
  rewrite (Hinactive s) in Hact; [discriminate| |assumption].
  apply list_elem_of_lookup. eauto.
Qed.

Lemma revokes_revoked_in settings tz_offset pwd_context db now s r :
  refresh_tokens_unique db ->
  s ∈ user_sessions db ->
  revokes settings pwd_context db now s r ->
  revoked_in (UserSession.refresh_token s)
    (handle settings tz_offset pwd_context r now db).
Proof.
  intros Hnd Hs Hr. unfold revoked_in.
  assert (Hby_owner : forall P,
            P s = true ->
            user_sessions (handle settings tz_offset pwd_context r now db)
              = update_where P (UserSession.set_is_active false) (user_sessions db) ->
            (exists s', s' ∈ user_sessions
                                (handle settings tz_offset pwd_context r now db) /\
                        UserSession.refresh_token s' = UserSession.refresh_token s) /\
            (forall s', s' ∈ user_sessions
                               (handle settings tz_offset pwd_context r now db) ->
               UserSession.refresh_token s' = UserSession.refresh_token s ->
               UserSession.is_active s' = false)).
  { intros P HP ->. by apply update_where_revokes. }
  destruct Hr as [user ip ua Hown | user tok ip ua Hown | pc salt Hok
                 | tok pw ip ua salt email i user Hemail Hfind Hown Hok].
  - destruct (token_truthy (UserSession.refresh_token s)) eqn:Htruthy.
    + apply (Hby_owner
               (fun x => bool_decide (UserSession.user_id x = User.id user)
                         && bool_decide (UserSession.refresh_token x
                                         = UserSession.refresh_token s))).
      * rewrite !bool_decide_eq_true_2; done.
      * simpl. unfold logout_user, log_audit_action, add_audit_log. unfold_M.
        by rewrite Htruthy.
    + apply (Hby_owner
               (fun x => bool_decide (UserSession.user_id x = User.id user))).
      * rewrite bool_decide_eq_true_2; done.
      * simpl. unfold logout_user, invalidate_user_sessions, log_audit_action,
          add_audit_log. unfold_M. by rewrite Htruthy.
  - apply (Hby_owner
             (fun x => bool_decide (UserSession.user_id x = User.id user))).
    + rewrite bool_decide_eq_true_2; done.
    + reflexivity.
  - apply (Hby_owner
             (fun x => bool_decide (UserSession.user_id x = UserSession.user_id s))).
    + rewrite bool_decide_eq_true_2; done.
    + revert Hok. simpl. unfold_services; unfold_M. intros Hok.
      split_cases. reflexivity.
  - apply (Hby_owner
             (fun x => bool_decide (UserSession.user_id x = User.id user))).
    + rewrite bool_decide_eq_true_2; done.
    + revert Hok. simpl. unfold_services; unfold_M. rewrite Hemail. simpl.
      intros Hok. split_cases. reflexivity.
Qed.

(** C2.  In a store the services can produce, once the refresh token of a
    session was revoked - by the owner's logout with that token, the
    owner's logout from all devices, a password change of the owner that
    succeeded or a password reset of the owner that succeeded - then after
    any later calls every session with that token is inactive, and
    [refresh_access_token] with that token is refused, mints no access
    token and leaves the store as it is, at any time, expired or not.  No
    call turns the [is_active] flag of a stored session back on. *)
Theorem revoked_refresh_token_stays_revoked :
  forall (settings : Settings) (tz_offset : Z) (pwd_context : CryptContext)
         (db : Db) (s : UserSession.t) (revoke : request) (revoked_at : Z)
         (later : list (request * Z)),
    reachable settings tz_offset pwd_context db ->
    s ∈ user_sessions db ->
    revokes settings pwd_context db revoked_at s revoke ->
    let db1 := handle settings tz_offset pwd_context revoke revoked_at db in
    let db2 := handle_all settings tz_offset pwd_context later db1 in
    (forall s',
       s' ∈ user_sessions db2 ->
       UserSession.refresh_token s' = UserSession.refresh_token s ->
       UserSession.is_active s' = false) /\
    (forall ip_address user_agent now,
       exists r,
         refresh_access_token settings tz_offset (UserSession.refresh_token s)
           ip_address user_agent now db2 = (r, db2) /\
         refused r) /\
    (forall r now db0 j s0,
       user_sessions db0 !! j = Some s0 ->
       exists s0',
         user_sessions (handle settings tz_offset pwd_context r now db0) !! j
           = Some s0' /\
         UserSession.refresh_token s0' = UserSession.refresh_token s0 /\
         (UserSession.is_active s0' = true -> UserSession.is_active s0 = true)).
Proof.
  intros settings tz_offset pwd_context db s revoke revoked_at later
    Hreach Hs Hrev db1 db2.
  apply reachable_invariants in Hreach as (_ & _ & Hnd).
  assert (Hrevoked : revoked_in (UserSession.refresh_token s) db2).
  { apply handle_all_revoked_in. by apply revokes_revoked_in. }
  split_and!.
  - apply Hrevoked.
  - intros ip_address user_agent now.
    by apply refresh_access_token_revoked.
  - intros r now db0 j s0 Hj.
    destruct (table_step_lookup _ _ _ _ _ _
                (handle_sessions_step settings tz_offset pwd_context r now db0) Hj)
      as (s0' & Hj' & (_ & _ & Ht & _ & Hact)).
    eauto.
Qed.

Lemma alice_session_db_reachable :
  reachable testing_settings 0 example_context alice_session_db.
Proof.
  exact (reachable_handle testing_settings 0 example_context alice_db
           (CreateUserSession alice false None None None "jti-1" alice_session_id)
           1100 alice_db_reachable).
Defined.

Lemma revoked_refresh_token_stays_revoked_witness :
  let db2 := handle_all testing_settings 0 example_context alice_later_calls
               (handle testing_settings 0 example_context alice_logout 1200
                  alice_session_db) in
  exists r,
    refresh_access_token testing_settings 0
      (UserSession.refresh_token alice_session) None None 1300 db2 = (r, db2) /\
    refused r.
Proof.
  apply (revoked_refresh_token_stays_revoked testing_settings 0 example_context
           alice_session_db alice_session alice_logout 1200 alice_later_calls).
  - exact alice_session_db_reachable.
  - apply list_elem_of_lookup. exists 0%nat. vm_compute. reflexivity.
  - apply revokes_logout. reflexivity.
Defined.

(** ** Further checks of the model *)

(** Text that is no token, and a token signed under another key, are
    refused with [None]. *)
Lemma verify_token_not_jws settings tz_offset text token_type now :
  verify_token settings tz_offset (NotJWS text) token_type now = Return None.
Proof. reflexivity. Qed.

Lemma verify_token_other_key settings tz_offset payload key token_type now :
  key <> SECRET_KEY settings ->
  verify_token settings tz_offset (JWS payload key) token_type now = Return None.
Proof.
  intros Hkey. unfold verify_token, jwt_decode.
  by rewrite decide_False.
Qed.

(** A token of the right kind without [exp] is taken as expiring at the
    epoch. *)
Lemma verify_token_missing_exp settings tz_offset now :
  tz_offset < now -> in_datetime_range tz_offset = true ->
  verify_token settings tz_offset
    (JWS {[ "type" := JStr "access" ]} (SECRET_KEY settings)) "access" now
  = Return None.
Proof.
  intros Hnow Hrange. unfold verify_token, jwt_decode.
  rewrite decide_True by reflexivity.
  change (validate_claims now {[ "type" := JStr "access" ]}) with (Return tt).
  simpl. rewrite decide_False by (intros H; by apply H).
  change (({[ "type" := JStr "access" ]} : claims) !! "exp") with (@None jvalue).
  simpl. rewrite Z.add_0_l, Hrange.
  apply Z.ltb_lt in Hnow. simpl. by rewrite Hnow.
Qed.

(** [request_password_reset] returns [True] when no row of
    [password_resets] carries the token it is about to store, and whenever
    the email is unknown or the account inactive. *)
Lemma request_password_reset_returns_true settings request
    ip_address user_agent now db :
  (forall i user,
     first (fun u => User.email u = lower (PasswordResetSchema.email request))
       (users db) = Some (i, user) ->
     User.is_active user = true ->
     Forall (fun r => PasswordReset.token r
                      <> generate_password_reset_token settings (User.email user) now)
       (password_resets db)) ->
  fst (request_password_reset settings request ip_address user_agent now db)
    = Return true.
Proof.
  intros Hfresh.
  unfold request_password_reset, get_user_by_email, add_password_reset,
    log_audit_action, add_audit_log. unfold_M.
  destruct (first _ (users db)) as [[i user]|] eqn:Hfind; [|reflexivity].
  destruct (User.is_active user) eqn:Hact; [|reflexivity]. simpl.
  rewrite bool_decide_eq_false_2; [reflexivity|].
  rewrite Exists_exists. intros (r & Hr & Htok).
  specialize (Hfresh i user eq_refl Hact).
  rewrite Forall_forall in Hfresh. by apply (Hfresh r Hr).
Qed.

(** The scenario of the specification: Alice registers, logs in, mistypes
    her password five times, is refused with the right password, and gets in
    again once the lock has run out. *)
Example alice_registers :
  fst (create_user testing_settings example_context alice_create None
         alice_id "s" 1000 empty_db) = Return alice.
Proof. reflexivity. Qed.

Example alice_scenario :
  let attempt := login_attempts testing_settings example_context "a@x.com"
                   None None in
  let '(first_login, db0) := attempt [("Str0ng!Pw", 1000)] alice_db in
  let '(failed, db1) :=
    attempt [("a", 1001); ("b", 1002); ("c", 1003); ("d", 1004); ("e", 1005)] db0 in
  let '(sixth, db2) := attempt [("Str0ng!Pw", 1006)] db1 in
  let '(after_lock, db3) := attempt [("Str0ng!Pw", 1005 + minutes 30)] db2 in
  (fun r => match r with Return (Some _, None) => true | _ => false end)
    <$> first_login = [true] /\
  failed = replicate 5 (Return (None, Some "Invalid email or password")) /\
  sixth = [Return (None, Some "Account is locked. Try again in 29 minutes")] /\
  db2 = db1 /\
  (fun r => match r with
            | Return (Some u, None) =>
                bool_decide (User.failed_login_attempts u = 0)
            | _ => false
            end) <$> after_lock = [true].
Proof. vm_compute. by repeat split. Qed.
(** * Further properties *)

(** ** Roles and permissions *)

Lemma role_value_inj : Inj (=) (=) role_value.
Proof. intros [] []; simpl; intros E; first [reflexivity | discriminate E]. Qed.

Lemma role_value_eq r1 r2 :
  bool_decide (role_value r1 = role_value r2) = bool_decide (r1 = r2).
Proof.
  apply bool_decide_ext. split; [apply role_value_inj | by intros ->].
Qed.

Lemma is_superadmin_role self :
  is_superadmin self = bool_decide (User.role self = SUPERADMIN).
Proof. unfold is_superadmin. apply (role_value_eq _ SUPERADMIN). Qed.

Lemma is_admin_role self :
  is_admin self = negb (bool_decide (User.role self = USER)).
Proof. unfold is_admin. by destruct (User.role self). Qed.

Lemma is_user_role self :
  bool_decide (role_value (User.role self) = "user")
  = bool_decide (User.role self = USER).
Proof. apply (role_value_eq _ USER). Qed.

Ltac by_roles :=
  rewrite ?is_superadmin_role, ?is_admin_role, ?is_user_role,
    ?(role_value_eq _ SUPERADMIN) in *.

Lemma role_permissions_of (r : UserRole) :
  role_permissions !! role_value r
  = Some (match r with
          | SUPERADMIN => ["manage_admins"; "manage_users"; "view_audit_logs";
                           "manage_system_settings"; "view_analytics"; "manage_roles"]
          | ADMIN1 | ADMIN2 | ADMIN3 =>
              ["manage_users"; "view_audit_logs"; "view_analytics"]
          | USER => ["view_profile"; "update_profile"]
          end).
Proof. destruct r; vm_compute; reflexivity. Qed.

(** A role name is one of the five values, or none of them. *)
Lemma role_name_cases (name : string) :
  (exists r, name = role_value r) \/ (forall r, name <> role_value r).
Proof.
  destruct (decide (name = "superadmin")) as [->|?]; [left; by exists SUPERADMIN|].
  destruct (decide (name = "admin1")) as [->|?]; [left; by exists ADMIN1|].
  destruct (decide (name = "admin2")) as [->|?]; [left; by exists ADMIN2|].
  destruct (decide (name = "admin3")) as [->|?]; [left; by exists ADMIN3|].
  destruct (decide (name = "user")) as [->|?]; [left; by exists USER|].
  right. intros []; assumption.
Qed.

Lemma can_assign_role_unknown user target_role :
  (forall r, target_role <> role_value r) ->
  can_assign_role user target_role = false /\
  can_manage_role user target_role = false.
Proof.
  intros Hno.
  pose proof (Hno SUPERADMIN). pose proof (Hno ADMIN1). pose proof (Hno ADMIN2).
  pose proof (Hno ADMIN3). pose proof (Hno USER). simpl in *.
  unfold can_assign_role, can_manage_role.
  rewrite !(bool_decide_eq_false_2 (target_role ∈ _))
    by (intros Hin; repeat (apply elem_of_cons in Hin as [?|Hin]; [done|]);
        by apply elem_of_nil in Hin).
  rewrite !(bool_decide_eq_false_2 (target_role = _)) by assumption.
  by repeat case_match.
Qed.

(** X1.  Whoever may manage an account may also view it: when
    [PermissionChecker.can_manage_user] answers [True] for a target, so
    does [PermissionChecker.can_view_user]. *)
Theorem can_manage_user_implies_can_view_user :
  forall user target_user : User.t,
    can_manage_user user target_user = true ->
    can_view_user user target_user = true.
Proof.
  intros user target_user. unfold can_manage_user, can_view_user.
  destruct (is_superadmin user); [reflexivity|].
  destruct (is_admin user); [|exact id].
  intros ->. reflexivity.
Qed.

Lemma can_manage_user_implies_can_view_user_witness :
  can_view_user bob alice = true.
Proof.
  apply (can_manage_user_implies_can_view_user bob alice). reflexivity.
Defined.

(** X2.  Only a superadmin manages the account of an admin, and the only
    superadmin account a superadmin manages is its own: if
    [can_manage_user] answers [True] for a target with an admin role
    (superadmin included), the caller is a superadmin, and when the target
    is a superadmin it has the caller's id.  Two records with the same id
    are taken to be the same account, so to have the same role. *)
Theorem only_superadmin_manages_admins :
  forall user target_user : User.t,
    (User.id target_user = User.id user ->
     User.role target_user = User.role user) ->
    can_manage_user user target_user = true ->
    is_admin target_user = true ->
    is_superadmin user = true /\
    (is_superadmin target_user = true -> User.id target_user = User.id user).
Proof.
  intros user target_user. unfold can_manage_user.
  change (role_value (User.role target_user) = "superadmin")
    with (role_value (User.role target_user) = role_value SUPERADMIN).
  by_roles. intros Hsame.
  destruct (User.role user) eqn:Eu, (User.role target_user) eqn:Et; simpl;
    try discriminate; intros H _;
    try (apply bool_decide_eq_true in H; specialize (Hsame H); discriminate);
    (split; [reflexivity|]); try discriminate.
  intros _. by apply bool_decide_eq_true in H.
Qed.

Lemma only_superadmin_manages_admins_witness :
  is_superadmin root = true /\
  (is_superadmin bob = true -> User.id bob = User.id root).
Proof.
  apply (only_superadmin_manages_admins root bob).
  - intros H. vm_compute in H. discriminate H.
  - reflexivity.
  - reflexivity.
Defined.

(** X3.  [PermissionChecker.can_assign_role] and [User.can_manage_role]
    agree on every role name but one: the checker also lets a superadmin
    assign the role superadmin, which [can_manage_role] refuses to
    everybody.  A name that is no role is refused by both. *)
Theorem can_assign_role_vs_can_manage_role :
  forall (user : User.t) (target_role : string),
    can_assign_role user target_role
    = can_manage_role user target_role
      || (is_superadmin user && bool_decide (target_role = "superadmin")).
Proof.
  intros user target_role.
  destruct (role_name_cases target_role) as [[r ->] | Hno].
  - unfold can_assign_role, can_manage_role, is_admin, is_superadmin.
    destruct (User.role user), r; vm_compute; reflexivity.
  - destruct (can_assign_role_unknown user target_role Hno) as [-> ->].
    rewrite (bool_decide_eq_false_2 _ (Hno SUPERADMIN)).
    by rewrite andb_false_r.
Qed.

(** X4.  The permission table read by [User.has_permission]: the admin
    roles are exactly the roles with [manage_users], and with
    [view_audit_logs] and [view_analytics], which is what
    [can_access_audit_logs] and [can_view_analytics] ask for; a superadmin
    has every permission an admin of a tier has; and the two permissions of
    a regular user, [view_profile] and [update_profile], are held by no
    admin role. *)
Theorem has_permission_table :
  forall (self : User.t) (permission : string),
    has_permission self "manage_users" = is_admin self /\
    can_access_audit_logs self = is_admin self /\
    can_view_analytics self = is_admin self /\
    (forall other : User.t,
       is_admin self = true -> is_superadmin other = true ->
       has_permission self permission = true ->
       has_permission other permission = true) /\
    (has_permission self permission = true ->
     (is_admin self = false <->
      permission = "view_profile" \/ permission = "update_profile")).
Proof.
  intros self permission.
  unfold can_access_audit_logs, can_view_analytics, has_permission.
  split_and!.
  - by_roles. rewrite role_permissions_of. by destruct (User.role self).
  - by_roles. rewrite role_permissions_of. by destruct (User.role self).
  - by_roles. rewrite role_permissions_of. by destruct (User.role self).
  - intros other. by_roles. rewrite !role_permissions_of.
    intros Hadmin ->%bool_decide_eq_true. simpl.
    rewrite !bool_decide_eq_true.
    destruct (User.role self); try discriminate Hadmin; simpl;
      rewrite !elem_of_cons; tauto.
  - by_roles. rewrite role_permissions_of, bool_decide_eq_true.
    destruct (User.role self); simpl; rewrite !elem_of_cons, elem_of_nil.
    all: intros Hp; split; intros H; try discriminate H; try tauto.
    all: exfalso; destruct H as [-> | ->];
      repeat (destruct Hp as [Hp | Hp]; [discriminate Hp|]); exact Hp.
Qed.
(** ** Email tokens *)

Lemma verify_password_reset_token_generated settings email now now' :
  verify_password_reset_token settings
    (generate_password_reset_token settings email now) now'
  = Return (if (now <=? now') && (now' <? now + hours 1)
            then JStr email else JNull).
Proof.
  unfold verify_password_reset_token, generate_password_reset_token,
    jwt_encode, jwt_decode.
  rewrite !decide_True by reflexivity.
  unfold validate_claims, validate_iat, validate_nbf, validate_exp, validate_aud.
  map_lookup. simpl.
  rewrite (Z.leb_antisym now' now), (Z.ltb_antisym (now + hours 1) now').
  destruct (now' <? now); simpl; [reflexivity|].
  destruct (now + hours 1 <=? now'); simpl; [reflexivity|].
  rewrite decide_False by (intros H; by apply H). by map_lookup.
Qed.

Lemma verify_email_verification_token_generated settings email now now' :
  verify_email_verification_token settings
    (generate_email_verification_token settings email now) now'
  = Return (if (now <=? now') && (now' <? now + days 7)
            then JStr email else JNull).
Proof.
  unfold verify_email_verification_token, generate_email_verification_token,
    jwt_encode, jwt_decode.
  rewrite !decide_True by reflexivity.
  unfold validate_claims, validate_iat, validate_nbf, validate_exp, validate_aud.
  map_lookup. simpl.
  rewrite (Z.leb_antisym now' now), (Z.ltb_antisym (now + days 7) now').
  destruct (now' <? now); simpl; [reflexivity|].
  destruct (now + days 7 <=? now'); simpl; [reflexivity|].
  rewrite decide_False by (intros H; by apply H). by map_lookup.
Qed.

(** X5.  A password-reset token is accepted from the second it was issued
    to the second before its hour is over, and an email-verification token
    for seven days; [verify_password_reset_token] and
    [verify_email_verification_token] then return the email the token was
    issued for, and [None] at any other time. *)
Theorem email_token_round_trip :
  forall (settings : Settings) (email : string) (now now' : Z),
    verify_password_reset_token settings
      (generate_password_reset_token settings email now) now'
    = Return (if (now <=? now') && (now' <? now + hours 1)
              then JStr email else JNull) /\
    verify_email_verification_token settings
      (generate_email_verification_token settings email now) now'
    = Return (if (now <=? now') && (now' <? now + days 7)
              then JStr email else JNull).
Proof.
  intros settings email now now'. split.
  - apply verify_password_reset_token_generated.
  - apply verify_email_verification_token_generated.
Qed.

Lemma email_token_wrong_type settings p key now ty ty' v :
  p !! "type" = Some (JStr ty') -> ty' <> ty ->
  except_PyJWTError
    (do payload <- jwt_decode (JWS p key) (SECRET_KEY settings) now;
     if decide (payload !! "type" ≠ Some (JStr ty)) then Return JNull
     else Return (default JNull (payload !! "sub")))
    JNull = Return v ->
  v = JNull.
Proof.
  intros Hty Hne. unfold jwt_decode.
  case_decide as Hk; [|simpl; congruence].
  destruct (validate_claims now p) as [[]|e]; simpl.
  - rewrite decide_True by (rewrite Hty; congruence). simpl. congruence.
  - destruct e; simpl; congruence.
Qed.

(** X6.  The two email verifiers accept only their own kind of token: a
    token made by the creation function of another kind, with no extra
    claim named [type], is never answered with an email by
    [verify_password_reset_token], nor by
    [verify_email_verification_token]: the answer is [None], unless the
    call raises. *)
Theorem email_verifiers_refuse_other_kinds :
  forall (settings : Settings) (k : token_kind) (subject : string)
         (expires_delta : option Z) (additional_claims : option claims)
         (jti : string) (now now' : Z),
    extras_of additional_claims !! "type" = None ->
    let t := create_token settings k subject expires_delta additional_claims
               jti now in
    (k <> PasswordResetKind ->
     forall v, verify_password_reset_token settings t now' = Return v ->
               v = JNull) /\
    (k <> EmailVerification ->
     forall v, verify_email_verification_token settings t now' = Return v ->
               v = JNull).
Proof.
  intros settings k subject expires_delta additional_claims jti now now' Hx t.
  destruct (create_token_payload settings k subject expires_delta
              additional_claims jti now) as (p & Ht & Hty & _).
  subst t. rewrite Ht. specialize (Hty Hx).
  unfold verify_password_reset_token, verify_email_verification_token.
  split; intros Hk v; eapply email_token_wrong_type; try exact Hty;
    intros E; apply Hk; by destruct k.
Qed.

Lemma email_verifiers_refuse_other_kinds_witness :
  let t := create_token testing_settings Access alice_id None None "" 1000 in
  (Access <> PasswordResetKind ->
   forall v, verify_password_reset_token testing_settings t 1001 = Return v ->
             v = JNull) /\
  (Access <> EmailVerification ->
   forall v, verify_email_verification_token testing_settings t 1001 = Return v ->
             v = JNull).
Proof.
  apply (email_verifiers_refuse_other_kinds testing_settings Access alice_id
           None None "" 1000 1001).
  reflexivity.
Defined.
(** ** Accounts *)

Lemma lower_char_idemp c : lower_char (lower_char c) = lower_char c.
Proof. destruct c as [[] [] [] [] [] [] [] []]; vm_compute; reflexivity. Qed.

Lemma lower_idemp s : lower (lower s) = lower s.
Proof.
  induction s as [|c s IH]; [reflexivity|].
  simpl. by rewrite lower_char_idemp, IH.
Qed.

Lemma user_kept_refl u : user_kept u u.
Proof. by split. Qed.

Lemma not_Exists_fmap {A B} `{EqDecision B} (f : A -> B) (P : A -> Prop)
    (rows : list A) (b : B) :
  (forall r, f r = b -> P r) -> ~ Exists P rows -> b ∉ (f <$> rows).
Proof.
  intros HP Hno (r & -> & Hr)%list_elem_of_fmap.
  apply Hno, Exists_exists. exists r. split; [assumption|]. by apply HP.
Qed.

#[local] Opaque validate_password_strength.

(** Every call keeps the key and the email of each stored account, and adds
    at most one account, whose key and email were not taken. *)
Lemma handle_users_kept settings tz_offset pwd_context r now db :
  table_step user_kept new_user
    (users db) (users (handle settings tz_offset pwd_context r now db)).
Proof.
  destruct r; simpl; unfold_services; unfold_M; simpl.
  all: split_cases.
  all: try (apply table_step_same; apply user_kept_refl).
  all: repeat found_row.
  all: try (eapply table_step_insert; [apply user_kept_refl | eassumption |];
            unfold user_kept, set_if; simpl;
            repeat case_match; simpl; by split).
  all: apply table_step_add; [apply user_kept_refl|].
  all: match goal with
       | H : bool_decide (Exists _ _) = false |- _ =>
           apply bool_decide_eq_false in H; rename H into Hfresh
       end.
  all: split_and!; simpl;
    [ eapply not_Exists_fmap; [|exact Hfresh]; intros r E; left; exact E
    | eapply not_Exists_fmap; [|exact Hfresh]; intros r E; right; exact E
    | apply lower_idemp ].
Qed.

#[local] Transparent validate_password_strength.

Lemma Forall2_step_fmap {A B} (step : A -> A -> Prop) (f : A -> B) rows kept :
  (forall x y, step x y -> f y = f x) ->
  Forall2 step rows kept -> f <$> kept = f <$> rows.
Proof.
  intros Hf. induction 1 as [|x y l k Hxy _ IH]; [reflexivity|].
  rewrite !fmap_cons, (Hf _ _ Hxy), IH. reflexivity.
Qed.

(** A column that no step changes and that a new row takes a fresh value
    of stays free of duplicates. *)
Lemma table_step_NoDup {A B} (step : A -> A -> Prop) new (f : A -> B) rows rows' :
  table_step step new rows rows' ->
  (forall x y, step x y -> f y = f x) ->
  (forall r, new rows r -> f r ∉ (f <$> rows)) ->
  NoDup (f <$> rows) -> NoDup (f <$> rows').
Proof.
  intros (kept & Hkept & Hrows') Hstep Hnew Hnd.
  pose proof (Forall2_step_fmap _ f _ _ Hstep Hkept) as Hf.
  destruct Hrows' as [-> | (r & -> & Hr)]; [by rewrite Hf|].
  rewrite fmap_app, Hf. apply NoDup_app. split_and!; [assumption| |].
  - intros b Hin. simpl. rewrite list_elem_of_singleton. intros ->.
    by apply (Hnew r).
  - simpl. apply NoDup_singleton.
Qed.

Lemma reachable_users settings tz_offset pwd_context db :
  reachable settings tz_offset pwd_context db ->
  user_ids_unique db /\ user_emails_unique db /\ emails_lower_case db.
Proof.
  unfold user_ids_unique, user_emails_unique, emails_lower_case.
  induction 1 as [|db r now _ (Hi & He & Hl)].
  - split_and!; constructor.
  - pose proof (handle_users_kept settings tz_offset pwd_context r now db) as Hs.
    split_and!.
    + eapply table_step_NoDup; [exact Hs| | |exact Hi].
      * by intros x y [? _].
      * by intros u (? & _).
    + eapply table_step_NoDup; [exact Hs| | |exact He].
      * by intros x y [_ ?].
      * by intros u (_ & ? & _).
    + eapply table_step_Forall; [exact Hs| | |exact Hl].
      * intros x y [_ E]. by rewrite E.
      * by intros u (_ & _ & ?).
Qed.

(** In a column without duplicates the first row with a value is the row
    with that value. *)
Lemma first_unique {A B} `{EqDecision B} (f : A -> B) (rows : list A) i r :
  NoDup (f <$> rows) -> rows !! i = Some r ->
  first (fun x => f x = f r) rows = Some (i, r).
Proof.
  intros Hnd Hi. unfold first. apply list_find_Some.
  split_and!; [assumption | reflexivity|].
  intros j y Hj Hlt E.
  assert (i = j); [|lia].
  eapply NoDup_lookup; [exact Hnd| |].
  - by rewrite list_lookup_fmap, Hi.
  - by rewrite list_lookup_fmap, Hj, <- E.
Qed.

(** X7.  In every store the services can produce, no two accounts share a
    key or an email and every stored email is in lower case; so each stored
    account is the one [get_user_by_id] returns for its key, and the one
    [get_user_by_email] returns for its email in any spelling of upper and
    lower case. *)
Theorem stored_accounts_are_found :
  forall (settings : Settings) (tz_offset : Z) (pwd_context : CryptContext)
         (db : Db),
    reachable settings tz_offset pwd_context db ->
    NoDup (User.id <$> users db) /\
    NoDup (User.email <$> users db) /\
    forall (i : nat) (user : User.t),
      users db !! i = Some user ->
      lower (User.email user) = User.email user /\
      get_user_by_id (User.id user) db = (Return (Some (i, user)), db) /\
      forall email : string,
        lower email = User.email user ->
        get_user_by_email email db = (Return (Some (i, user)), db).
Proof.
  intros settings tz_offset pwd_context db (Hi & He & Hl)%reachable_users.
  split_and!; [exact Hi | exact He |].
  intros i user Hu. split_and!.
  - apply (Forall_lookup_1 _ _ _ _ Hl Hu).
  - unfold get_user_by_id. unfold_M. by rewrite (first_unique User.id _ i user).
  - intros email E. unfold get_user_by_email. unfold_M. rewrite E.
    by rewrite (first_unique User.email _ i user).
Qed.

Lemma stored_accounts_are_found_witness :
  get_user_by_email "A@X.com" alice_db = (Return (Some (0%nat, alice)), alice_db).
Proof.
  pose proof (stored_accounts_are_found testing_settings 0 example_context
                alice_db alice_db_reachable) as (_ & _ & H).
  destruct (H 0%nat alice eq_refl) as (_ & _ & Hemail).
  apply Hemail. reflexivity.
Defined.
(** ** Sessions *)

Lemma session_kept_refl s : session_kept s s.
Proof. by destruct s. Qed.

#[local] Opaque validate_password_strength create_refresh_token.

(** Every call changes a stored session in [last_used_at] and [is_active]
    only, never from inactive to active, and adds at most one session, the
    one [create_user_session] makes. *)
Lemma handle_sessions_kept settings tz_offset pwd_context r now db :
  table_step
    (fun s s' => session_kept s s' /\
                 (UserSession.is_active s' = true -> UserSession.is_active s = true))
    (new_user_session settings now)
    (user_sessions db)
    (user_sessions (handle settings tz_offset pwd_context r now db)).
Proof.
  assert (Hrefl : forall s, session_kept s s /\
            (UserSession.is_active s = true -> UserSession.is_active s = true))
    by (intros s; split; [apply session_kept_refl | exact id]).
  destruct r; simpl; unfold_services; unfold_M; simpl.
  all: split_cases.
  all: try (apply table_step_same; exact Hrefl).
  all: try (apply table_step_update_where;
            [exact Hrefl | intros []; by split]).
  all: repeat found_row.
  all: try (eapply table_step_insert; [exact Hrefl | eassumption |];
            match goal with |- context [?f _ ?s] => by destruct s end).
  all: apply table_step_add; [exact Hrefl|].
  all: match goal with
       | H : bool_decide (Exists _ _) = false |- _ =>
           apply bool_decide_eq_false in H; rename H into Hfresh
       end.
  all: split_and!; simpl; try reflexivity;
    [ eapply not_Exists_fmap; [|exact Hfresh]; intros r E; left; exact E
    | first [ exists true, jti; split; [reflexivity|]; do 2 f_equal; lia
            | exists false, jti; split; [reflexivity|]; do 2 f_equal; lia ] ].
Qed.

#[local] Transparent validate_password_strength create_refresh_token.

Lemma session_kept_fields s s' :
  session_kept s s' ->
  UserSession.id s' = UserSession.id s /\
  UserSession.user_id s' = UserSession.user_id s /\
  UserSession.refresh_token s' = UserSession.refresh_token s /\
  UserSession.created_at s' = UserSession.created_at s /\
  UserSession.expires_at s' = UserSession.expires_at s.
Proof. unfold session_kept. intros ->. by destruct s. Qed.

Lemma new_user_session_token_agrees settings now rows s :
  new_user_session settings now rows s -> session_token_agrees settings s.
Proof.
  intros (_ & _ & Hc & _ & remember_me & jti & He & Ht).
  unfold session_token_agrees. rewrite Ht, Hc.
  unfold create_refresh_token, jwt_encode.
  eexists. split; [reflexivity|].
  split_and!; map_lookup; try reflexivity.
  do 2 f_equal. unfold delta_truthy.
  destruct (UserSession.expires_at s - now =? 0) eqn:E; [|lia].
  apply Z.eqb_eq in E. rewrite He in *. unfold days in *.
  destruct remember_me; lia.
Qed.

Lemma reachable_sessions settings tz_offset pwd_context db :
  reachable settings tz_offset pwd_context db ->
  session_ids_unique db /\
  Forall (session_token_agrees settings) (user_sessions db).
Proof.
  unfold session_ids_unique.
  induction 1 as [|db r now _ [Hnd HP]].
  - split; constructor.
  - pose proof (handle_sessions_kept settings tz_offset pwd_context r now db) as Hs.
    split.
    + eapply table_step_NoDup; [exact Hs| | |exact Hnd].
      * intros x y [Hk _]. by apply session_kept_fields in Hk as (? & _).
      * by intros s (? & _).
    + eapply table_step_Forall; [exact Hs| | |exact HP].
      * intros x y [Hk _] (payload & Hx).
        apply session_kept_fields in Hk as (_ & Eu & Et & Ec & Ee).
        exists payload. by rewrite Eu, Et, Ec, Ee.
      * intros s Hnew. by eapply new_user_session_token_agrees.
Qed.

(** X8.  In every store the services can produce, session keys are
    unique and the refresh token of each session is a refresh token signed
    with the secret key whose [sub] is the session's user, whose [iat] is
    the session's creation time and whose [exp] is the session's
    [expires_at]. *)
Theorem session_tokens_agree_with_sessions :
  forall (settings : Settings) (tz_offset : Z) (pwd_context : CryptContext)
         (db : Db),
    reachable settings tz_offset pwd_context db ->
    NoDup (UserSession.id <$> user_sessions db) /\
    Forall (session_token_agrees settings) (user_sessions db).
Proof. exact reachable_sessions. Qed.

Lemma session_tokens_agree_with_sessions_witness :
  NoDup (UserSession.id <$> user_sessions alice_session_db) /\
  Forall (session_token_agrees testing_settings) (user_sessions alice_session_db).
Proof.
  apply (session_tokens_agree_with_sessions testing_settings 0 example_context).
  exact alice_session_db_reachable.
Defined.

Lemma session_kept_trans s1 s2 s3 :
  session_kept s1 s2 -> session_kept s2 s3 -> session_kept s1 s3.
Proof. unfold session_kept. intros -> ->. by destruct s1. Qed.

(** X9.  No history of calls removes a session, changes anything of it but
    [last_used_at] and [is_active], or makes an inactive session active
    again: the row stays at its place with the same key, user, refresh
    token, device data, creation time and expiry, and once [is_active] is
    false it stays false. *)
Theorem sessions_are_never_reactivated :
  forall (settings : Settings) (tz_offset : Z) (pwd_context : CryptContext)
         (calls : list (request * Z)) (db : Db) (i : nat) (s : UserSession.t),
    user_sessions db !! i = Some s ->
    exists s' : UserSession.t,
      user_sessions (handle_all settings tz_offset pwd_context calls db) !! i
        = Some s' /\
      s' = UserSession.set_is_active (UserSession.is_active s')
             (UserSession.set_last_used_at (UserSession.last_used_at s') s) /\
      (UserSession.is_active s = false -> UserSession.is_active s' = false).
Proof.
  intros settings tz_offset pwd_context calls.
  induction calls as [|[r now] calls IH]; intros db i s Hi.
  - exists s. split_and!; [exact Hi | by destruct s | exact id].
  - simpl.
    destruct (table_step_lookup _ _ _ _ _ _
                (handle_sessions_kept settings tz_offset pwd_context r now db) Hi)
      as (s1 & Hi1 & Hk1 & Ha1).
    destruct (IH _ _ _ Hi1) as (s' & Hi' & Hk' & Ha').
    exists s'. split_and!; [exact Hi' | |].
    + by apply (session_kept_trans s s1 s').
    + intros Hs. apply Ha'. destruct (UserSession.is_active s1); [|reflexivity].
      rewrite Ha1 in Hs by reflexivity. discriminate Hs.
Qed.

Lemma sessions_are_never_reactivated_witness :
  exists s' : UserSession.t,
    user_sessions (handle_all testing_settings 0 example_context
                     alice_later_calls
                     (handle testing_settings 0 example_context alice_logout
                        1200 alice_session_db)) !! 0%nat
      = Some s' /\
    s' = UserSession.set_is_active (UserSession.is_active s')
           (UserSession.set_last_used_at (UserSession.last_used_at s')
              (UserSession.set_is_active false alice_session)) /\
    (UserSession.is_active (UserSession.set_is_active false alice_session) = false ->
     UserSession.is_active s' = false).
Proof.
  apply (sessions_are_never_reactivated testing_settings 0 example_context).
  reflexivity.
Defined.
(** ** The audit log *)

#[local] Opaque validate_password_strength.

(** A call appends at most two entries to the audit log, stamped with the
    time of the call, and touches no entry. *)
Lemma handle_audit_logs_append settings tz_offset pwd_context r now db :
  exists entries,
    audit_logs (handle settings tz_offset pwd_context r now db)
      = audit_logs db ++ entries /\
    (length entries <= 2)%nat /\
    Forall (fun a => AuditLog.created_at a = now) entries.
Proof.
  destruct r; simpl; unfold_services; unfold_M; simpl.
  all: split_cases.
  all: try (exists []; rewrite app_nil_r; split_and!;
            [reflexivity | simpl; lia | constructor]).
  all: try (eexists [_]; split_and!;
            [reflexivity | simpl; lia | by repeat constructor]).
  all: rewrite <- app_assoc; eexists [_; _]; split_and!;
    [reflexivity | simpl; lia | by repeat constructor].
Qed.

#[local] Transparent validate_password_strength.

(** X10.  The audit log is append-only: after any history of calls the log
    begins with the entries it had, unchanged and in the same order. *)
Theorem audit_log_is_append_only :
  forall (settings : Settings) (tz_offset : Z) (pwd_context : CryptContext)
         (calls : list (request * Z)) (db : Db),
    audit_logs db
      `prefix_of` audit_logs (handle_all settings tz_offset pwd_context calls db).
Proof.
  intros settings tz_offset pwd_context calls.
  induction calls as [|[r now] calls IH]; intros db; [reflexivity|].
  simpl. etransitivity; [|apply IH].
  destruct (handle_audit_logs_append settings tz_offset pwd_context r now db)
    as (entries & -> & _).
  by apply prefix_app_r.
Qed.
(** ** Password reset records *)

#[local] Opaque validate_password_strength generate_password_reset_token.

(** Every call leaves a stored reset record as it is or marks it used, and
    adds at most one record, the one [request_password_reset] makes. *)
Lemma handle_resets_kept settings tz_offset pwd_context r now db :
  table_step (reset_kept now) (new_password_reset settings now db)
    (password_resets db)
    (password_resets (handle settings tz_offset pwd_context r now db)).
Proof.
  assert (Hrefl : forall p, reset_kept now p p) by (intros p; by left).
  destruct r; simpl; unfold_services; unfold_M; simpl.
  all: split_cases.
  all: try (apply table_step_same; exact Hrefl).
  all: repeat found_row.
  all: try (eapply table_step_insert; [exact Hrefl | eassumption |];
            right; split; [tauto | reflexivity]).
  all: apply table_step_add; [exact Hrefl|].
  all: match goal with
       | H : bool_decide (Exists _ _) = false |- _ =>
           apply bool_decide_eq_false in H; rename H into Hfresh
       end.
  all: split_and!; simpl; try reflexivity;
    [ eapply not_Exists_fmap; [|exact Hfresh]; intros r E; exact E
    | eexists; split_and!; [by eapply list_elem_of_lookup_2 | | reflexivity | reflexivity];
      by apply negb_false_iff ].
Qed.

#[local] Transparent validate_password_strength generate_password_reset_token.

Lemma reset_kept_fields now p p' :
  reset_kept now p p' ->
  PasswordReset.user_id p' = PasswordReset.user_id p /\
  PasswordReset.token p' = PasswordReset.token p /\
  PasswordReset.created_at p' = PasswordReset.created_at p /\
  PasswordReset.expires_at p' = PasswordReset.expires_at p /\
  (PasswordReset.is_used p = true -> PasswordReset.is_used p' = true).
Proof.
  intros [-> | [Hu ->]]; simpl; split_and!; try reflexivity. exact id.
Qed.

Lemma users_kept_elem settings tz_offset pwd_context r now db u :
  u ∈ users db ->
  exists u', u' ∈ users (handle settings tz_offset pwd_context r now db) /\
             User.id u' = User.id u /\ User.email u' = User.email u.
Proof.
  intros (i & Hi)%list_elem_of_lookup_1.
  destruct (table_step_lookup _ _ _ _ _ _
              (handle_users_kept settings tz_offset pwd_context r now db) Hi)
    as (u' & Hi' & Hid & Hemail).
  exists u'. split_and!; [by eapply list_elem_of_lookup_2 | done | done].
Qed.

Lemma reachable_resets settings tz_offset pwd_context db :
  reachable settings tz_offset pwd_context db ->
  reset_tokens_unique db /\
  Forall reset_well_formed (password_resets db) /\
  Forall (reset_belongs_to_account settings db) (password_resets db).
Proof.
  unfold reset_tokens_unique. intros Hreach.
  induction Hreach as [|db r now _ (Hnd & Hwf & Hacc)].
  - split_and!; constructor.
  - pose proof (handle_resets_kept settings tz_offset pwd_context r now db) as Hs.
    split_and!.
    + eapply table_step_NoDup; [exact Hs| | |exact Hnd].
      * intros x y Hk. by apply reset_kept_fields in Hk as (_ & ? & _).
      * by intros p (? & _).
    + eapply table_step_Forall; [exact Hs| | |exact Hwf].
      * intros x y [-> | [Hu ->]] [He Hiff]; [by split|].
        split; [exact He|]. simpl. split; eauto.
      * intros p (_ & Hu & Hat & Hc & He & _). split; [by rewrite He, Hc|].
        rewrite Hu, Hat. split; [discriminate | by intros [? ?]].
    + eapply table_step_Forall; [exact Hs| | |].
      * intros x y Hk (u & Hin & Hid & Ht).
        apply reset_kept_fields in Hk as (Eu & Et & Ec & _).
        exists u. by rewrite Eu, Et, Ec.
      * intros p (_ & _ & _ & Hc & _ & u & Hin & _ & Hid & Ht).
        destruct (users_kept_elem settings tz_offset pwd_context r now db u Hin)
          as (u' & Hin' & Hid' & Hemail').
        exists u'. by rewrite Hid, Ht, Hc, Hid', Hemail'.
      * eapply Forall_impl; [exact Hacc|].
        intros p (u & Hin & Hid & Ht).
        destruct (users_kept_elem settings tz_offset pwd_context r now db u Hin)
          as (u' & Hin' & Hid' & Hemail').
        exists u'. by rewrite Hid, Ht, Hid', Hemail'.
Qed.

(** X11.  In every store the services can produce, reset tokens are
    unique; every reset record expires one hour after it was made and is
    marked used exactly when it has a time of use; and every record belongs
    to a stored account, its token being the reset token issued to that
    account's email at the time the record was made. *)
Theorem reset_records_are_well_formed :
  forall (settings : Settings) (tz_offset : Z) (pwd_context : CryptContext)
         (db : Db),
    reachable settings tz_offset pwd_context db ->
    NoDup (PasswordReset.token <$> password_resets db) /\
    Forall reset_well_formed (password_resets db) /\
    Forall (reset_belongs_to_account settings db) (password_resets db).
Proof. exact reachable_resets. Qed.

Lemma alice_reset_db_reachable :
  reachable testing_settings 0 example_context alice_reset_db.
Proof.
  exact (reachable_handle testing_settings 0 example_context alice_db
           (RequestPasswordReset alice_reset_request None None) 1300
           alice_db_reachable).
Defined.

Lemma reset_records_are_well_formed_witness :
  NoDup (PasswordReset.token <$> password_resets alice_reset_db) /\
  Forall reset_well_formed (password_resets alice_reset_db) /\
  Forall (reset_belongs_to_account testing_settings alice_reset_db)
    (password_resets alice_reset_db).
Proof.
  apply (reset_records_are_well_formed testing_settings 0 example_context).
  exact alice_reset_db_reachable.
Defined.

Lemma handle_used_up settings tz_offset pwd_context r now db t :
  used_up t db -> used_up t (handle settings tz_offset pwd_context r now db).
Proof.
  intros [(p & Hin & Ht) Hall].
  destruct (handle_resets_kept settings tz_offset pwd_context r now db)
    as (kept & Hkept & Hrows').
  assert (Hk : forall p', p' ∈ kept ->
            PasswordReset.token p' = t -> PasswordReset.is_used p' = true).
  { intros p' (i & Hi)%list_elem_of_lookup_1 Ht'.
    destruct (Forall2_lookup_r _ _ _ _ _ Hkept Hi) as (p0 & Hi0 & Hs).
    apply reset_kept_fields in Hs as (_ & Et & _ & _ & Hu).
    apply Hu, Hall; [by eapply list_elem_of_lookup_2 | congruence]. }
  assert (He : exists p', p' ∈ kept /\ PasswordReset.token p' = t).
  { apply list_elem_of_lookup_1 in Hin as (i & Hi).
    destruct (Forall2_lookup_l _ _ _ _ _ Hkept Hi) as (p' & Hi' & Hs).
    apply reset_kept_fields in Hs as (_ & Et & _).
    exists p'. split; [by eapply list_elem_of_lookup_2 | congruence]. }
  unfold used_up. destruct Hrows' as [-> | (q & -> & Hnew & _)]; [by split|].
  split.
  - destruct He as (p' & Hin' & Ht'). exists p'.
    split; [apply elem_of_app; by left | exact Ht'].
  - intros p' [Hin' | ->%list_elem_of_singleton]%elem_of_app Ht'; [by apply Hk|].
    exfalso. apply Hnew, list_elem_of_fmap. exists p. by rewrite Ht, Ht'.
Qed.

Lemma handle_all_used_up settings tz_offset pwd_context calls db t :
  used_up t db ->
  used_up t (handle_all settings tz_offset pwd_context calls db).
Proof.
  revert db. induction calls as [|[r now] calls IH]; intros db H; [exact H|].
  simpl. by apply IH, handle_used_up.
Qed.

Lemma reset_password_used_up settings pwd_context reset_token new_password
    ip_address user_agent salt now db :
  used_up reset_token db ->
  exists r,
    reset_password settings pwd_context reset_token new_password
      ip_address user_agent salt now db = (r, db) /\ rejected r.
Proof.
  intros [_ Hall]. unfold reset_password. unfold_M.
  destruct (verify_password_reset_token settings reset_token now) as [email|e];
    [|eexists; split; [reflexivity | right; eauto]].
  destruct (negb (truthy email));
    [eexists; split; [reflexivity | left; eauto]|].
  destruct (first _ (password_resets db)) as [[j p]|] eqn:Hfind;
    [|eexists; split; [reflexivity | left; eauto]].
  apply first_Some_lookup in Hfind as [Hj [Ht Hu]].
  rewrite (Hall p) in Hu; [discriminate Hu | by eapply list_elem_of_lookup_2 | exact Ht].
Qed.

Lemma reset_password_success_used_up settings pwd_context reset_token new_password
    ip_address user_agent salt now db db' :
  reset_tokens_unique db ->
  reset_password settings pwd_context reset_token new_password
    ip_address user_agent salt now db = (Return (true, None), db') ->
  used_up reset_token db'.
Proof.
  intros Hnd H. unfold reset_password, get_user_by_claimed_email,
    get_user_by_email, log_audit_action, add_audit_log, set_user,
    set_password_reset, invalidate_user_sessions in H. unfold_M.
  destruct (verify_password_reset_token settings reset_token now) as [email|e];
    [|discriminate H].
  destruct (negb (truthy email)); [discriminate H|].
  destruct (first _ (password_resets db)) as [[j p]|] eqn:Hfind;
    [|discriminate H].
  destruct (negb (PasswordReset.is_valid now p)); [discriminate H|].
  destruct email; try discriminate H.
  destruct (first _ (users db)) as [[i u]|]; [|discriminate H].
  destruct (negb (is_valid _)); [discriminate H|].
  injection H as <-. simpl.
  apply first_Some_lookup in Hfind as [Hj [Ht Hu]].
  set (p' := PasswordReset.set_used_at (Some now) (PasswordReset.set_is_used true p)).
  split.
  - exists p'. split; [|exact Ht].
    apply list_elem_of_lookup. exists j.
    apply list_lookup_insert_eq. by eapply lookup_lt_Some.
  - intros q (k & Hk)%list_elem_of_lookup_1 Hq. simpl in Hk.
    destruct (decide (k = j)) as [->|Hne].
    + rewrite list_lookup_insert_eq in Hk by (by eapply lookup_lt_Some).
      by injection Hk as <-.
    + rewrite list_lookup_insert_ne in Hk by congruence.
      exfalso. apply Hne. eapply NoDup_lookup; [exact Hnd| |].
      * by rewrite list_lookup_fmap, Hk.
      * by rewrite list_lookup_fmap, Hj, Hq, <- Ht.
Qed.

(** X12.  A reset token works once.  In a store the services can produce,
    after [reset_password] succeeded with a token, every later call of
    [reset_password] with that token, whatever calls were made in between,
    is refused and leaves the store as it was. *)
Theorem reset_token_works_once :
  forall (settings : Settings) (tz_offset : Z) (pwd_context : CryptContext)
         (db db' : Db) (reset_token : token) (new_password : string)
         (ip_address user_agent : option string) (salt : string) (now : Z),
    reachable settings tz_offset pwd_context db ->
    reset_password settings pwd_context reset_token new_password
      ip_address user_agent salt now db = (Return (true, None), db') ->
    forall (calls : list (request * Z)) (new_password' : string)
           (ip_address' user_agent' : option string) (salt' : string)
           (now' : Z),
      let later := handle_all settings tz_offset pwd_context calls db' in
      exists r,
        reset_password settings pwd_context reset_token new_password'
          ip_address' user_agent' salt' now' later = (r, later) /\
        rejected r.
Proof.
  intros settings tz_offset pwd_context db db' reset_token new_password
    ip_address user_agent salt now Hreach H calls new_password'
    ip_address' user_agent' salt' now' later.
  apply reset_password_used_up. subst later. apply handle_all_used_up.
  eapply reset_password_success_used_up; [|exact H].
  by apply reachable_resets in Hreach as (? & _).
Qed.

Lemma reset_token_works_once_witness :
  exists r,
    reset_password testing_settings example_context alice_reset_token
      "An0ther!Pw" None None "s3" 1500 alice_after_reset_db
    = (r, alice_after_reset_db) /\
    rejected r.
Proof.
  apply (reset_token_works_once testing_settings 0 example_context
           alice_reset_db alice_after_reset_db alice_reset_token
           "N3w!Passw0rd" None None "s2" 1400 alice_reset_db_reachable
           eq_refl []).
Defined.

Lemma truthy_JStr s : s <> "" -> truthy (JStr s) = true.
Proof.
  intros Hs. simpl. apply negb_true_iff.
  destruct (String.eqb_spec s ""); [contradiction | reflexivity].
Qed.

Lemma first_app_new {A} (P : A -> Prop) `{!forall x, Decision (P x)}
    (rows : list A) r :
  Forall (fun x => ~ P x) rows -> P r ->
  first P (rows ++ [r]) = Some (length rows, r).
Proof.
  intros Hno HP. unfold first. apply list_find_Some. split_and!.
  - by rewrite lookup_app_r, Nat.sub_diag by lia.
  - exact HP.
  - intros j y Hj Hlt. rewrite lookup_app_l in Hj by lia.
    apply (Forall_lookup_1 _ _ _ _ Hno Hj).
Qed.

#[local] Opaque validate_password_strength.

(** X13.  The password-reset flow.  When [request_password_reset] has
    returned for the email of an active account, the reset token issued to
    that email at the time of the request is accepted by [reset_password]
    during the following hour, with any password that meets the policy:
    the call returns [(True, None)], stores the hash of the new password on
    that account, changes no other account, and leaves the account without
    an active session. *)
Theorem password_reset_flow :
  forall (settings : Settings) (pwd_context : CryptContext) (db db1 : Db)
         (request : PasswordResetSchema.t) (ip_address user_agent : option string)
         (now : Z) (i : nat) (user : User.t),
    first (fun u => User.email u = lower (PasswordResetSchema.email request))
      (users db) = Some (i, user) ->
    User.is_active user = true ->
    User.email user <> "" ->
    request_password_reset settings request ip_address user_agent now db
      = (Return true, db1) ->
    forall (new_password : string) (ip_address' user_agent' : option string)
           (salt : string) (now' : Z),
      now <= now' < now + hours 1 ->
      is_valid (validate_password_strength settings new_password) = true ->
      exists db2,
        reset_password settings pwd_context
          (generate_password_reset_token settings (User.email user) now)
          new_password ip_address' user_agent' salt now' db1
        = (Return (true, None), db2) /\
        users db2
        = <[i := User.set_updated_at now'
                   (User.set_password_changed_at now'
                      (User.set_password_hash
                         (get_password_hash pwd_context salt new_password)
                         user))]> (users db) /\
        (forall s, s ∈ user_sessions db2 ->
           UserSession.user_id s = User.id user ->
           UserSession.is_active s = false).
Proof.
  intros settings pwd_context db db1 request ip_address user_agent now i user
    Hfind Hactive Hemail H new_password ip_address' user_agent' salt now'
    Hnow Hvalid.
  pose proof Hfind as [_ Hlower]%first_Some_lookup.
  unfold request_password_reset, get_user_by_email, add_password_reset,
    log_audit_action, add_audit_log in H. unfold_M.
  rewrite Hfind, Hactive in H. simpl in H.
  destruct (bool_decide (Exists _ _)) eqn:Hfresh; [discriminate H|].
  apply bool_decide_eq_false in Hfresh. rewrite <- Forall_Exists_neg in Hfresh.
  injection H as <-.
  unfold reset_password, get_user_by_claimed_email, get_user_by_email,
    log_audit_action, add_audit_log, set_user, set_password_reset,
    invalidate_user_sessions. unfold_M.
  rewrite verify_password_reset_token_generated.
  replace ((now <=? now') && (now' <? now + hours 1)) with true
    by (symmetry; apply andb_true_iff; split; [apply Z.leb_le | apply Z.ltb_lt]; lia).
  rewrite (truthy_JStr _ Hemail). simpl.
  erewrite first_app_new; cycle 1.
  { eapply Forall_impl; [exact Hfresh|]. simpl. intros p Hp [Ht _]. by apply Hp. }
  { by split. }
  unfold PasswordReset.is_valid, PasswordReset.is_expired. simpl.
  replace (now + hours 1 <? now') with false by (symmetry; apply Z.ltb_ge; lia).
  simpl.
  replace (lower (User.email user))
    with (lower (PasswordResetSchema.email request))
    by (by rewrite Hlower, lower_idemp).
  rewrite Hfind, Hvalid. simpl.
  eexists. split_and!; [reflexivity | reflexivity |].
  intros s (s0 & Hs0 & ->)%update_where_elem Hu.
  destruct (bool_decide (UserSession.user_id s0 = User.id user)) eqn:E;
    [reflexivity|].
  apply bool_decide_eq_false in E. by destruct E.
Qed.

#[local] Transparent validate_password_strength.

Lemma password_reset_flow_witness :
  exists db2,
    reset_password testing_settings example_context alice_reset_token
      "N3w!Passw0rd" None None "s2" 1400 alice_reset_db
    = (Return (true, None), db2) /\
    users db2
    = <[0%nat := User.set_updated_at 1400
                   (User.set_password_changed_at 1400
                      (User.set_password_hash
                         (get_password_hash example_context "s2" "N3w!Passw0rd")
                         alice))]> (users alice_db) /\
    (forall s, s ∈ user_sessions db2 ->
       UserSession.user_id s = User.id alice ->
       UserSession.is_active s = false).
Proof.
  apply (password_reset_flow testing_settings example_context alice_db
           alice_reset_db alice_reset_request None None 1300 0%nat alice).
  - reflexivity.
  - reflexivity.
  - discriminate.
  - reflexivity.
  - unfold hours; lia.
  - reflexivity.
Defined.
(** ** Changing a password *)

#[local] Opaque validate_password_strength.

(** X14.  [change_password] raises nothing but [ValueError], and it does so
    exactly when the current password is wrong or the new one fails the
    policy, leaving the store untouched; for an unknown key it returns
    [False], also without a write.  When it returns [True] the account has
    the hash of the new password, no other account has changed, every
    session of the account is inactive, and no session of another account
    has changed. *)
Theorem change_password_outcomes :
  forall (settings : Settings) (pwd_context : CryptContext) (user_id : uuid)
         (password_change : PasswordChange.t) (salt : string) (now : Z)
         (db : Db),
    let found := first (fun u => User.id u = user_id) (users db) in
    let current_ok u :=
      verify_password pwd_context
        (PasswordChange.current_password password_change)
        (User.password_hash u) in
    let new_ok :=
      is_valid (validate_password_strength settings
                  (PasswordChange.new_password password_change)) in
    match change_password settings pwd_context user_id password_change salt
            now db with
    | (Raise e, db') =>
        e = ValueError /\ db' = db /\
        exists i u, found = Some (i, u) /\ current_ok u && new_ok = false
    | (Return false, db') => db' = db /\ found = None
    | (Return true, db') =>
        exists i u,
          found = Some (i, u) /\ current_ok u = true /\ new_ok = true /\
          users db'
          = <[i := User.set_updated_at now
                     (User.set_password_changed_at now
                        (User.set_password_hash
                           (get_password_hash pwd_context salt
                              (PasswordChange.new_password password_change))
                           u))]> (users db) /\
          user_sessions db'
          = update_where
              (fun s => bool_decide (UserSession.user_id s = user_id))
              (UserSession.set_is_active false) (user_sessions db) /\
          password_resets db' = password_resets db
    end.
Proof.
  intros settings pwd_context user_id password_change salt now db.
  unfold change_password, get_user_by_id, log_audit_action, add_audit_log,
    set_user, invalidate_user_sessions. unfold_M. simpl.
  destruct (first _ (users db)) as [[i u]|]; [|by split].
  destruct (verify_password _ _ _) eqn:Hc; simpl.
  - destruct (is_valid _) eqn:Hn; simpl.
    + exists i, u. by split_and!.
    + split_and!; [reflexivity | reflexivity|]. exists i, u.
      by rewrite Hc.
  - split_and!; [reflexivity | reflexivity|]. exists i, u.
    by rewrite Hc.
Qed.

#[local] Transparent validate_password_strength.
(** ** The current user of a request *)

Ltac unfold_R :=
  unfold Depends, rbind, respond, abort, call, except_Exception,
    except_ValueError in *.

(** What [verify_token] returns is the payload of the token, which was
    signed with the secret key, has the kind asked for and passes the
    library's claim validation. *)
Lemma verify_token_Some settings tz_offset t token_type now payload :
  verify_token settings tz_offset t token_type now = Return (Some payload) ->
  t = JWS payload (SECRET_KEY settings) /\
  payload !! "type" = Some (JStr token_type) /\
  validate_claims now payload = Return tt.
Proof.
  unfold verify_token, jwt_decode. destruct t as [p k|text]; [|discriminate].
  case_decide as Hk; [subst k|discriminate].
  destruct (validate_claims now p) as [[]|e] eqn:Hval; simpl; [|by destruct e].
  destruct (decide (p !! "type" ≠ Some (JStr token_type))) as [Hty|Hty];
    [discriminate|].
  destruct (fromtimestamp _ _) as [expires|e]; simpl; [|by destruct e].
  destruct (expires <? now); [discriminate|].
  intros [= <-]. split_and!; [reflexivity | | exact Hval].
  by destruct (decide (p !! "type" = Some (JStr token_type))).
Qed.

Lemma get_current_user_Respond settings tz_offset credentials now db db' user :
  get_current_user settings tz_offset credentials now db = (Respond user, db') ->
  db' = db /\
  User.is_active user = true /\
  User.is_locked user = false /\
  exists (payload : claims) (sub : jvalue) (i : nat),
    credentials = Some (JWS payload (SECRET_KEY settings)) /\
    payload !! "type" = Some (JStr "access") /\
    validate_claims now payload = Return tt /\
    payload !! "sub" = Some sub /\
    UUID sub = Return (User.id user) /\
    first (fun u => User.id u = User.id user) (users db) = Some (i, user).
Proof.
  unfold get_current_user, get_user_by_id. unfold_R. unfold_M.
  destruct credentials as [t|]; [|discriminate].
  destruct (verify_token settings tz_offset t "access" now)
    as [[payload|]|e] eqn:Hv; try discriminate.
  apply verify_token_Some in Hv as (-> & Hty & Hval).
  destruct (bool_decide (payload = ∅)); [discriminate|].
  destruct (payload !! "sub") as [sub|] eqn:Hsub; [|discriminate].
  simpl. destruct (negb (truthy sub)); [discriminate|].
  destruct (UUID sub) as [user_uuid|e] eqn:Hu; [|discriminate].
  destruct (first _ (users db)) as [[i u]|] eqn:Hfind; [|discriminate].
  destruct (User.is_active u) eqn:Ha; [|discriminate]. simpl.
  destruct (User.is_locked u) eqn:Hl; [discriminate|].
  intros [= <- <-]. pose proof Hfind as [Hi Hid]%first_Some_lookup.
  split_and!; try done. exists payload, sub, i. by rewrite Hid.
Qed.



(** X16.  [get_optional_current_user] never raises and never writes: it
    returns the user [get_current_user] returns for the same request, and
    [None] whenever [get_current_user] raises, whether an [HTTPException]
    or the exception of a malformed token. *)
Theorem get_optional_current_user_agrees :
  forall (settings : Settings) (tz_offset : Z) (credentials : option token)
         (now : Z) (db : Db),
    get_optional_current_user settings tz_offset credentials now db
    = (Respond
         match get_current_user settings tz_offset credentials now db with
         | (Respond user, _) => Some user
         | _ => None
         end,
       db).
Proof.
  intros settings tz_offset credentials now db.
  unfold get_optional_current_user, get_current_user, get_user_by_id.
  unfold_R. unfold_M.
  destruct credentials as [t|]; [|reflexivity].
  destruct (verify_token settings tz_offset t "access" now)
    as [[payload|]|e]; try reflexivity.
  destruct (bool_decide (payload = ∅)); [reflexivity|].
  destruct (negb (truthy_opt (payload !! "sub"))); [reflexivity|].
  destruct (UUID _) as [user_uuid|e]; [|reflexivity].
  destruct (first _ (users db)) as [[i u]|]; [|reflexivity].
  by destruct (User.is_active u), (User.is_locked u).
Qed.
(** ** Accounts that an administrator locked or deleted *)

Lemma first_insert_other {A} (P : A -> Prop) `{!forall x, Decision (P x)}
    (rows : list A) i r j x x' :
  first P rows = Some (i, r) -> rows !! j = Some x -> (P x' <-> P x) ->
  first P (<[j := x']> rows) = Some (i, if decide (j = i) then x' else r).
Proof.
  unfold first. intros (Hi & HP & Hleast)%list_find_Some Hj Hiff.
  apply list_find_Some. split_and!.
  - destruct (decide (j = i)) as [->|Hne].
    + apply list_lookup_insert_eq. by eapply lookup_lt_Some.
    + by rewrite list_lookup_insert_ne.
  - destruct (decide (j = i)) as [->|Hne]; [|exact HP].
    apply Hiff. congruence.
  - intros k y Hk Hlt. destruct (decide (k = j)) as [->|Hne].
    + rewrite list_lookup_insert_eq in Hk by (by eapply lookup_lt_Some).
      injection Hk as <-. rewrite Hiff. by eapply Hleast.
    + rewrite list_lookup_insert_ne in Hk by congruence. by eapply Hleast.
Qed.

Lemma first_app_old {A} (P : A -> Prop) `{!forall x, Decision (P x)}
    (rows : list A) i r extra :
  first P rows = Some (i, r) -> first P (rows ++ extra) = Some (i, r).
Proof.
  unfold first. intros Hf. apply list_find_app_Some. by left.
Qed.

#[local] Opaque validate_password_strength.

(** What a call may do to the account stored under a key: it stays the
    first row with that key; a permanent lock on it stays unless the call
    is [unlock_user] for that key; and a deactivated account stays so
    unless the call is [update_user] for that key with [is_active] set. *)
Lemma handle_first_by_id settings tz_offset pwd_context r now db user_id i u :
  first (fun x => User.id x = user_id) (users db) = Some (i, u) ->
  exists u',
    first (fun x => User.id x = user_id)
      (users (handle settings tz_offset pwd_context r now db)) = Some (i, u') /\
    ((forall by_, r <> UnlockUser user_id by_) ->
     User.is_locked u = true -> User.locked_until u = None ->
     User.is_locked u' = true /\ User.locked_until u' = None) /\
    ((forall upd by_, r = UpdateUser user_id upd by_ ->
                      UserUpdate.is_active upd <> Some true) ->
     User.is_active u = false -> User.is_active u' = false).
Proof.
  intros Hfind.
  destruct r; simpl; unfold_services; unfold_M; simpl.
  all: split_cases.
  all: try (exists u; split; [exact Hfind | by split]).
  all: try (exists u; split; [by apply first_app_old | by split]).
  all: revert Hfind; repeat found_row; intros Hfind.
  all: try (eexists; split;
            [eapply first_insert_other;
               [exact Hfind | eassumption
               | unfold set_if; repeat case_match; by simpl]|];
            case_decide; [subst|by split]).
  all: pose proof Hfind as [Hi Hid]%first_Some_lookup; simplify_eq.
  all: simpl; unfold set_if, locked_refusal in *.
  all: split; intros Hno; intros;
    try (exfalso; by eapply Hno);
    repeat case_match; simplify_eq/=; try done; try (by split);
    try (exfalso; by eapply Hno).
  all: destruct b; [exfalso; by eapply Hno | reflexivity].
Qed.

#[local] Transparent validate_password_strength.

Lemma reachable_handle_all settings tz_offset pwd_context calls db :
  reachable settings tz_offset pwd_context db ->
  reachable settings tz_offset pwd_context
    (handle_all settings tz_offset pwd_context calls db).
Proof.
  revert db. induction calls as [|[r now] calls IH]; intros db H; [exact H|].
  simpl. apply IH. by constructor.
Qed.

(** Through a history of calls without [unlock_user] for it, an account
    with a permanent lock stays the first row with its key, permanently
    locked and with the same email; likewise a deactivated account through
    a history that does not reactivate it. *)
Lemma handle_all_first_by_id settings tz_offset pwd_context calls db user_id i u :
  first (fun x => User.id x = user_id) (users db) = Some (i, u) ->
  exists u',
    first (fun x => User.id x = user_id)
      (users (handle_all settings tz_offset pwd_context calls db)) = Some (i, u') /\
    User.email u' = User.email u /\
    (Forall (fun c => unlocks user_id c.1 = false) calls ->
     User.is_locked u = true -> User.locked_until u = None ->
     User.is_locked u' = true /\ User.locked_until u' = None) /\
    (Forall (fun c => reactivates user_id c.1 = false) calls ->
     User.is_active u = false -> User.is_active u' = false).
Proof.
  revert db u. induction calls as [|[r now] calls IH]; intros db u Hfind.
  - exists u. by split_and!.
  - simpl.
    destruct (handle_first_by_id settings tz_offset pwd_context r now db
                user_id i u Hfind) as (u1 & Hfind1 & Hlock1 & Hact1).
    destruct (IH _ _ Hfind1) as (u' & Hfind' & Hemail' & Hlock' & Hact').
    exists u'. split_and!; [exact Hfind' | |  |].
    + rewrite Hemail'.
      apply first_Some_lookup in Hfind as [Hi _].
      apply first_Some_lookup in Hfind1 as [Hi1 _].
      destruct (table_step_lookup _ _ _ _ _ _
                  (handle_users_kept settings tz_offset pwd_context r now db) Hi)
        as (u2 & Hi2 & _ & Hemail2).
      congruence.
    + intros [Hr Hcalls]%Forall_cons_1 Hl Hu. simpl in Hr.
      apply Hlock'; [exact Hcalls | |]; apply Hlock1; try assumption.
      all: intros by_ ->; simpl in Hr; by rewrite bool_decide_eq_true_2 in Hr.
    + intros [Hr Hcalls]%Forall_cons_1 Ha. simpl in Hr.
      apply Hact'; [exact Hcalls|]. apply Hact1; [|exact Ha].
      intros upd by_ -> E. simpl in Hr.
      by rewrite E, !bool_decide_eq_true_2 in Hr.
Qed.

Lemma lock_user_returns_true user_id locked_by now db db' :
  lock_user user_id locked_by now db = (Return true, db') ->
  exists i u u',
    first (fun x => User.id x = user_id) (users db) = Some (i, u) /\
    first (fun x => User.id x = user_id) (users db') = Some (i, u') /\
    User.is_locked u' = true /\ User.locked_until u' = None.
Proof.
  unfold_services; unfold_M. intros H. split_cases.
  eexists _, _, _. split; [reflexivity|]. split.
  - simpl. eapply first_insert_same; [eassumption|].
    match goal with H : first _ _ = Some _ |- _ =>
      apply first_Some_lookup in H as [_ H]; exact H end.
  - by split.
Qed.

Lemma delete_user_returns_true user_id deleted_by now db db' :
  delete_user user_id deleted_by now db = (Return true, db') ->
  exists i u u',
    first (fun x => User.id x = user_id) (users db) = Some (i, u) /\
    first (fun x => User.id x = user_id) (users db') = Some (i, u') /\
    User.is_active u' = false.
Proof.
  unfold_services; unfold_M. intros H. split_cases.
  eexists _, _, _. split; [reflexivity|]. split.
  - simpl. eapply first_insert_same; [eassumption|].
    match goal with H : first _ _ = Some _ |- _ =>
      apply first_Some_lookup in H as [_ H]; exact H end.
  - reflexivity.
Qed.

(** In a store the services can produce, the account found by its email is
    the account found by its key. *)
Lemma first_by_email_of_id settings tz_offset pwd_context db user_id i u email :
  reachable settings tz_offset pwd_context db ->
  first (fun x => User.id x = user_id) (users db) = Some (i, u) ->
  lower email = User.email u ->
  first (fun x => User.email x = lower email) (users db) = Some (i, u).
Proof.
  intros (_ & He & _)%reachable_users [Hi _]%first_Some_lookup ->.
  by apply (first_unique User.email).
Qed.


Lemma alice_locked_db_reachable :
  reachable testing_settings 0 example_context alice_locked_db.
Proof.
  exact (reachable_handle testing_settings 0 example_context alice_db
           (LockUser alice_id (Some root)) 1500 alice_db_reachable).
Defined.


Lemma alice_deleted_db_reachable :
  reachable testing_settings 0 example_context alice_deleted_db.
Proof.
  exact (reachable_handle testing_settings 0 example_context alice_db
           (DeleteUser alice_id (Some root)) 1500 alice_db_reachable).
Defined.

(** What follows for an account that is stored under its key and
    deactivated. *)
Lemma deactivated_account_is_refused settings tz_offset pwd_context db user_id i u :
  reachable settings tz_offset pwd_context db ->
  first (fun x => User.id x = user_id) (users db) = Some (i, u) ->
  User.is_active u = false ->
  (forall login_request ip_address user_agent now,
     lower (LoginRequest.email login_request) = User.email u ->
     exists message,
       authenticate_user settings pwd_context login_request
         ip_address user_agent now db = (Return (None, Some message), db)) /\
  (forall credentials now user db',
     get_current_user settings tz_offset credentials now db = (Respond user, db') ->
     User.id user <> user_id) /\
  (forall payload key ip_address user_agent now,
     payload !! "sub" = Some (JStr user_id) ->
     exists r,
       refresh_access_token settings tz_offset (JWS payload key)
         ip_address user_agent now db = (r, db) /\
       refused r).
Proof.
  intros Hreach Hfind Hact. split_and!.
  - intros login_request ip_address user_agent now Hemail.
    unfold authenticate_user, get_user_by_email. unfold_M.
    rewrite (first_by_email_of_id _ _ _ _ _ _ _ _ Hreach Hfind Hemail).
    destruct (locked_refusal u now) as [message|]; [by eexists|].
    rewrite Hact. by eexists.
  - intros credentials now user db' H <-.
    apply get_current_user_Respond in H
      as (_ & Ha & _ & _ & _ & j & _ & _ & _ & _ & _ & Hfind').
    rewrite Hfind in Hfind'. injection Hfind' as _ <-. congruence.
  - intros payload key ip_address user_agent now Hsub.
    unfold refresh_access_token, get_user_by_id. unfold_M.
    destruct (verify_token settings tz_offset (JWS payload key) "refresh" now)
      as [[payload'|]|e] eqn:Hv;
      [|eexists; split; [reflexivity | left; eauto]
       |eexists; split; [reflexivity | right; eauto]].
    apply verify_token_Some in Hv as ([= <- _] & _).
    destruct (bool_decide (payload = ∅));
      [eexists; split; [reflexivity | left; eauto]|].
    rewrite Hsub. simpl.
    destruct (negb (negb (String.eqb user_id "")));
      [eexists; split; [reflexivity | left; eauto]|].
    destruct (first _ (user_sessions db)) as [[j s]|];
      [|eexists; split; [reflexivity | left; eauto]].
    destruct (UserSession.is_expired now s);
      [eexists; split; [reflexivity | left; eauto]|].
    destruct (uuid_shape _ user_id);
      [|eexists; split; [reflexivity | right; eauto]].
    simpl. rewrite Hfind, Hact. simpl.
    eexists; split; [reflexivity | left; eauto].
Qed.


(** ** Tokens of a new session *)

Lemma verify_token_accepts settings tz_offset p token_type created expiry now :
  p !! "type" = Some (JStr token_type) ->
  p !! "iat" = Some (JInt created) ->
  p !! "nbf" = None ->
  p !! "exp" = Some (JInt expiry) ->
  p !! "aud" = None ->
  created <= now < expiry ->
  now <= expiry + tz_offset ->
  in_datetime_range (expiry + tz_offset) = true ->
  verify_token settings tz_offset (JWS p (SECRET_KEY settings)) token_type now
  = Return (Some p).
Proof.
  intros Hty Hiat Hnbf Hexp Haud [Hc He] Htz Hrange.
  unfold verify_token, jwt_decode. rewrite decide_True by reflexivity.
  rewrite (validate_claims_fresh now p created expiry) by auto. simpl.
  rewrite decide_False by (rewrite Hty; auto).
  rewrite Hexp. simpl. rewrite Hrange. simpl.
  destruct (expiry + tz_offset <? now) eqn:E; [apply Z.ltb_lt in E; lia|].
  reflexivity.
Qed.

Lemma uuid_shape_nonempty s : uuid_shape [8; 4; 4; 4; 12]%nat s = true -> s <> "".
Proof. by intros H ->. Qed.

Lemma UUID_of_shape s :
  uuid_shape [8; 4; 4; 4; 12]%nat s = true -> UUID (JStr s) = Return s.
Proof. intros H. unfold UUID. by rewrite H. Qed.

(** What [create_user_session] returns and stores. *)
Lemma create_user_session_returns settings user remember_me
    device_info ip_address user_agent jti new_id now db access refresh db' :
  create_user_session settings user remember_me device_info ip_address
    user_agent jti new_id now db = (Return (access, refresh), db') ->
  let lifetime :=
    days (REFRESH_TOKEN_EXPIRE_DAYS settings * (if remember_me then 2 else 1)) in
  let session :=
    {| UserSession.id := new_id;
       UserSession.user_id := User.id user;
       UserSession.refresh_token := refresh;
       UserSession.device_info := device_info;
       UserSession.ip_address := ip_address;
       UserSession.user_agent := user_agent;
       UserSession.created_at := now;
       UserSession.expires_at := now + lifetime;
       UserSession.last_used_at := now;
       UserSession.is_active := true |} in
  access = create_access_token settings (User.id user) None
             (Some (session_claims user new_id)) now /\
  refresh = create_refresh_token settings (User.id user) (Some lifetime) jti now /\
  db' = with_user_sessions (fun rows => rows ++ [session]) db /\
  Forall (fun s => UserSession.refresh_token s <> refresh) (user_sessions db).
Proof.
  unfold create_user_session, add_user_session. unfold_M. simpl.
  destruct (bool_decide (Exists _ _)) eqn:Hfresh; [discriminate|].
  intros [= <- <- <-]. split_and!; try reflexivity.
  apply bool_decide_eq_false in Hfresh. rewrite <- Forall_Exists_neg in Hfresh.
  eapply Forall_impl; [exact Hfresh|]. simpl. tauto.
Qed.

(** The payload of the access token of a session. *)
Lemma session_access_token_payload settings user session_id now :
  exists p,
    create_access_token settings (User.id user) None
      (Some (session_claims user session_id)) now
    = JWS p (SECRET_KEY settings) /\
    p <> ∅ /\
    p !! "type" = Some (JStr "access") /\
    p !! "sub" = Some (JStr (User.id user)) /\
    p !! "iat" = Some (JInt now) /\
    p !! "exp"
    = Some (JInt (now + minutes (ACCESS_TOKEN_EXPIRE_MINUTES settings))) /\
    p !! "nbf" = None /\
    p !! "aud" = None /\
    p !! "session_id" = Some (JStr session_id).
Proof.
  unfold create_access_token, jwt_encode. eexists. split; [reflexivity|].
  assert (Hx : forall c, c <> "email" -> c <> "role" -> c <> "session_id" ->
                 extras_of (Some (session_claims user session_id)) !! c = None).
  { intros c ? ? ?. unfold extras_of, session_claims. simpl.
    by rewrite !lookup_insert_ne, lookup_empty by congruence. }
  split_and!.
  - intros E. apply (f_equal (fun m : claims => m !! "type")) in E.
    rewrite update_claims_lookup, Hx in E by discriminate.
    revert E. by map_lookup.
  - rewrite update_claims_lookup, Hx by discriminate. by map_lookup.
  - rewrite update_claims_lookup, Hx by discriminate. by map_lookup.
  - rewrite update_claims_lookup, Hx by discriminate. by map_lookup.
  - rewrite update_claims_lookup, Hx by discriminate. by map_lookup.
  - rewrite update_claims_lookup, Hx by discriminate. by map_lookup.
  - rewrite update_claims_lookup, Hx by discriminate. by map_lookup.
  - rewrite update_claims_lookup. unfold extras_of, session_claims. simpl.
    by map_lookup.
Qed.

(** X19.  The access token of a new session identifies its user.  When
    [create_user_session] returned for a stored account that is active and
    not locked, [get_current_user] returns that account for the access
    token at every time from the creation of the session to the second
    before the token's [exp], provided the time is not past [exp] read as
    local time, which is how [verify_token] reads it. *)
Theorem session_access_token_is_accepted :
  forall (settings : Settings) (tz_offset : Z) (db db1 : Db) (i : nat)
         (user : User.t) (remember_me : bool)
         (device_info ip_address user_agent : option string)
         (jti : string) (new_id : uuid) (now now' : Z)
         (access refresh : token),
    first (fun u => User.id u = User.id user) (users db) = Some (i, user) ->
    User.is_active user = true ->
    User.is_locked user = false ->
    uuid_shape [8; 4; 4; 4; 12]%nat (User.id user) = true ->
    create_user_session settings user remember_me device_info ip_address
      user_agent jti new_id now db = (Return (access, refresh), db1) ->
    let expiry := now + minutes (ACCESS_TOKEN_EXPIRE_MINUTES settings) in
    now <= now' < expiry ->
    now' <= expiry + tz_offset ->
    in_datetime_range (expiry + tz_offset) = true ->
    get_current_user settings tz_offset (Some access) now' db1
    = (Respond user, db1).
Proof.
  intros settings tz_offset db db1 i user remember_me device_info ip_address
    user_agent jti new_id now now' access refresh Hfind Hact Hlock Hshape
    Hcreate expiry Hnow Htz Hrange.
  apply create_user_session_returns in Hcreate as (-> & _ & -> & _).
  destruct (session_access_token_payload settings user new_id now)
    as (p & -> & Hne & Hty & Hsub & Hiat & Hexp & Hnbf & Haud & _).
  unfold get_current_user, get_user_by_id. unfold_R. unfold_M.
  rewrite (verify_token_accepts settings tz_offset p "access" now expiry now')
    by assumption.
  rewrite (bool_decide_eq_false_2 _ Hne), Hsub. unfold truthy_opt.
  rewrite (truthy_JStr _ (uuid_shape_nonempty _ Hshape)). simpl.
  rewrite Hshape. simpl. rewrite Hfind, Hact, Hlock. reflexivity.
Qed.

Lemma session_access_token_is_accepted_witness :
  get_current_user testing_settings 0
    (Some (create_access_token testing_settings alice_id None
             (Some (session_claims alice alice_session_id)) 1100))
    1200 alice_session_db
  = (Respond alice, alice_session_db).
Proof.
  apply (session_access_token_is_accepted testing_settings 0 alice_db
           alice_session_db 0%nat alice false None None None "jti-1"
           alice_session_id 1100 1200 _
           (UserSession.refresh_token alice_session)).
  - reflexivity.
  - reflexivity.
  - reflexivity.
  - reflexivity.
  - reflexivity.
  - unfold minutes; simpl; lia.
  - unfold minutes; simpl; lia.
  - reflexivity.
Defined.

(** The payload of a refresh token with a lifetime. *)
Lemma refresh_token_payload settings subject lifetime jti now :
  lifetime <> 0 ->
  exists p,
    create_refresh_token settings subject (Some lifetime) jti now
    = JWS p (SECRET_KEY settings) /\
    p <> ∅ /\
    p !! "type" = Some (JStr "refresh") /\
    p !! "sub" = Some (JStr subject) /\
    p !! "iat" = Some (JInt now) /\
    p !! "exp" = Some (JInt (now + lifetime)) /\
    p !! "nbf" = None /\
    p !! "aud" = None.
Proof.
  intros Hl. unfold create_refresh_token, jwt_encode, delta_truthy.
  destruct (lifetime =? 0) eqn:E; [apply Z.eqb_eq in E; contradiction|].
  eexists. split; [reflexivity|]. split_and!; by map_lookup.
Qed.

(** X20.  The refresh token of a new session refreshes.  When
    [create_user_session] returned for a stored active account,
    [refresh_access_token] accepts the refresh token at every time from the
    creation of the session to the second before the session expires (and
    not past the expiry read as local time): it returns a new access token
    for the same account and session, issued at the time of the call, sets
    [last_used_at] of the session to that time, and changes no other row
    of the accounts and sessions. *)
Theorem session_refresh_token_is_accepted :
  forall (settings : Settings) (tz_offset : Z) (db db1 : Db) (i : nat)
         (user : User.t) (remember_me : bool)
         (device_info ip_address user_agent : option string)
         (jti : string) (new_id : uuid) (now now' : Z)
         (access refresh : token) (ip_address' user_agent' : option string),
    first (fun u => User.id u = User.id user) (users db) = Some (i, user) ->
    User.is_active user = true ->
    uuid_shape [8; 4; 4; 4; 12]%nat (User.id user) = true ->
    create_user_session settings user remember_me device_info ip_address
      user_agent jti new_id now db = (Return (access, refresh), db1) ->
    let expiry :=
      now + days (REFRESH_TOKEN_EXPIRE_DAYS settings
                  * (if remember_me then 2 else 1)) in
    now <= now' < expiry ->
    now' <= expiry + tz_offset ->
    in_datetime_range (expiry + tz_offset) = true ->
    exists db2,
      refresh_access_token settings tz_offset refresh ip_address' user_agent'
        now' db1
      = (Return (Some (create_access_token settings (User.id user) None
                         (Some (session_claims user new_id)) now'),
                 None),
         db2) /\
      users db2 = users db /\
      user_sessions db2
      = user_sessions db
        ++ [{| UserSession.id := new_id;
               UserSession.user_id := User.id user;
               UserSession.refresh_token := refresh;
               UserSession.device_info := device_info;
               UserSession.ip_address := ip_address;
               UserSession.user_agent := user_agent;
               UserSession.created_at := now;
               UserSession.expires_at := expiry;
               UserSession.last_used_at := now';
               UserSession.is_active := true |}].
Proof.
  intros settings tz_offset db db1 i user remember_me device_info ip_address
    user_agent jti new_id now now' access refresh ip_address' user_agent'
    Hfind Hact Hshape Hcreate expiry Hnow Htz Hrange.
  apply create_user_session_returns in Hcreate as (_ & Hrefresh & -> & Hfresh).
  set (lifetime := days (REFRESH_TOKEN_EXPIRE_DAYS settings
                         * (if remember_me then 2 else 1))) in *.
  destruct (refresh_token_payload settings (User.id user) lifetime jti now)
    as (p & Hp & Hne & Hty & Hsub & Hiat & Hexp & Hnbf & Haud);
    [subst expiry; lia|].
  rewrite Hp in Hrefresh. subst refresh.
  unfold refresh_access_token, get_user_by_id, log_audit_action,
    add_audit_log, set_user_session. unfold_M.
  rewrite (verify_token_accepts settings tz_offset p "refresh" now expiry now')
    by assumption.
  rewrite (bool_decide_eq_false_2 _ Hne), Hsub. unfold truthy_opt.
  rewrite (truthy_JStr _ (uuid_shape_nonempty _ Hshape)). simpl.
  erewrite first_app_new; cycle 1.
  { eapply Forall_impl; [exact Hfresh|]. simpl. intros s Hs [Ht _]. by apply Hs. }
  { by split. }
  unfold UserSession.is_expired. simpl.
  replace (now + lifetime <? now') with false
    by (symmetry; apply Z.ltb_ge; subst expiry; lia).
  rewrite Hshape. simpl. rewrite Hfind, Hact. simpl.
  eexists. split_and!; [reflexivity | reflexivity|].
  simpl. rewrite insert_app_r_alt, Nat.sub_diag by lia. reflexivity.
Qed.

Lemma session_refresh_token_is_accepted_witness :
  exists db2,
    refresh_access_token testing_settings 0
      (UserSession.refresh_token alice_session) None None 1200 alice_session_db
    = (Return (Some (create_access_token testing_settings (User.id alice) None
                       (Some (session_claims alice alice_session_id)) 1200),
               None),
       db2) /\
    users db2 = users alice_db /\
    user_sessions db2
    = user_sessions alice_db
      ++ [{| UserSession.id := alice_session_id;
             UserSession.user_id := User.id alice;
             UserSession.refresh_token := UserSession.refresh_token alice_session;
             UserSession.device_info := None;
             UserSession.ip_address := None;
             UserSession.user_agent := None;
             UserSession.created_at := 1100;
             UserSession.expires_at :=
               1100 + days (REFRESH_TOKEN_EXPIRE_DAYS testing_settings * 1);
             UserSession.last_used_at := 1200;
             UserSession.is_active := true |}].
Proof.
  apply (session_refresh_token_is_accepted testing_settings 0 alice_db
           alice_session_db 0%nat alice false None None None "jti-1"
           alice_session_id 1100 1200
           (create_access_token testing_settings alice_id None
              (Some (session_claims alice alice_session_id)) 1100)
           (UserSession.refresh_token alice_session) None None).
  - reflexivity.
  - reflexivity.
  - reflexivity.
  - reflexivity.
  - unfold days; simpl; lia.
  - unfold days; simpl; lia.
  - reflexivity.
Defined.
(** ** Registration *)

#[local] Opaque validate_password_strength.


#[local] Transparent validate_password_strength.
(** ** The routes that lock and delete accounts *)

Lemma can_manage_other caller target :
  is_admin caller = true ->
  can_manage_user caller target = true ->
  User.id target <> User.id caller ->
  User.role target <> SUPERADMIN /\
  (is_superadmin caller = false -> User.role target = USER).
Proof.
  unfold can_manage_user.
  change (role_value (User.role target) = "superadmin")
    with (role_value (User.role target) = role_value SUPERADMIN).
  by_roles. intros Hadmin Hmanage Hother.
  destruct (User.role caller), (User.role target); simpl in *;
    try discriminate; try (by split);
    by apply bool_decide_eq_true in Hmanage.
Qed.

Lemma get_current_user_reads settings tz_offset credentials now db :
  snd (get_current_user settings tz_offset credentials now db) = db.
Proof.
  unfold get_current_user, get_user_by_id. unfold_R. unfold_M.
  destruct credentials as [t|]; [|reflexivity].
  destruct (verify_token settings tz_offset t "access" now)
    as [[payload|]|e]; try reflexivity.
  destruct (bool_decide (payload = ∅)); [reflexivity|].
  destruct (negb (truthy_opt (payload !! "sub"))); [reflexivity|].
  destruct (UUID _) as [user_uuid|e]; [|reflexivity].
  destruct (first _ (users db)) as [[i u]|]; [|reflexivity].
  by destruct (User.is_active u), (User.is_locked u).
Qed.

Lemma delete_user_found user_id deleted_by now db i u :
  first (fun x => User.id x = user_id) (users db) = Some (i, u) ->
  fst (delete_user user_id deleted_by now db) = Return true.
Proof.
  intros H. unfold delete_user, get_user_by_id. unfold_M. by rewrite H.
Qed.

Lemma lock_user_found user_id locked_by now db i u :
  first (fun x => User.id x = user_id) (users db) = Some (i, u) ->
  fst (lock_user user_id locked_by now db) = Return true.
Proof.
  intros H. unfold lock_user, get_user_by_id. unfold_M. by rewrite H.
Qed.

Ltac guarded_route found :=
  intros settings tz_offset user_id credentials now db;
  unfold guarded_call, UsersRoutes.delete_user, UsersRoutes.lock_user,
    get_current_admin_user, get_permission_checker; unfold_R;
  pose proof (get_current_user_reads settings tz_offset credentials now db)
    as Hreads;
  destruct (get_current_user settings tz_offset credentials now db)
    as [[caller|e|e] db0] eqn:Hcur; simpl in Hreads; subst db0;
    [|reflexivity|reflexivity];
  destruct (is_admin caller) eqn:Hadmin; [|reflexivity]; simpl;
  unfold lift; simpl;
  destruct (uuid_shape _ user_id) eqn:Hshape; [|reflexivity];
  apply UUID_of_shape in Hshape;
  unfold get_user_by_id; unfold_M;
  destruct (first _ (users db)) as [[i target]|] eqn:Hfind; [|reflexivity];
  destruct (can_manage_user caller target) eqn:Hmanage; [|reflexivity]; simpl;
  destruct (bool_decide (User.id target = User.id caller)) eqn:Hself;
    [reflexivity|];
  apply bool_decide_eq_false in Hself;
  pose proof Hfind as [_ Hid]%first_Some_lookup; simpl in Hid; subst user_id;
  pose proof (found (User.id target) (Some caller) now db i target Hfind)
    as Hfound;
  match goal with
  | |- context [?service (User.id target) (Some caller) now db] =>
      destruct (service (User.id target) (Some caller) now db)
        as [[[]|e] db'] eqn:Hcall; try discriminate Hfound
  end;
  simpl; split; [reflexivity|];
  destruct (can_manage_other caller target Hadmin Hmanage Hself) as [Hnot Huser];
  exists caller, target, i; by split_and!.

(** ** Revoking and cleaning up sessions *)

(** X23.  [revoke_session] never raises.  It returns [True] exactly when
    the user owns an active session with the given key; then, in a store
    the services can produce, the refresh token of that session is refused
    by [refresh_access_token] from then on, whatever calls follow.  It
    returns [False] and writes nothing when no active session with that
    key belongs to the user, so a user cannot revoke the session of
    another. *)
Theorem revoke_session_by_owner_only :
  forall (settings : Settings) (tz_offset : Z) (pwd_context : CryptContext)
         (db : Db) (user : User.t) (session_id : uuid)
         (ip_address user_agent : option string) (now : Z),
    reachable settings tz_offset pwd_context db ->
    match revoke_session user session_id ip_address user_agent now db with
    | (Return true, db1) =>
        exists s : UserSession.t,
          s ∈ user_sessions db /\
          UserSession.id s = session_id /\
          UserSession.user_id s = User.id user /\
          UserSession.is_active s = true /\
          forall (calls : list (request * Z))
                 (ip_address' user_agent' : option string) (now' : Z),
            let later := handle_all settings tz_offset pwd_context calls db1 in
            exists r,
              refresh_access_token settings tz_offset
                (UserSession.refresh_token s) ip_address' user_agent' now' later
              = (r, later) /\
              refused r
    | (Return false, db1) =>
        db1 = db /\
        forall s : UserSession.t,
          s ∈ user_sessions db ->
          UserSession.id s = session_id ->
          UserSession.user_id s = User.id user ->
          UserSession.is_active s = false
    | (Raise e, _) => False
    end.
Proof.
  intros settings tz_offset pwd_context db user session_id ip_address
    user_agent now Hreach.
  apply reachable_invariants in Hreach as (_ & _ & Hnd).
  unfold revoke_session, log_audit_action, add_audit_log, set_user_session.
  unfold_M.
  destruct (first _ (user_sessions db)) as [[j s]|] eqn:Hfind.
  - apply first_Some_lookup in Hfind as [Hj (Hid & Hown & Hact)].
    exists s. split_and!; try assumption; [by eapply list_elem_of_lookup_2|].
    intros calls ip_address' user_agent' now'.
    apply refresh_access_token_revoked.
    apply handle_all_revoked_in. simpl. split.
    + exists (UserSession.set_is_active false s). split; [|reflexivity].
      apply list_elem_of_lookup. exists j.
      apply list_lookup_insert_eq. by eapply lookup_lt_Some.
    + intros s' (k & Hk)%list_elem_of_lookup_1 Ht. simpl in Hk.
      destruct (decide (k = j)) as [->|Hne].
      * rewrite list_lookup_insert_eq in Hk by (by eapply lookup_lt_Some).
        by injection Hk as <-.
      * rewrite list_lookup_insert_ne in Hk by congruence.
        exfalso. apply Hne. eapply NoDup_lookup; [exact Hnd| |].
        -- by rewrite list_lookup_fmap, Hk.
        -- by rewrite list_lookup_fmap, Hj, Ht.
  - split; [reflexivity|]. intros s (k & Hk)%list_elem_of_lookup_1 Hid Hown.
    unfold first in Hfind. apply list_find_None in Hfind.
    pose proof (Forall_lookup_1 _ _ _ _ Hfind Hk) as Hno. simpl in Hno.
    destruct (UserSession.is_active s); [|reflexivity].
    exfalso. by apply Hno.
Qed.

Lemma revoke_session_by_owner_only_witness :
  match revoke_session alice alice_session_id None None 1200 alice_session_db with
  | (Return true, db1) =>
      exists s : UserSession.t,
        s ∈ user_sessions alice_session_db /\
        UserSession.id s = alice_session_id /\
        UserSession.user_id s = User.id alice /\
        UserSession.is_active s = true /\
        forall (calls : list (request * Z))
               (ip_address' user_agent' : option string) (now' : Z),
          let later :=
            handle_all testing_settings 0 example_context calls db1 in
          exists r,
            refresh_access_token testing_settings 0
              (UserSession.refresh_token s) ip_address' user_agent' now' later
            = (r, later) /\
            refused r
  | (Return false, db1) =>
      db1 = alice_session_db /\
      forall s : UserSession.t,
        s ∈ user_sessions alice_session_db ->
        UserSession.id s = alice_session_id ->
        UserSession.user_id s = User.id alice ->
        UserSession.is_active s = false
  | (Raise e, _) => False
  end.
Proof.
  apply (revoke_session_by_owner_only testing_settings 0 example_context
           alice_session_db alice alice_session_id None None 1200).
  exact alice_session_db_reachable.
Defined.

(** X24.  [cleanup_expired_sessions] never raises and touches nothing but
    [is_active] of the sessions whose [expires_at] lies before the time of
    the call, which it makes inactive; a session that has not expired is
    left as it is.  The number it returns counts the expired sessions,
    those already inactive included, so a second run at the same time
    returns the same number and changes nothing. *)
Theorem cleanup_expired_sessions_outcome :
  forall (now : Z) (db : Db),
    let expired (s : UserSession.t) := UserSession.expires_at s <? now in
    let count :=
      Z.of_nat (length (filter (fun s => expired s = true) (user_sessions db))) in
    exists db' : Db,
      cleanup_expired_sessions now db = (Return count, db') /\
      users db' = users db /\
      password_resets db' = password_resets db /\
      audit_logs db' = audit_logs db /\
      user_sessions db'
      = (fun s => if expired s then UserSession.set_is_active false s else s)
        <$> user_sessions db /\
      (forall s, s ∈ user_sessions db' -> expired s = true ->
                 UserSession.is_active s = false) /\
      cleanup_expired_sessions now db' = (Return count, db').
Proof.
  intros now db expired count.
  unfold cleanup_expired_sessions. unfold_M. simpl.
  eexists. split_and!; try reflexivity.
  - intros s (s0 & -> & Hs0)%list_elem_of_fmap.
    destruct (UserSession.expires_at s0 <? now) eqn:E; [reflexivity|].
    subst expired. simpl. by rewrite E.
  - assert (Hidem : forall rows : list UserSession.t,
              update_where (fun s => UserSession.expires_at s <? now)
                (UserSession.set_is_active false)
                (update_where (fun s => UserSession.expires_at s <? now)
                   (UserSession.set_is_active false) rows)
              = update_where (fun s => UserSession.expires_at s <? now)
                  (UserSession.set_is_active false) rows).
    { intros rows. unfold update_where. rewrite <- list_fmap_compose.
      apply list_fmap_ext. intros _ s _. simpl.
      destruct (UserSession.expires_at s <? now) eqn:E; simpl; by rewrite E. }
    assert (Hcount : forall rows : list UserSession.t,
              length (filter (fun s => (UserSession.expires_at s <? now) = true)
                        (update_where (fun s => UserSession.expires_at s <? now)
                           (UserSession.set_is_active false) rows))
              = length (filter (fun s => (UserSession.expires_at s <? now) = true)
                          rows)).
    { intros rows. induction rows as [|s rows IH]; [reflexivity|].
      unfold update_where in *. rewrite fmap_cons.
      destruct (UserSession.expires_at s <? now) eqn:E.
      - rewrite !filter_cons_True by (simpl; exact E). simpl. by rewrite IH.
      - rewrite !filter_cons_False by (simpl; by rewrite E). exact IH. }
    unfold with_user_sessions. simpl. subst count expired. simpl.
    rewrite Hcount, Hidem. reflexivity.
Qed.
(** ** Listing sessions *)

Lemma insert_desc_perm {A} (key : A -> Z) x rows :
  insert_desc key x rows ≡ₚ x :: rows.
Proof.
  induction rows as [|y rows IH]; [reflexivity|]. simpl.
  destruct (key y <? key x); [reflexivity|].
  rewrite IH. apply Permutation_swap.
Qed.

Lemma insert_desc_descending {A} (key : A -> Z) x rows :
  descending key rows -> descending key (insert_desc key x rows).
Proof.
  induction rows as [|y rows IH]; simpl.
  - by repeat constructor.
  - intros [Hall Hs]. destruct (key y <? key x) eqn:E.
    + apply Z.ltb_lt in E. simpl. split_and!; [|exact Hall|exact Hs].
      constructor; [lia|]. eapply Forall_impl; [exact Hall|]. simpl. lia.
    + apply Z.ltb_ge in E. simpl. split; [|by apply IH].
      rewrite insert_desc_perm. by constructor.
Qed.

Lemma example_order_descending : orders_descending example_order.
Proof.
  intros A key rows. unfold example_order.
  induction rows as [|x rows [IHp IHs]]; [by split|]. simpl. split.
  - by rewrite insert_desc_perm, IHp.
  - by apply insert_desc_descending.
Qed.

Lemma get_user_sessions_returns order_by_desc user_id db :
  get_user_sessions order_by_desc user_id db
  = (Return (order_by_desc _ UserSession.last_used_at
               (filter (fun s => UserSession.user_id s = user_id /\
                                 UserSession.is_active s = true)
                  (user_sessions db))),
     db).
Proof. reflexivity. Qed.

(** X25.  [get_user_sessions] never writes and lists, latest use first,
    exactly the active sessions of the user, expired or not.  After the
    user logged out from all devices it lists nothing, and after
    [cleanup_expired_sessions] it lists no session that had expired by the
    time of the cleanup. *)
Theorem get_user_sessions_lists_active_sessions :
  forall (order_by_desc : forall A : Type, (A -> Z) -> list A -> list A)
         (user_id : uuid) (db : Db),
    orders_descending order_by_desc ->
    (exists listed,
       get_user_sessions order_by_desc user_id db = (Return listed, db) /\
       descending UserSession.last_used_at listed /\
       forall s, s ∈ listed <->
                 s ∈ user_sessions db /\ UserSession.user_id s = user_id /\
                 UserSession.is_active s = true) /\
    (forall (user : User.t) (refresh_token : option token)
            (ip_address user_agent : option string) (now : Z),
       User.id user = user_id ->
       fst (get_user_sessions order_by_desc user_id
              (exec (logout_user user refresh_token true ip_address user_agent
                       now) db))
       = Return []) /\
    (forall (now : Z) (listed : list UserSession.t) (s : UserSession.t),
       fst (get_user_sessions order_by_desc user_id
              (exec (cleanup_expired_sessions now) db))
       = Return listed ->
       s ∈ listed -> now <= UserSession.expires_at s).
Proof.
  intros order_by_desc user_id db Horder. split_and!.
  - eexists. split; [apply get_user_sessions_returns|].
    split; [apply Horder|]. intros s.
    rewrite (proj1 (Horder _ _ _)), list_elem_of_filter. tauto.
  - intros user refresh_token ip_address user_agent now <-.
    rewrite get_user_sessions_returns. simpl. f_equal.
    apply elem_of_nil_inv. intros s.
    rewrite (proj1 (Horder _ _ _)), list_elem_of_filter.
    intros [[Hown Hact] Hin].
    unfold logout_user, invalidate_user_sessions, log_audit_action,
      add_audit_log in Hin. unfold_M. simpl in Hin.
    apply update_where_elem in Hin as (s0 & _ & ->).
    destruct (bool_decide (UserSession.user_id s0 = User.id user)) eqn:E.
    + discriminate Hact.
    + apply bool_decide_eq_false in E. by apply E.
  - intros now listed s. rewrite get_user_sessions_returns. simpl.
    intros [= <-]. rewrite (proj1 (Horder _ _ _)), list_elem_of_filter.
    intros [[Hown Hact] Hin].
    unfold cleanup_expired_sessions in Hin. unfold_M. simpl in Hin.
    apply update_where_elem in Hin as (s0 & _ & ->).
    destruct (UserSession.expires_at s0 <? now) eqn:E.
    + discriminate Hact.
    + by apply Z.ltb_ge in E.
Qed.

Lemma get_user_sessions_lists_active_sessions_witness :
  exists listed,
    get_user_sessions example_order alice_id alice_session_db
    = (Return listed, alice_session_db) /\
    descending UserSession.last_used_at listed /\
    forall s, s ∈ listed <->
              s ∈ user_sessions alice_session_db /\
              UserSession.user_id s = alice_id /\
              UserSession.is_active s = true.
Proof.
  apply (get_user_sessions_lists_active_sessions example_order alice_id
           alice_session_db).
  exact example_order_descending.
Defined.
(** ** Pages of the audit log *)

Lemma page_nonempty {A} (rows : list A) (page size : Z) :
  1 <= page -> 1 <= size ->
  take (Z.to_nat size) (drop (Z.to_nat ((page - 1) * size)) rows) <> [] <->
  page <= (Z.of_nat (length rows) + size - 1) `div` size.
Proof.
  intros Hp Hs.
  set (n := Z.of_nat (length rows)).
  assert (Hiff : page <= (n + size - 1) `div` size <-> (page - 1) * size < n).
  { split.
    - intros H. assert (size * page <= n + size - 1); [|nia].
      etransitivity; [apply Z.mul_le_mono_nonneg_l; [lia | exact H]|].
      apply Z.mul_div_le. lia.
    - intros H. apply Z.div_le_lower_bound; [lia | nia]. }
  rewrite Hiff. rewrite <- length_zero_iff_nil, length_take, length_drop.
  subst n. split; [|nia]. intros H.
  destruct (decide ((page - 1) * size < Z.of_nat (length rows))); [assumption|].
  exfalso. apply H. lia.
Qed.

Lemma filter_by_user_id_elem (user_id : option uuid) (rows : list AuditLog.t) a :
  a ∈ match user_id with
      | Some user_id => filter (fun a => AuditLog.user_id a = Some user_id) rows
      | None => rows
      end <->
  a ∈ rows /\ (forall u, user_id = Some u -> AuditLog.user_id a = Some u).
Proof.
  destruct user_id as [u|]; [rewrite list_elem_of_filter|]; split.
  - intros [? ?]. split; [assumption|]. by intros ? [= <-].
  - intros [? Hu]. split; [by apply Hu | assumption].
  - intros ?. by split.
  - by intros [? _].
Qed.

Lemma filter_by_action_elem (action : option string) (rows : list AuditLog.t) a :
  a ∈ match action with
      | Some action =>
          if negb (String.eqb action "")
          then filter (fun a => AuditLog.action a = action) rows
          else rows
      | None => rows
      end <->
  a ∈ rows /\ (forall s, action = Some s -> s <> "" -> AuditLog.action a = s).
Proof.
  destruct action as [s|]; [destruct (String.eqb_spec s ""); simpl;
                            [|rewrite list_elem_of_filter]|]; split.
  - intros ?. split; [assumption|]. intros ? [= <-] ?. contradiction.
  - by intros [? _].
  - intros [? ?]. split; [assumption|]. by intros ? [= <-].
  - intros [? Hs]. split; [by apply Hs | assumption].
  - intros ?. by split.
  - by intros [? _].
Qed.

Lemma filter_by_resource_elem (resource : option string) (rows : list AuditLog.t) a :
  a ∈ match resource with
      | Some resource =>
          if negb (String.eqb resource "")
          then filter (fun a => AuditLog.resource a = Some resource) rows
          else rows
      | None => rows
      end <->
  a ∈ rows /\
  (forall s, resource = Some s -> s <> "" -> AuditLog.resource a = Some s).
Proof.
  destruct resource as [s|]; [destruct (String.eqb_spec s ""); simpl;
                              [|rewrite list_elem_of_filter]|]; split.
  - intros ?. split; [assumption|]. intros ? [= <-] ?. contradiction.
  - by intros [? _].
  - intros [? ?]. split; [assumption|]. by intros ? [= <-].
  - intros [? Hs]. split; [by apply Hs | assumption].
  - intros ?. by split.
  - by intros [? _].
Qed.

(** X26.  [get_audit_logs] never writes.  A filter given as [None] or as
    the empty string is not applied.  The total it returns is the number
    of matching entries, whatever the page; the items of a page are the
    next [size] matching entries in descending order of [created_at]; and
    with the page count the routes compute from the total, a page from 1
    on has items exactly when its number is at most the page count, so
    [has_next] tells whether the next page has items. *)
Theorem audit_log_pages :
  forall (order_by_desc : forall A : Type, (A -> Z) -> list A -> list A)
         (user_id : option uuid) (action resource : option string)
         (size : Z) (db : Db),
    orders_descending order_by_desc ->
    1 <= size ->
    exists matching : list AuditLog.t,
      descending AuditLog.created_at matching /\
      (forall a, a ∈ matching <->
         a ∈ audit_logs db /\
         (forall u, user_id = Some u -> AuditLog.user_id a = Some u) /\
         (forall s, action = Some s -> s <> "" -> AuditLog.action a = s) /\
         (forall s, resource = Some s -> s <> "" ->
                    AuditLog.resource a = Some s)) /\
      forall page : Z,
        1 <= page ->
        let items :=
          take (Z.to_nat size) (drop (Z.to_nat ((page - 1) * size)) matching) in
        let total := Z.of_nat (length matching) in
        let info := page_info total page size in
        get_audit_logs order_by_desc user_id action resource page size db
        = (Return (items, total), db) /\
        (items <> [] <-> page <= pages info) /\
        (has_next info = true <-> page + 1 <= pages info) /\
        (has_prev info = true <-> 1 < page).
Proof.
  intros order_by_desc user_id action resource size db Horder Hsize.
  unfold get_audit_logs. unfold_M. cbv zeta.
  match goal with
  | |- context [order_by_desc _ _ ?query] =>
      exists (order_by_desc _ AuditLog.created_at query)
  end.
  split; [apply Horder|]. split; [|intros page Hpage; split_and!].
  - intros a.
    rewrite (proj1 (Horder _ _ _)), filter_by_resource_elem,
      filter_by_action_elem, filter_by_user_id_elem.
    tauto.
  - rewrite (Permutation_length (proj1 (Horder _ _ _))). reflexivity.
  - by apply page_nonempty.
  - unfold page_info. simpl. rewrite Z.ltb_lt. lia.
  - unfold page_info. simpl. apply Z.ltb_lt.
Qed.

Lemma audit_log_pages_witness :
  exists matching : list AuditLog.t,
    descending AuditLog.created_at matching /\
    (forall a, a ∈ matching <->
       a ∈ audit_logs alice_db /\
       (forall u, Some alice_id = Some u -> AuditLog.user_id a = Some u) /\
       (forall s, Some "" = Some s -> s <> "" -> AuditLog.action a = s) /\
       (forall s, @None string = Some s -> s <> "" ->
                  AuditLog.resource a = Some s)) /\
    forall page : Z,
      1 <= page ->
      let items :=
        take (Z.to_nat 20) (drop (Z.to_nat ((page - 1) * 20)) matching) in
      let total := Z.of_nat (length matching) in
      let info := page_info total page 20 in
      get_audit_logs example_order (Some alice_id) (Some "") None page 20 alice_db
      = (Return (items, total), alice_db) /\
      (items <> [] <-> page <= pages info) /\
      (has_next info = true <-> page + 1 <= pages info) /\
      (has_prev info = true <-> 1 < page).
Proof.
  apply (audit_log_pages example_order (Some alice_id) (Some "") None 20
           alice_db).
  - exact example_order_descending.
  - lia.
Defined.
(** ** Statistics *)

Lemma count_le_length {A} (P : A -> Prop) `{!forall x, Decision (P x)} (l : list A) :
  0 <= Z.of_nat (length (filter P l)) <= Z.of_nat (length l).
Proof. pose proof (length_filter P l). lia. Qed.

Lemma count_by_role (rows : list User.t) :
  Z.of_nat (length rows)
  = Z.of_nat (length (filter (fun u => bool_decide (User.role u = SUPERADMIN) = true) rows))
    + Z.of_nat (length (filter (fun u => bool_decide (User.role u = ADMIN1) = true) rows))
    + Z.of_nat (length (filter (fun u => bool_decide (User.role u = ADMIN2) = true) rows))
    + Z.of_nat (length (filter (fun u => bool_decide (User.role u = ADMIN3) = true) rows))
    + Z.of_nat (length (filter (fun u => bool_decide (User.role u = USER) = true) rows)).
Proof.
  induction rows as [|u rows IH]; [reflexivity|].
  rewrite !filter_cons. simpl length. rewrite Nat2Z.inj_succ, IH.
  destruct (User.role u); simpl; lia.
Qed.

Lemma users_by_role_lookup (count : UserRole -> Z) (name : string) :
  (list_to_map
     (omap (fun role =>
              if 0 <? count role then Some (role_value role, count role)
              else None)
        [SUPERADMIN; ADMIN1; ADMIN2; ADMIN3; USER])
   : gmap string Z) !! name
  = (if decide (name = "superadmin")
     then if 0 <? count SUPERADMIN then Some (count SUPERADMIN) else None
     else if decide (name = "admin1")
     then if 0 <? count ADMIN1 then Some (count ADMIN1) else None
     else if decide (name = "admin2")
     then if 0 <? count ADMIN2 then Some (count ADMIN2) else None
     else if decide (name = "admin3")
     then if 0 <? count ADMIN3 then Some (count ADMIN3) else None
     else if decide (name = "user")
     then if 0 <? count USER then Some (count USER) else None
     else None).
Proof.
  cbn [omap list_omap].
  generalize (count SUPERADMIN), (count ADMIN1), (count ADMIN2),
    (count ADMIN3), (count USER). intros n1 n2 n3 n4 n5.
  destruct (0 <? n1), (0 <? n2), (0 <? n3), (0 <? n4), (0 <? n5); simpl;
    repeat case_decide; subst;
    repeat first [ rewrite lookup_insert_eq | rewrite lookup_insert_ne by congruence
                 | rewrite lookup_empty ];
    reflexivity.
Qed.

(** X27.  [get_user_stats] never writes.  Its counts of active, verified
    and locked users and of recent registrations and logins are at most
    [total_users]; [users_by_role] holds, for each role that some user
    has, the number of users with that role, and no entry for a role
    without users or for any other key; and the counts by role add up to
    [total_users]. *)
Theorem user_stats_are_consistent :
  forall (now : Z) (db : Db),
    exists stats : UserStats,
      get_user_stats now db = (Return stats, db) /\
      total_users stats = Z.of_nat (length (users db)) /\
      0 <= active_users stats <= total_users stats /\
      0 <= verified_users stats <= total_users stats /\
      0 <= locked_users stats <= total_users stats /\
      0 <= recent_registrations stats <= total_users stats /\
      0 <= recent_logins stats <= total_users stats /\
      (forall role : UserRole,
         let n := Z.of_nat (length (filter (fun u => User.role u = role)
                                      (users db))) in
         users_by_role stats !! role_value role
         = if 0 <? n then Some n else None) /\
      (forall name : string,
         (forall role, name <> role_value role) ->
         users_by_role stats !! name = None) /\
      total_users stats
      = default 0 (users_by_role stats !! "superadmin")
        + default 0 (users_by_role stats !! "admin1")
        + default 0 (users_by_role stats !! "admin2")
        + default 0 (users_by_role stats !! "admin3")
        + default 0 (users_by_role stats !! "user").
Proof.
  intros now db. unfold get_user_stats. unfold_M. cbv zeta.
  eexists. split; [reflexivity|]. cbn [total_users active_users verified_users
    locked_users recent_registrations recent_logins users_by_role].
  assert (Hn : forall role,
            Z.of_nat (length (filter (fun u => bool_decide (User.role u = role) = true)
                                (users db)))
            = Z.of_nat (length (filter (fun u => User.role u = role) (users db)))).
  { intros role. do 2 f_equal. apply list_filter_iff. intros u.
    apply bool_decide_eq_true. }
  split; [reflexivity|]. do 5 (split; [apply count_le_length|]).
  assert (Hl : forall name,
            (list_to_map
               (omap (fun role =>
                        if 0 <? Z.of_nat (length (filter
                                   (fun u => bool_decide (User.role u = role) = true)
                                   (users db)))
                        then Some (role_value role,
                                   Z.of_nat (length (filter
                                     (fun u => bool_decide (User.role u = role) = true)
                                     (users db))))
                        else None)
                  [SUPERADMIN; ADMIN1; ADMIN2; ADMIN3; USER])
             : gmap string Z) !! name = _)
    by (intros name;
        exact (users_by_role_lookup
                 (fun role => Z.of_nat (length (filter
                    (fun u => bool_decide (User.role u = role) = true)
                    (users db)))) name)).
  cbv beta in Hl.
  split; [|split].
  - intros role. rewrite Hl, !Hn. by destruct role.
  - intros name Hno. rewrite Hl.
    pose proof (Hno SUPERADMIN). pose proof (Hno ADMIN1).
    pose proof (Hno ADMIN2). pose proof (Hno ADMIN3). pose proof (Hno USER).
    simpl in *. by repeat case_decide.
  - rewrite !Hl. simpl.
    rewrite (count_by_role (users db)).
    repeat match goal with
           | |- context [0 <? ?n] =>
               let E := fresh "E" in
               destruct (0 <? n) eqn:E; [|apply Z.ltb_ge in E]
           end; simpl; lia.
Qed.
(** ** A lock that has run out *)

(** X28.  [get_current_user] looks at the flag [is_locked] only, not at
    [locked_until]: in a store the services can produce, an account whose
    temporary lock has run out is still returned for no request, until a
    login succeeds.  [authenticate_user] with the right password, at or
    after [locked_until], returns the account and stores it unlocked. *)
Theorem expired_lock_needs_a_login :
  forall (settings : Settings) (tz_offset : Z) (pwd_context : CryptContext)
         (db : Db) (i : nat) (u : User.t) (locked_until : Z)
         (login_request : LoginRequest.t)
         (ip_address user_agent : option string) (now : Z),
    reachable settings tz_offset pwd_context db ->
    users db !! i = Some u ->
    User.is_active u = true ->
    User.is_locked u = true ->
    User.locked_until u = Some locked_until ->
    locked_until <= now ->
    lower (LoginRequest.email login_request) = User.email u ->
    verify_password pwd_context (LoginRequest.password login_request)
      (User.password_hash u) = true ->
    (forall (credentials : option token) (now' : Z) (user : User.t) (db' : Db),
       get_current_user settings tz_offset credentials now' db
         = (Respond user, db') ->
       User.id user <> User.id u) /\
    exists (u' : User.t) (db1 : Db),
      authenticate_user settings pwd_context login_request ip_address
        user_agent now db = (Return (Some u', None), db1) /\
      User.id u' = User.id u /\
      User.is_locked u' = false /\
      User.locked_until u' = None /\
      users db1 = <[i := u']> (users db).
Proof.
  intros settings tz_offset pwd_context db i u locked_until login_request
    ip_address user_agent now Hreach Hi Hact Hlock Huntil Hnow Hemail Hverify.
  pose proof Hreach as (Hids & Hemails & _)%reachable_users.
  split.
  - intros credentials now' user db' H E.
    apply get_current_user_Respond in H
      as (_ & _ & Hl' & _ & _ & j & _ & _ & _ & _ & _ & Hfind').
    rewrite E, (first_unique User.id _ i u Hids Hi) in Hfind'.
    injection Hfind' as _ <-. congruence.
  - unfold authenticate_user, get_user_by_email, set_user, log_audit_action,
      add_audit_log. unfold_M.
    rewrite Hemail, (first_unique User.email _ i u Hemails Hi).
    unfold locked_refusal. rewrite Hlock, Huntil.
    replace (now <? locked_until) with false by (symmetry; apply Z.ltb_ge; lia).
    rewrite Hact, Hverify. simpl.
    eexists _, _. split; [reflexivity|].
    replace (locked_until <=? now) with true by (symmetry; apply Z.leb_le; lia).
    destruct (0 <? User.failed_login_attempts u); simpl;
      rewrite Hlock, Huntil; simpl;
      replace (locked_until <=? now) with true by (symmetry; apply Z.leb_le; lia);
      by split_and!.
Qed.

Lemma alice_locked_out_db_reachable :
  reachable testing_settings 0 example_context alice_locked_out_db.
Proof. apply reachable_handle_all. exact alice_db_reachable. Qed.

Lemma expired_lock_needs_a_login_witness :
  (forall (credentials : option token) (now' : Z) (user : User.t) (db' : Db),
     get_current_user testing_settings 0 credentials now' alice_locked_out_db
       = (Respond user, db') ->
     User.id user <> User.id alice_locked_out) /\
  exists (u' : User.t) (db1 : Db),
    authenticate_user testing_settings example_context alice_login None None
      3000 alice_locked_out_db = (Return (Some u', None), db1) /\
    User.id u' = User.id alice_locked_out /\
    User.is_locked u' = false /\
    User.locked_until u' = None /\
    users db1 = <[0%nat := u']> (users alice_locked_out_db).
Proof.
  apply (expired_lock_needs_a_login testing_settings 0 example_context
           alice_locked_out_db 0%nat alice_locked_out 2805 alice_login
           None None 3000).
  - exact alice_locked_out_db_reachable.
  - reflexivity.
  - reflexivity.
  - reflexivity.
  - reflexivity.
  - lia.
  - reflexivity.
  - reflexivity.
Defined.
(** ** Access tokens and logout *)

Lemma get_current_user_users settings tz_offset credentials now db1 db2 :
  users db1 = users db2 ->
  fst (get_current_user settings tz_offset credentials now db1)
  = fst (get_current_user settings tz_offset credentials now db2).
Proof.
  intros Husers. unfold get_current_user, get_user_by_id. unfold_R. unfold_M.
  destruct credentials as [t|]; [|reflexivity].
  destruct (verify_token settings tz_offset t "access" now)
    as [[payload|]|e]; try reflexivity.
  destruct (bool_decide (payload = ∅)); [reflexivity|].
  destruct (negb (truthy_opt (payload !! "sub"))); [reflexivity|].
  destruct (UUID _) as [user_uuid|e]; [|reflexivity].
  rewrite Husers.
  destruct (first _ (users db2)) as [[i u]|]; [|reflexivity].
  by destruct (User.is_active u), (User.is_locked u).
Qed.

(** X29.  Ending a session does not end its access token.
    [get_current_user] reads the accounts only, and [logout_user],
    [revoke_session] and [cleanup_expired_sessions] do not write them: a
    request is answered after any of the three exactly as it was answered
    before, so an access token issued for a session is accepted until it
    expires, whether or not the session is still active. *)
Theorem logout_keeps_access_tokens :
  forall (settings : Settings) (tz_offset : Z) (credentials : option token)
         (now' : Z) (db : Db) (user : User.t) (refresh_token : option token)
         (logout_all_devices : bool) (session_id : uuid)
         (ip_address user_agent : option string) (now : Z),
    let answer db := fst (get_current_user settings tz_offset credentials now' db) in
    answer (exec (logout_user user refresh_token logout_all_devices
                    ip_address user_agent now) db) = answer db /\
    answer (exec (revoke_session user session_id ip_address user_agent now) db)
    = answer db /\
    answer (exec (cleanup_expired_sessions now) db) = answer db.
Proof.
  intros settings tz_offset credentials now' db user refresh_token
    logout_all_devices session_id ip_address user_agent now answer.
  subst answer. split_and!; apply get_current_user_users.
  - unfold logout_user, invalidate_user_sessions, log_audit_action,
      add_audit_log. unfold_M.
    destruct logout_all_devices; [reflexivity|].
    destruct refresh_token as [t|]; [|reflexivity].
    by destruct (token_truthy t).
  - unfold revoke_session, set_user_session, log_audit_action, add_audit_log.
    unfold_M. by destruct (first _ (user_sessions db)) as [[j s]|].
  - reflexivity.
Qed.

(** Alice's access token of time 1100 still identifies her at time 1300,
    after she logged out at time 1200. *)
Example alice_access_token_after_logout :
  fst (get_current_user testing_settings 0
         (Some (create_access_token testing_settings alice_id None
                  (Some (session_claims alice alice_session_id)) 1100))
         1300
         (handle testing_settings 0 example_context alice_logout 1200
            alice_session_db))
  = Respond alice.
Proof. reflexivity. Qed.
(** ** After a lockout *)

#[local] Opaque validate_password_strength.

Lemma handle_users_lockout settings tz_offset pwd_context r now db :
  table_step
    (fun u u' => lock_consistent u -> lockout_counted settings u ->
                 lockout_counted settings u')
    (fun _ u => User.locked_until u = None)
    (users db) (users (handle settings tz_offset pwd_context r now db)).
Proof.
  assert (Hrefl : forall u, lock_consistent u -> lockout_counted settings u ->
                            lockout_counted settings u) by auto.
  destruct r; simpl; unfold_services; unfold_M; simpl.
  all: split_cases.
  all: try (apply table_step_same; exact Hrefl).
  all: try (apply table_step_add; [exact Hrefl | reflexivity]).
  all: repeat found_row.
  all: eapply table_step_insert; [exact Hrefl | eassumption |].
  all: unfold lockout_counted, lock_consistent, set_if, locked_refusal in *;
    simpl; intros Hc Hn l Hl;
    repeat case_match; simplify_eq/=;
    try (by eapply Hn); try discriminate; try lia;
    try (rewrite Hc in * by reflexivity; discriminate).
  specialize (Hn l eq_refl). lia.
Qed.

#[local] Transparent validate_password_strength.

Lemma reachable_lockout_counted settings tz_offset pwd_context db :
  reachable settings tz_offset pwd_context db ->
  Forall (lockout_counted settings) (users db).
Proof.
  induction 1 as [|db r now Hreach IH]; [constructor|].
  apply reachable_invariants in Hreach as (Hlocks & _ & _).
  destruct (handle_users_lockout settings tz_offset pwd_context r now db)
    as (kept & Hkept & Hrows').
  assert (Hk : Forall (lockout_counted settings) kept).
  { apply Forall_lookup_2. intros j y Hj.
    destruct (Forall2_lookup_r _ _ _ _ _ Hkept Hj) as (x & Hx & Hstep).
    apply Hstep.
    - apply (Forall_lookup_1 _ _ _ _ Hlocks Hx).
    - apply (Forall_lookup_1 _ _ _ _ IH Hx). }
  destruct Hrows' as [-> | (u & -> & Hu)]; [exact Hk|].
  apply Forall_app. split; [exact Hk|]. constructor; [|constructor].
  intros l Hl. congruence.
Qed.

(** X30.  After a lockout has run out, one wrong password locks the
    account again.  In a store the services can produce, an account with a
    lock time has used up its failed logins, and the counter is not reset
    when the lock runs out: a login with a wrong password, at or after
    [locked_until], is answered "Invalid email or password" and locks the
    account for another [LOCKOUT_DURATION_MINUTES], at the first
    attempt. *)
Theorem one_wrong_password_locks_again :
  forall (settings : Settings) (tz_offset : Z) (pwd_context : CryptContext)
         (db : Db) (i : nat) (u : User.t) (locked_until : Z)
         (login_request : LoginRequest.t)
         (ip_address user_agent : option string) (now : Z),
    reachable settings tz_offset pwd_context db ->
    users db !! i = Some u ->
    User.is_active u = true ->
    User.locked_until u = Some locked_until ->
    locked_until <= now ->
    lower (LoginRequest.email login_request) = User.email u ->
    verify_password pwd_context (LoginRequest.password login_request)
      (User.password_hash u) = false ->
    MAX_LOGIN_ATTEMPTS settings <= User.failed_login_attempts u /\
    exists (u' : User.t) (db1 : Db),
      authenticate_user settings pwd_context login_request ip_address
        user_agent now db
      = (Return (None, Some "Invalid email or password"), db1) /\
      users db1 = <[i := u']> (users db) /\
      User.is_locked u' = true /\
      User.locked_until u'
      = Some (now + minutes (LOCKOUT_DURATION_MINUTES settings)) /\
      User.failed_login_attempts u' = User.failed_login_attempts u + 1.
Proof.
  intros settings tz_offset pwd_context db i u locked_until login_request
    ip_address user_agent now Hreach Hi Hact Huntil Hnow Hemail Hverify.
  pose proof Hreach as (_ & Hemails & _)%reachable_users.
  pose proof (Forall_lookup_1 _ _ _ _
                (reachable_lockout_counted _ _ _ _ Hreach) Hi _ Huntil) as Hmax.
  split; [exact Hmax|].
  unfold authenticate_user, get_user_by_email, set_user, log_audit_action,
    add_audit_log. unfold_M.
  rewrite Hemail, (first_unique User.email _ i u Hemails Hi).
  unfold locked_refusal. rewrite Huntil.
  replace (now <? locked_until) with false by (symmetry; apply Z.ltb_ge; lia).
  assert (locked_refusal_none :
            (if User.is_locked u then @None string else None) = None)
    by (by destruct (User.is_locked u)).
  rewrite locked_refusal_none, Hact, Hverify. simpl.
  replace (MAX_LOGIN_ATTEMPTS settings <=? User.failed_login_attempts u + 1)
    with true by (symmetry; apply Z.leb_le; lia).
  simpl. eexists _, _. split; [reflexivity|]. by split_and!.
Qed.

Lemma one_wrong_password_locks_again_witness :
  MAX_LOGIN_ATTEMPTS testing_settings
    <= User.failed_login_attempts alice_locked_out /\
  exists (u' : User.t) (db1 : Db),
    authenticate_user testing_settings example_context alice_typo None None
      3000 alice_locked_out_db
    = (Return (None, Some "Invalid email or password"), db1) /\
    users db1 = <[0%nat := u']> (users alice_locked_out_db) /\
    User.is_locked u' = true /\
    User.locked_until u'
    = Some (3000 + minutes (LOCKOUT_DURATION_MINUTES testing_settings)) /\
    User.failed_login_attempts u'
    = User.failed_login_attempts alice_locked_out + 1.
Proof.
  apply (one_wrong_password_locks_again testing_settings 0 example_context
           alice_locked_out_db 0%nat alice_locked_out 2805 alice_typo
           None None 3000).
  - exact alice_locked_out_db_reachable.
  - reflexivity.
  - reflexivity.
  - reflexivity.
  - lia.
  - reflexivity.
  - reflexivity.
Defined.
